(** * Architecture-graph generators of autokeras/nn/generator.py

    A shallow embedding of the five network generators (plain CNN, MLP,
    ResNet, DenseNet, MobileNetV2) together with the part of the graph
    store, of the layer descriptors and of the constants module that the
    generators drive.  Python integers are [Z], tuples and lists are
    [list], exceptions are an explicit [error] in a [result], and the
    graph mutated by [add_layer] is threaded through a state-and-error
    monad. *)

From Stdlib Require Import ZArith List Bool Lia.
Import ListNotations.
Local Open Scope Z_scope.

(** ** Exceptions and results *)

(** The exceptions a generator can end in.  [InvalidInputRank] is the
    [ValueError] of the rank checks in the constructors,
    [WidthLengthMismatch] the [ValueError] of [MlpGenerator.generate],
    [UnsupportedRank] the failure of the operator resolver, [IndexError]
    an index outside a tuple or list, [TypeError] a layer applied to the
    wrong number of predecessors. *)
Inductive error : Type :=
| InvalidInputRank
| WidthLengthMismatch
| UnsupportedRank
| IndexError
| TypeError.

Inductive result (A : Type) : Type :=
| Ok (a : A)
| Err (e : error).
Arguments Ok {A} a.
Arguments Err {A} e.

Definition bindR {A B : Type} (r : result A) (k : A -> result B) : result B :=
  match r with
  | Ok a => k a
  | Err e => Err e
  end.

Notation "'let?' x ':=' r 'in' k" := (bindR r (fun x => k))
  (at level 10, x pattern, r at level 100, k at level 200).

(** ** Shapes and Python indexing *)

Definition Shape : Type := list Z.

(** [len(t)] *)
Definition len {A : Type} (t : list A) : Z := Z.of_nat (length t).

(** [t[-1]], which raises on the empty tuple. *)
Fixpoint item_last (t : Shape) : result Z :=
  match t with
  | [] => Err IndexError
  | [c] => Ok c
  | _ :: t' => item_last t'
  end.

(** [t[0]], which raises on the empty tuple. *)
Definition item_first (t : Shape) : result Z :=
  match t with
  | [] => Err IndexError
  | c :: _ => Ok c
  end.

(** [range(n)] *)
Definition range (n : Z) : list Z := map Z.of_nat (seq 0 (Z.to_nat n)).

(** [enumerate(t)] *)
Definition enumerate {A : Type} (t : list A) : list (Z * A) :=
  combine (map Z.of_nat (seq 0 (length t))) t.

(** ** Constants (autokeras/constant.py) *)

Module Constant.

(** Modelled from the spec: the module autokeras/constant.py is not part of
    the sources.  Section 4.1 fixes the fall-back value of the depth
    argument of [generate]: 2. *)
Definition MODEL_LEN : Z := 2.

(** Modelled from the spec: as [MODEL_LEN]; section 4.1 fixes the fall-back
    value of the width argument of [generate]: 64. *)
Definition MODEL_WIDTH : Z := 64.

End Constant.

(** Modelled from the spec: the dropout rates [Constant.CONV_DROPOUT_RATE]
    and [Constant.MLP_DROPOUT_RATE] are not part of the sources, and
    sections 4.2 and 4.3 only say that each is a fixed rate, so the two stay
    symbolic; [RateNum] is a rate written as a number in the generator
    itself. *)
Inductive Rate : Type :=
| CONV_DROPOUT_RATE
| MLP_DROPOUT_RATE
| RateNum (r : Z).

(** ** Layer descriptors (autokeras/nn/layers.py) *)

(** The family a resolver call selects: the 1-d, 2-d or 3-d variant. *)
Inductive Dim : Type := Dim1d | Dim2d | Dim3d.

(** Modelled from the spec: the lookups [get_conv_class],
    [get_dropout_class], [get_pooling_class], ... of autokeras/nn/layers.py
    are not part of the sources.  Section 6: the resolver maps a spatial
    rank 1, 2 or 3 to the operator family and fails with [UnsupportedRank]
    outside that set. *)
Definition resolve (n_dim : Z) : result Dim :=
  if n_dim =? 1 then Ok Dim1d
  else if n_dim =? 2 then Ok Dim2d
  else if n_dim =? 3 then Ok Dim3d
  else Err UnsupportedRank.

Definition get_conv_class := resolve.
Definition get_dropout_class := resolve.
Definition get_global_avg_pooling_class := resolve.
Definition get_pooling_class := resolve.
Definition get_avg_pooling_class := resolve.
Definition get_batch_norm_class := resolve.

(** Modelled from the spec: the layer stubs of autokeras/nn/layers.py are
    not part of the sources.  Section 3 lists the operator families; each
    descriptor carries the arguments the call sites of generator.py pass, a
    keyword argument that a call site may leave out being an [option]. *)
Inductive Layer : Type :=
| StubReLU
| StubBatchNormalization (d : Dim) (num_features : Z)
| StubConv (d : Dim) (input_channel filters kernel_size : Z)
           (stride padding groups : option Z)
| StubPooling (d : Dim) (kernel_size stride padding : option Z)
| StubAvgPooling (d : Dim) (kernel_size stride padding : option Z)
| StubGlobalPooling (d : Dim)
| StubDropout (d : Dim) (rate : Rate)
| StubDropout1d (rate : Rate)
| StubDense (input_units units : Z)
| StubAdd
| StubConcatenate.

(** What the specification leaves open in the shape rules of the layers: how
    a convolution or a pooling layer maps one spatial extent.  It is a
    parameter of everything below. *)
Class ShapeRules : Type := { spatial_dim : Layer -> Z -> Z }.

Section Shapes.
Context {rules : ShapeRules}.

(** [shape[:-1]] mapped through the layer, then the new channel count. *)
Definition spatial_shape (layer : Layer) (s : Shape) (channels : Z) : Shape :=
  map (spatial_dim layer) (removelast s) ++ [channels].

Fixpoint sum_channels (inputs : list Shape) : result Z :=
  match inputs with
  | [] => Ok 0
  | s :: rest =>
      let? c := item_last s in
      let? r := sum_channels rest in
      Ok (c + r)
  end.

(** Modelled from the spec: the [output_shape] of the layer stubs
    (autokeras/nn/layers.py) is not part of the sources.  Sections 3 and 4:
    activation, normalization and dropout keep the shape; a convolution
    maps the spatial extents and sets the channel count to its filters;
    pooling maps the spatial extents and keeps the channels; global pooling
    leaves the channel count alone; a dense layer gives its units; an
    elementwise add of two nodes gives their (common) shape; a
    concatenation keeps every dimension but the channels, which it sums.
    A channel count declared by a descriptor is not compared with the
    predecessor (section 3: a precondition on the template, not a run-time
    check of the graph; sections 8 and 9 expect the DenseNet generator to
    run with a width other than the 64 its first normalization declares).
    A rule that needs the channel dimension of a shape fails on the empty
    shape, a layer applied to the wrong number of predecessors fails. *)
Definition output_shape (layer : Layer) (inputs : list Shape) : result Shape :=
  match layer, inputs with
  | StubReLU, [s] => Ok s
  | StubBatchNormalization _ _, [s] => Ok s
  | StubDropout _ _, [s] => Ok s
  | StubDropout1d _, [s] => Ok s
  | StubConv _ _ filters _ _ _ _, [s] => Ok (spatial_shape layer s filters)
  | StubPooling _ _ _ _, [s] =>
      let? c := item_last s in Ok (spatial_shape layer s c)
  | StubAvgPooling _ _ _ _, [s] =>
      let? c := item_last s in Ok (spatial_shape layer s c)
  | StubGlobalPooling _, [s] =>
      let? c := item_last s in Ok [c]
  | StubDense _ units, [s] => Ok [units]
  | StubAdd, [s1; s2] => Ok s1
  | StubConcatenate, s :: rest =>
      let? c := sum_channels (s :: rest) in Ok (removelast s ++ [c])
  | _, _ => Err TypeError
  end.

End Shapes.

(** ** The graph (autokeras/nn/graph.py) *)

(** One recorded operator: its descriptor, the ids of its predecessors and
    the id of the node it produced. *)
Definition Edge : Type := (Layer * list nat * nat)%type.

(** Modelled from the spec: the class [Graph] of autokeras/nn/graph.py is
    not part of the sources.  Sections 2, 3 and 6: nodes carry one shape and
    are numbered in creation order, the graph records which predecessors
    and which operator produced each node, and it only grows. *)
Record Graph : Type := mkGraph {
  node_list : list Shape;
  layer_list : list Edge
}.

(** Modelled from the spec: [Graph(input_shape, False)], the graph whose
    only node, with id 0, carries the input shape. *)
Definition new_graph (input_shape : Shape) (weighted : bool) : Graph :=
  {| node_list := [input_shape]; layer_list := [] |}.

(** Computations that mutate the graph and may raise. *)
Definition M (A : Type) : Type := Graph -> result (A * Graph).

Definition ret {A : Type} (a : A) : M A := fun graph => Ok (a, graph).

Definition bind {A B : Type} (m : M A) (k : A -> M B) : M B :=
  fun graph =>
    match m graph with
    | Ok (a, graph') => k a graph'
    | Err e => Err e
    end.

Definition lift {A : Type} (r : result A) : M A :=
  fun graph =>
    match r with
    | Ok a => Ok (a, graph)
    | Err e => Err e
    end.

Notation "x <- m ;; k" := (bind m (fun x => k))
  (at level 61, m at next level, right associativity).
Notation "' p <- m ;; k" := (bind m (fun x => match x with p => k end))
  (at level 61, p pattern, m at next level, right associativity).

(** A [for] loop whose body updates the loop-carried variables [s]. *)
Fixpoint for_each {A S : Type} (xs : list A) (s : S) (body : A -> S -> M S)
  : M S :=
  match xs with
  | [] => ret s
  | x :: xs' => s' <- body x s ;; for_each xs' s' body
  end.

(** Modelled from the spec: [graph.node_list[node_id].shape], the shape
    lookup by node id of section 6; it fails on an id that is not in the
    graph. *)
Definition node_shape (node_id : nat) : M Shape :=
  fun graph =>
    match nth_error (node_list graph) node_id with
    | Some s => Ok (s, graph)
    | None => Err IndexError
    end.

Fixpoint node_shapes (ids : list nat) : M (list Shape) :=
  match ids with
  | [] => ret []
  | i :: rest =>
      s <- node_shape i ;;
      ss <- node_shapes rest ;;
      ret (s :: ss)
  end.

Section AddLayer.
Context {rules : ShapeRules}.

(** Modelled from the spec: [graph.add_layer(layer, input_node_id)], the
    append of section 6.  The predecessors have to exist, the shape of the
    new node is derived from the operator and the shapes of the
    predecessors, the node gets the next id, and that id is returned.  A
    bare id is written as the one-element list. *)
Definition add_layer (layer : Layer) (input_node_id : list nat) : M nat :=
  inputs <- node_shapes input_node_id ;;
  s <- lift (output_shape layer inputs) ;;
  fun graph =>
    let output_node_id := length (node_list graph) in
    Ok (output_node_id,
        {| node_list := node_list graph ++ [s];
           layer_list := layer_list graph
                           ++ [(layer, input_node_id, output_node_id)] |}).

End AddLayer.

(** ** The generators (autokeras/nn/generator.py) *)

(** [graph = Graph(self.input_shape, False)], the statements [m] that
    extend it, and [return graph]; [a] is what the statements leave
    behind besides the graph. *)
Definition build {A : Type} (input_shape : Shape) (m : M A) : result (A * Graph) :=
  m (new_graph input_shape false).

Definition build_graph {A : Type} (input_shape : Shape) (m : M A) : result Graph :=
  let? r := build input_shape m in Ok (snd r).

Definition or_default (arg : option Z) (default : Z) : Z :=
  match arg with
  | None => default
  | Some v => v
  end.

Module CnnGenerator.

Record t : Type := mk {
  n_output_node : Z;
  input_shape : Shape;
  n_dim : Z;
  conv : Dim;
  dropout : Dim;
  global_avg_pooling : Dim;
  pooling : Dim;
  batch_norm : Dim
}.

Definition __init__ (n_output_node : Z) (input_shape : Shape) : result t :=
  let n_dim := len input_shape - 1 in
  if len input_shape >? 4 then Err InvalidInputRank
  else if len input_shape <? 2 then Err InvalidInputRank
  else
    let? conv := get_conv_class n_dim in
    let? dropout := get_dropout_class n_dim in
    let? global_avg_pooling := get_global_avg_pooling_class n_dim in
    let? pooling := get_pooling_class n_dim in
    let? batch_norm := get_batch_norm_class n_dim in
    Ok (mk n_output_node input_shape n_dim conv dropout global_avg_pooling
           pooling batch_norm).

Section Generate.
Context {rules : ShapeRules}.

(** The body of the loop of [generate]; the loop carries
    [output_node_id] and [temp_input_channel]. *)
Definition generate_step (self : t) (model_len model_width pooling_len stride : Z)
    (i : Z) (carried : nat * Z) : M (nat * Z) :=
  let '(output_node_id, temp_input_channel) := carried in
  output_node_id <- add_layer StubReLU [output_node_id] ;;
  shape <- node_shape output_node_id ;;
  channels <- lift (item_last shape) ;;
  output_node_id <-
    add_layer (StubBatchNormalization (batch_norm self) channels) [output_node_id] ;;
  output_node_id <-
    add_layer (StubConv (conv self) temp_input_channel model_width 3
                        (Some stride) None None) [output_node_id] ;;
  let temp_input_channel := model_width in
  if (pooling_len =? 0)
     || (((i + 1) mod pooling_len =? 0) && negb (i =? model_len - 1))
  then
    output_node_id <-
      add_layer (StubPooling (pooling self) None None None) [output_node_id] ;;
    ret (output_node_id, temp_input_channel)
  else ret (output_node_id, temp_input_channel).

Definition generate (self : t) (model_len model_width : option Z) : result Graph :=
  let model_len := or_default model_len Constant.MODEL_LEN in
  let model_width := or_default model_width Constant.MODEL_WIDTH in
  (* int(model_len / 4): the quotient as a float, truncated towards zero *)
  let pooling_len := Z.quot model_len 4 in
  build_graph (input_shape self) (
      temp_input_channel <- lift (item_last (input_shape self)) ;;
      let output_node_id := 0%nat in
      let stride := 1 in
      '(output_node_id, _) <-
        for_each (range model_len) (output_node_id, temp_input_channel)
          (generate_step self model_len model_width pooling_len stride) ;;
      output_node_id <-
        add_layer (StubGlobalPooling (global_avg_pooling self)) [output_node_id] ;;
      output_node_id <-
        add_layer (StubDropout (dropout self) CONV_DROPOUT_RATE) [output_node_id] ;;
      shape <- node_shape output_node_id ;;
      flat <- lift (item_first shape) ;;
      output_node_id <- add_layer (StubDense flat model_width) [output_node_id] ;;
      output_node_id <- add_layer StubReLU [output_node_id] ;;
      _ <- add_layer (StubDense model_width (n_output_node self)) [output_node_id] ;;
      ret tt).

End Generate.
End CnnGenerator.

(** The [model_width] argument of [MlpGenerator.generate]: an integer or a
    list of integers. *)
Inductive Width : Type :=
| WidthInt (w : Z)
| WidthList (ws : list Z).

Module MlpGenerator.

Record t : Type := mk {
  n_output_node : Z;
  input_shape : Shape
}.

Definition __init__ (n_output_node : Z) (input_shape : Shape) : result t :=
  if len input_shape >? 1 then Err InvalidInputRank
  else Ok (mk n_output_node input_shape).

Section Generate.
Context {rules : ShapeRules}.

Definition generate_step (width : Z) (carried : nat * Z) : M (nat * Z) :=
  let '(output_node_id, n_nodes_prev_layer) := carried in
  output_node_id <- add_layer (StubDense n_nodes_prev_layer width) [output_node_id] ;;
  output_node_id <- add_layer (StubDropout1d MLP_DROPOUT_RATE) [output_node_id] ;;
  output_node_id <- add_layer StubReLU [output_node_id] ;;
  let n_nodes_prev_layer := width in
  ret (output_node_id, n_nodes_prev_layer).

Definition generate (self : t) (model_len : option Z) (model_width : option Width)
  : result Graph :=
  let model_len := or_default model_len Constant.MODEL_LEN in
  let model_width :=
    match model_width with
    | None => WidthInt Constant.MODEL_WIDTH
    | Some w => w
    end in
  let? model_width :=
    match model_width with
    | WidthList ws =>
        if negb (len ws =? model_len) then Err WidthLengthMismatch else Ok ws
    | WidthInt w => Ok (repeat w (Z.to_nat model_len))
    end in
  build_graph (input_shape self) (
      let output_node_id := 0%nat in
      n_nodes_prev_layer <- lift (item_first (input_shape self)) ;;
      '(output_node_id, n_nodes_prev_layer) <-
        for_each model_width (output_node_id, n_nodes_prev_layer) generate_step ;;
      _ <- add_layer (StubDense n_nodes_prev_layer (n_output_node self))
                     [output_node_id] ;;
      ret tt).

End Generate.
End MlpGenerator.

Module ResNetGenerator.

Record t : Type := mk {
  n_output_node : Z;
  input_shape : Shape;
  in_planes : Z;
  block_expansion : Z;
  n_dim : Z;
  conv : Dim;
  dropout : Dim;
  global_avg_pooling : Dim;
  adaptive_avg_pooling : Dim;
  batch_norm : Dim
}.

(** [self.in_planes = v] *)
Definition set_in_planes (self : t) (v : Z) : t :=
  mk (n_output_node self) (input_shape self) v (block_expansion self)
     (n_dim self) (conv self) (dropout self) (global_avg_pooling self)
     (adaptive_avg_pooling self) (batch_norm self).

Definition __init__ (n_output_node : Z) (input_shape : Shape) : result t :=
  let in_planes := 64 in
  let block_expansion := 1 in
  let n_dim := len input_shape - 1 in
  if len input_shape >? 4 then Err InvalidInputRank
  else if len input_shape <? 2 then Err InvalidInputRank
  else
    let? conv := get_conv_class n_dim in
    let? dropout := get_dropout_class n_dim in
    let? global_avg_pooling := get_global_avg_pooling_class n_dim in
    let? adaptive_avg_pooling := get_global_avg_pooling_class n_dim in
    let? batch_norm := get_batch_norm_class n_dim in
    Ok (mk n_output_node input_shape in_planes block_expansion n_dim conv
           dropout global_avg_pooling adaptive_avg_pooling batch_norm).

Section Generate.
Context {rules : ShapeRules}.

Definition _make_block (self : t) (in_planes planes : Z) (node_id : nat)
    (stride : Z) : M nat :=
  out <- add_layer (StubBatchNormalization (batch_norm self) in_planes) [node_id] ;;
  out <- add_layer StubReLU [out] ;;
  let residual_node_id := out in
  out <- add_layer (StubConv (conv self) in_planes planes 3 (Some stride) None None)
                   [out] ;;
  out <- add_layer (StubBatchNormalization (batch_norm self) planes) [out] ;;
  out <- add_layer StubReLU [out] ;;
  out <- add_layer (StubConv (conv self) planes planes 3 None None None) [out] ;;
  residual_node_id <- add_layer StubReLU [residual_node_id] ;;
  residual_node_id <-
    add_layer (StubConv (conv self) in_planes (planes * block_expansion self) 1
                        (Some stride) None None) [residual_node_id] ;;
  out <- add_layer StubAdd [out; residual_node_id] ;;
  ret out.

(** The loop of [_make_layer] carries [out] and the generator, whose
    [in_planes] each iteration reads and then overwrites. *)
Definition _make_layer_step (planes : Z) (current_stride : Z) (carried : nat * t)
  : M (nat * t) :=
  let '(out, self) := carried in
  out <- _make_block self (in_planes self) planes out current_stride ;;
  let self := set_in_planes self (planes * block_expansion self) in
  ret (out, self).

Definition _make_layer (self : t) (planes blocks : Z) (node_id : nat) (stride : Z)
  : M (nat * t) :=
  let strides := [stride] ++ repeat 1 (Z.to_nat (blocks - 1)) in
  let out := node_id in
  for_each strides (out, self) (_make_layer_step planes).

(** [generate] returns the graph; the generator it leaves behind is
    returned next to it. *)
Definition generate (self : t) (model_len model_width : option Z)
  : result (Graph * t) :=
  let model_width := or_default model_width Constant.MODEL_WIDTH in
  let? r := build (input_shape self) (
      temp_input_channel <- lift (item_last (input_shape self)) ;;
      let output_node_id := 0%nat in
      output_node_id <-
        add_layer (StubConv (conv self) temp_input_channel model_width 3
                            None None None) [output_node_id] ;;
      output_node_id <-
        add_layer (StubBatchNormalization (batch_norm self) model_width)
                  [output_node_id] ;;
      '(output_node_id, self) <- _make_layer self model_width 2 output_node_id 1 ;;
      let model_width := model_width * 2 in
      '(output_node_id, self) <- _make_layer self model_width 2 output_node_id 2 ;;
      let model_width := model_width * 2 in
      '(output_node_id, self) <- _make_layer self model_width 2 output_node_id 2 ;;
      let model_width := model_width * 2 in
      '(output_node_id, self) <- _make_layer self model_width 2 output_node_id 2 ;;
      output_node_id <-
        add_layer (StubGlobalPooling (global_avg_pooling self)) [output_node_id] ;;
      _ <- add_layer (StubDense (model_width * block_expansion self)
                                (n_output_node self)) [output_node_id] ;;
      ret self) in
  Ok (snd r, fst r).

End Generate.
End ResNetGenerator.

Module DenseNetGenerator.

Record t : Type := mk {
  n_output_node : Z;
  input_shape : Shape;
  num_init_features : Z;
  growth_rate : Z;
  block_config : list Z;
  bn_size : Z;
  drop_rate : Z;
  n_dim : Z;
  conv : Dim;
  dropout : Dim;
  global_avg_pooling : Dim;
  adaptive_avg_pooling : Dim;
  max_pooling : Dim;
  avg_pooling : Dim;
  batch_norm : Dim
}.

Definition __init__ (n_output_node : Z) (input_shape : Shape) : result t :=
  let num_init_features := 64 in
  let growth_rate := 32 in
  let block_config := [6; 12; 24; 16] in
  let bn_size := 4 in
  let drop_rate := 0 in
  let n_dim := len input_shape - 1 in
  let? conv := get_conv_class n_dim in
  let? dropout := get_dropout_class n_dim in
  let? global_avg_pooling := get_global_avg_pooling_class n_dim in
  let? adaptive_avg_pooling := get_global_avg_pooling_class n_dim in
  let? max_pooling := get_pooling_class n_dim in
  let? avg_pooling := get_avg_pooling_class n_dim in
  let? batch_norm := get_batch_norm_class n_dim in
  Ok (mk n_output_node input_shape num_init_features growth_rate block_config
         bn_size drop_rate n_dim conv dropout global_avg_pooling
         adaptive_avg_pooling max_pooling avg_pooling batch_norm).

Section Generate.
Context {rules : ShapeRules}.

Definition _dense_layer (self : t) (num_input_features growth_rate bn_size drop_rate : Z)
    (input_node_id : nat) : M nat :=
  out <- add_layer (StubBatchNormalization (batch_norm self) num_input_features)
                   [input_node_id] ;;
  out <- add_layer StubReLU [out] ;;
  out <- add_layer (StubConv (conv self) num_input_features (bn_size * growth_rate) 1
                             (Some 1) None None) [out] ;;
  out <- add_layer (StubBatchNormalization (batch_norm self) (bn_size * growth_rate))
                   [out] ;;
  out <- add_layer StubReLU [out] ;;
  out <- add_layer (StubConv (conv self) (bn_size * growth_rate) growth_rate 3
                             (Some 1) (Some 1) None) [out] ;;
  out <- add_layer (StubDropout (dropout self) (RateNum drop_rate)) [out] ;;
  out <- add_layer StubConcatenate [input_node_id; out] ;;
  ret out.

Definition _dense_block (self : t)
    (num_layers num_input_features bn_size growth_rate drop_rate : Z)
    (input_node_id : nat) : M nat :=
  let block_input_node := input_node_id in
  for_each (range num_layers) block_input_node
    (fun i block_input_node =>
       _dense_layer self (num_input_features + i * growth_rate) growth_rate
                    bn_size drop_rate block_input_node).

Definition _transition (self : t) (num_input_features num_output_features : Z)
    (input_node_id : nat) : M nat :=
  out <- add_layer (StubBatchNormalization (batch_norm self) num_input_features)
                   [input_node_id] ;;
  out <- add_layer StubReLU [out] ;;
  out <- add_layer (StubConv (conv self) num_input_features num_output_features 1
                             (Some 1) None None) [out] ;;
  out <- add_layer (StubAvgPooling (avg_pooling self) (Some 2) (Some 2) None) [out] ;;
  ret out.

(** The body of the loop over [enumerate(self.block_config)]; the loop
    carries [db_input_node_id] and [num_features]. *)
Definition generate_step (self : t) (block : Z * Z) (carried : nat * Z)
  : M (nat * Z) :=
  let '(i, num_layers) := block in
  let '(db_input_node_id, num_features) := carried in
  db_input_node_id <-
    _dense_block self num_layers num_features (bn_size self) (growth_rate self)
                 (drop_rate self) db_input_node_id ;;
  let num_features := num_features + num_layers * growth_rate self in
  if negb (i =? len (block_config self) - 1)
  then
    db_input_node_id <-
      _transition self num_features (num_features / 2) db_input_node_id ;;
    let num_features := num_features / 2 in
    ret (db_input_node_id, num_features)
  else ret (db_input_node_id, num_features).

Definition generate (self : t) (model_len model_width : option Z) : result Graph :=
  let model_len := or_default model_len Constant.MODEL_LEN in
  let model_width := or_default model_width Constant.MODEL_WIDTH in
  build_graph (input_shape self) (
      temp_input_channel <- lift (item_last (input_shape self)) ;;
      let output_node_id := 0%nat in
      output_node_id <-
        add_layer (StubConv (conv self) temp_input_channel model_width 7
                            None None None) [output_node_id] ;;
      output_node_id <-
        add_layer (StubBatchNormalization (batch_norm self) (num_init_features self))
                  [output_node_id] ;;
      output_node_id <- add_layer StubReLU [output_node_id] ;;
      db_input_node_id <-
        add_layer (StubPooling (max_pooling self) (Some 3) (Some 2) (Some 1))
                  [output_node_id] ;;
      let num_features := num_init_features self in
      '(db_input_node_id, num_features) <-
        for_each (enumerate (block_config self)) (db_input_node_id, num_features)
          (generate_step self) ;;
      out <- add_layer (StubBatchNormalization (batch_norm self) num_features)
                       [db_input_node_id] ;;
      out <- add_layer StubReLU [out] ;;
      out <- add_layer (StubGlobalPooling (adaptive_avg_pooling self)) [out] ;;
      _ <- add_layer (StubDense num_features (n_output_node self)) [out] ;;
      ret tt).

End Generate.
End DenseNetGenerator.

Module MobileNetV2Generator.

Record t : Type := mk {
  n_output_node : Z;
  input_shape : Shape;
  cfg : list (Z * Z * Z * Z);
  in_planes : Z;
  block_expansion : Z;
  n_dim : Z;
  conv : Dim;
  dropout : Dim;
  global_avg_pooling : Dim;
  adaptive_avg_pooling : Dim;
  batch_norm : Dim
}.

(** [self.in_planes = v] *)
Definition set_in_planes (self : t) (v : Z) : t :=
  mk (n_output_node self) (input_shape self) (cfg self) v (block_expansion self)
     (n_dim self) (conv self) (dropout self) (global_avg_pooling self)
     (adaptive_avg_pooling self) (batch_norm self).

Definition __init__ (n_output_node : Z) (input_shape : Shape) : result t :=
  let cfg := [(1, 16, 1, 1); (6, 24, 2, 1)] in
  let in_planes := 32 in
  let block_expansion := 1 in
  let n_dim := len input_shape - 1 in
  if len input_shape >? 4 then Err InvalidInputRank
  else if len input_shape <? 2 then Err InvalidInputRank
  else
    let? conv := get_conv_class n_dim in
    let? dropout := get_dropout_class n_dim in
    let? global_avg_pooling := get_global_avg_pooling_class n_dim in
    let? adaptive_avg_pooling := get_global_avg_pooling_class n_dim in
    let? batch_norm := get_batch_norm_class n_dim in
    Ok (mk n_output_node input_shape cfg in_planes block_expansion n_dim conv
           dropout global_avg_pooling adaptive_avg_pooling batch_norm).

Section Generate.
Context {rules : ShapeRules}.

(** [self.batch_norm(graph.node_list[node_id].shape[-1])] appended to
    [node_id]. *)
Definition add_batch_norm (self : t) (node_id : nat) : M nat :=
  shape <- node_shape node_id ;;
  channels <- lift (item_last shape) ;;
  add_layer (StubBatchNormalization (batch_norm self) channels) [node_id].

Definition _make_block (self : t) (in_planes out_planes expansion : Z)
    (node_id : nat) (stride : Z) : M nat :=
  let planes := expansion * in_planes in
  output_node_id <-
    add_layer (StubConv (conv self) in_planes planes 1 (Some 1) (Some 0) None)
              [node_id] ;;
  output_node_id <- add_batch_norm self output_node_id ;;
  output_node_id <- add_layer StubReLU [output_node_id] ;;
  output_node_id <-
    add_layer (StubConv (conv self) planes planes 3 (Some stride) (Some 1)
                        (Some planes)) [output_node_id] ;;
  output_node_id <- add_batch_norm self output_node_id ;;
  output_node_id <- add_layer StubReLU [output_node_id] ;;
  output_node_id <-
    add_layer (StubConv (conv self) planes out_planes 1 (Some 1) (Some 0) None)
              [output_node_id] ;;
  output_node_id <- add_batch_norm self output_node_id ;;
  if (stride =? 1) && negb (in_planes =? out_planes)
  then
    let shortcut_node_id := node_id in
    shortcut_node_id <-
      add_layer (StubConv (conv self) in_planes out_planes 1 (Some 1) (Some 0) None)
                [shortcut_node_id] ;;
    shortcut_node_id <- add_batch_norm self shortcut_node_id ;;
    output_node_id <- add_layer StubAdd [output_node_id; shortcut_node_id] ;;
    ret output_node_id
  else ret output_node_id.

(** The inner loop of [_make_layer], over the strides of one stage. *)
Definition _make_layer_block (out_planes expansion : Z) (stride : Z)
    (carried : nat * t) : M (nat * t) :=
  let '(out, self) := carried in
  out <- _make_block self (in_planes self) out_planes expansion out stride ;;
  let self := set_in_planes self out_planes in
  ret (out, self).

(** The outer loop of [_make_layer], over the stage table. *)
Definition _make_layer_stage (stage : Z * Z * Z * Z) (carried : nat * t)
  : M (nat * t) :=
  let '(expansion, out_planes, num_blocks, stride) := stage in
  let strides := [stride] ++ repeat 1 (Z.to_nat (num_blocks - 1)) in
  for_each strides carried (_make_layer_block out_planes expansion).

Definition _make_layer (self : t) (node_id : nat) : M (nat * t) :=
  let out := node_id in
  for_each (cfg self) (out, self) _make_layer_stage.

(** [generate] returns the graph; the generator it leaves behind is
    returned next to it. *)
Definition generate (self : t) (model_len model_width : option Z)
  : result (Graph * t) :=
  let? r := build (input_shape self) (
      temp_input_channel <- lift (item_last (input_shape self)) ;;
      let output_node_id := 0%nat in
      let out_planes := 24 in
      output_node_id <-
        add_layer (StubConv (conv self) temp_input_channel (in_planes self) 3
                            (Some 1) (Some 1) None) [output_node_id] ;;
      output_node_id <- add_batch_norm self output_node_id ;;
      output_node_id <- add_layer StubReLU [output_node_id] ;;
      '(output_node_id, self) <- _make_layer self output_node_id ;;
      output_node_id <-
        add_layer (StubConv (conv self) out_planes (out_planes * 4) 1
                            (Some 1) (Some 0) None) [output_node_id] ;;
      output_node_id <- add_batch_norm self output_node_id ;;
      output_node_id <- add_layer StubReLU [output_node_id] ;;
      output_node_id <-
        add_layer (StubGlobalPooling (global_avg_pooling self)) [output_node_id] ;;
      _ <- add_layer (StubDense (out_planes * 4) (n_output_node self))
                     [output_node_id] ;;
      ret self) in
  Ok (snd r, fst r).

End Generate.
End MobileNetV2Generator.

(** One concrete rule for the spatial extents, the usual arithmetic of
    convolution and pooling, with the usual values for a stride, padding or
    kernel size that is left out.  It is used to run the generators on
    concrete inputs. *)
Definition conv_arithmetic : ShapeRules :=
  {| spatial_dim := fun layer d =>
       match layer with
       | StubConv _ _ _ kernel_size stride padding _ =>
           let stride := or_default stride 1 in
           let padding := or_default padding (Z.quot kernel_size 2) in
           Z.quot (d + 2 * padding - kernel_size) stride + 1
       | StubPooling _ kernel_size stride padding
       | StubAvgPooling _ kernel_size stride padding =>
           let kernel_size := or_default kernel_size 2 in
           let padding := or_default padding 0 in
           Z.max (Z.quot (d + 2 * padding) kernel_size) 1
       | _ => d
       end |}.

(** ** Reading a finished graph *)

Definition size (graph : Graph) : nat := length (node_list graph).

(** The shape of the node created last. *)
Definition final_node_shape (graph : Graph) : Shape := last (node_list graph) [].

(** The operator descriptors in the order they were appended. *)
Definition operators (graph : Graph) : list Layer :=
  map (fun e : Edge => fst (fst e)) (layer_list graph).

Definition shape_at (graph : Graph) (node_id : nat) (s : Shape) : Prop :=
  nth_error (node_list graph) node_id = Some s.

(** The graph ends with a dense layer of the given sizes: the last node
    has the shape of its output and the last operator is its descriptor. *)
Definition ends_with_dense (input_units units : Z) (graph : Graph) : Prop :=
  final_node_shape graph = [units]
  /\ last (operators graph) StubReLU = StubDense input_units units.

(** ** Reasoning about generations *)

(** Every node has a channel dimension. *)
Definition good (graph : Graph) : Prop :=
  Forall (fun s : Shape => s <> []) (node_list graph).

(** The graph only grows: nodes and operators are appended. *)
Definition extends (g g' : Graph) : Prop :=
  exists ns ls,
    node_list g' = node_list g ++ ns /\ layer_list g' = layer_list g ++ ls.

(** [m], started on [g], returns normally with a result and a graph that
    satisfy [Q]; the graph it leaves is good and extends [g]. *)
Definition runs {A : Type} (m : M A) (g : Graph) (Q : A -> Graph -> Prop) : Prop :=
  exists a g', m g = Ok (a, g') /\ good g' /\ extends g g' /\ Q a g'.

(** The graph after [add_layer] appended a node of shape [s]. *)
Definition push (g : Graph) (layer : Layer) (ids : list nat) (s : Shape) : Graph :=
  {| node_list := node_list g ++ [s];
     layer_list := layer_list g ++ [(layer, ids, size g)] |}.

(** The number of predecessors a layer accepts. *)
Definition arity_ok (layer : Layer) (ids : list nat) : bool :=
  match layer, ids with
  | StubAdd, [_; _] => true
  | StubAdd, _ => false
  | StubConcatenate, _ :: _ => true
  | StubConcatenate, [] => false
  | _, [_] => true
  | _, _ => false
  end.

(** The operators appended between a graph and one that extends it. *)
Definition new_edges (g g' : Graph) : list Edge :=
  skipn (length (layer_list g)) (layer_list g').

Definition is_add (e : Edge) : bool :=
  match fst (fst e) with
  | StubAdd => true
  | _ => false
  end.

(** The elementwise-add nodes appended between [g] and [g']. *)
Definition add_edges (g g' : Graph) : list Edge := filter is_add (new_edges g g').

(** The graph of a generation that also returns the generator. *)
Definition graph_of {T : Type} (r : result (Graph * T)) : result Graph :=
  let? p := r in Ok (fst p).

(** Construction succeeds, generation on the constructed generator
    succeeds, the last operator of the graph is a dense layer to the output
    cardinality, and the output cardinality is the last dimension of the
    last node of the graph. *)
Definition generates {G : Type} (init : result G) (generate : G -> result Graph)
    (n_output_node : Z) : Prop :=
  exists self g,
    init = Ok self /\ generate self = Ok g
    /\ (exists input_units,
          last (operators g) StubReLU = StubDense input_units n_output_node)
    /\ item_last (final_node_shape g) = Ok n_output_node.

(** The widths of the hidden layers of the MLP, when [generate] accepts
    its arguments. *)
Definition widths (model_len : option Z) (model_width : option Width)
  : result (list Z) :=
  let model_len := or_default model_len Constant.MODEL_LEN in
  match model_width with
  | None => Ok (repeat Constant.MODEL_WIDTH (Z.to_nat model_len))
  | Some (WidthInt w) => Ok (repeat w (Z.to_nat model_len))
  | Some (WidthList ws) =>
      if len ws =? model_len then Ok ws else Err WidthLengthMismatch
  end.

(** A list of widths given to the MLP generator has as many entries as
    there are layers. *)
Definition width_fits (model_len : option Z) (model_width : option Width) : Prop :=
  match model_width with
  | Some (WidthList ws) => len ws = or_default model_len Constant.MODEL_LEN
  | _ => True
  end.

(** What the loops of [MobileNetV2Generator._make_layer] keep: the
    frontier is a node of the graph, and the generator changes in its
    [in_planes] only. *)
Definition layer_inv (self : MobileNetV2Generator.t)
    (r : nat * MobileNetV2Generator.t) (g : Graph) : Prop :=
  (fst r < size g)%nat
  /\ exists v, snd r = MobileNetV2Generator.set_in_planes self v.

(** The convolutions of an inverted-residual block of stride 1, kernel 1
    without padding and kernel 3 with padding 1, leave a spatial extent as
    it is. *)
Definition same_padding_keeps_extent (rules : ShapeRules) : Prop :=
  (forall d input_channel filters groups x,
      spatial_dim (StubConv d input_channel filters 1 (Some 1) (Some 0) groups) x = x)
  /\ (forall d input_channel filters groups x,
        spatial_dim (StubConv d input_channel filters 3 (Some 1) (Some 1) groups) x
        = x).

(** Generators to run blocks on, as their constructors build them for the
    input shape (32, 32, 3) and 10 outputs. *)
Definition sample_mobilenet : MobileNetV2Generator.t :=
  MobileNetV2Generator.mk 10 [32; 32; 3] [(1, 16, 1, 1); (6, 24, 2, 1)] 32 1 2
    Dim2d Dim2d Dim2d Dim2d Dim2d.

Definition sample_densenet : DenseNetGenerator.t :=
  DenseNetGenerator.mk 10 [32; 32; 3] 64 32 [6; 12; 24; 16] 4 0 2
    Dim2d Dim2d Dim2d Dim2d Dim2d Dim2d Dim2d.

(** ** Declared and actual channel counts *)

(** The operator stands on a node that has the channels it declares: a
    normalization or a convolution on a node whose last dimension is the
    declared count, a dense layer on the flat node of the declared size.
    The other operators declare nothing about their input. *)
Definition edge_wired (g : Graph) (e : Edge) : Prop :=
  match e with
  | (StubBatchNormalization _ num_features, ids, _) =>
      exists i sp, ids = [i] /\ shape_at g i (sp ++ [num_features])
  | (StubConv _ input_channel _ _ _ _ _, ids, _) =>
      exists i sp, ids = [i] /\ shape_at g i (sp ++ [input_channel])
  | (StubDense input_units _, ids, _) =>
      exists i, ids = [i] /\ shape_at g i [input_units]
  | _ => True
  end.

(** Every operator of the graph stands on a node with the channels it
    declares. *)
Definition wired (g : Graph) : Prop := Forall (edge_wired g) (layer_list g).

(** ** The operators of a plain CNN *)

(** What iteration [i] (from 0) of the loop of [CnnGenerator.generate]
    appends: activation, normalization and convolution over the channels of
    the frontier, which are those of the input in the first iteration and
    the width afterwards, and a pooling when the depth is below 4 or when
    [i + 1] is a multiple of a quarter of the depth and not the depth
    itself. *)
Definition cnn_iteration (self : CnnGenerator.t)
    (input_channel model_len model_width i : Z) : list Layer :=
  let channels := if i =? 0 then input_channel else model_width in
  [StubReLU;
   StubBatchNormalization (CnnGenerator.batch_norm self) channels;
   StubConv (CnnGenerator.conv self) channels model_width 3 (Some 1) None None]
  ++ (if (model_len <? 4)
         || (((i + 1) mod (model_len / 4) =? 0) && (i + 1 <? model_len))
      then [StubPooling (CnnGenerator.pooling self) None None None]
      else []).

(** What [CnnGenerator.generate] appends after its loop. *)
Definition cnn_head (self : CnnGenerator.t)
    (input_channel model_len model_width : Z) : list Layer :=
  let channels := if model_len <=? 0 then input_channel else model_width in
  [StubGlobalPooling (CnnGenerator.global_avg_pooling self);
   StubDropout (CnnGenerator.dropout self) CONV_DROPOUT_RATE;
   StubDense channels model_width;
   StubReLU;
   StubDense model_width (CnnGenerator.n_output_node self)].

(** What the loop of [CnnGenerator.generate] keeps: the graph is wired, the frontier
    has the channels that the loop carries, and the operators are those of
    the iterations done. *)
Definition cnn_loop_inv (self : CnnGenerator.t) (input_channel model_len model_width : Z)
    (rest : list Z) (carried : nat * Z) (g : Graph) : Prop :=
  wired g
  /\ (exists sp, shape_at g (fst carried) (sp ++ [snd carried]))
  /\ exists front,
      range model_len = front ++ rest
      /\ snd carried = (if len front =? 0 then input_channel else model_width)
      /\ operators g
         = flat_map (cnn_iteration self input_channel model_len model_width) front.

Definition is_pooling (layer : Layer) : bool :=
  match layer with
  | StubPooling _ _ _ _ => true
  | _ => false
  end.

(** Iteration [i] (from 0) of the loop of [CnnGenerator.generate] ends with
    a pooling. *)
Definition cnn_pooling_due (model_len i : Z) : bool :=
  (model_len <? 4) || (((i + 1) mod (model_len / 4) =? 0) && (i + 1 <? model_len)).

(** The number of pooling operators of a plain CNN of the given depth. *)
Definition cnn_poolings (model_len : Z) : Z :=
  if model_len <? 4 then Z.max 0 model_len
  else (model_len - 1) / (model_len / 4).

(** ** The operators of an MLP *)

(** The chain of dense layers from [prev] units through the widths [ws] to
    [n] outputs, a dropout and an activation after each hidden layer. *)
Fixpoint mlp_operators (prev : Z) (ws : list Z) (n : Z) : list Layer :=
  match ws with
  | [] => [StubDense prev n]
  | w :: ws' =>
      [StubDense prev w; StubDropout1d MLP_DROPOUT_RATE; StubReLU]
      ++ mlp_operators w ws' n
  end.

(** What the loop of [MlpGenerator.generate] keeps: the graph is wired, the
    frontier is the flat node of the size that the loop carries, and the
    operators so far are the start of the chain. *)
Definition mlp_loop_inv (input_units : Z) (ws : list Z) (n : Z)
    (rest : list Z) (carried : nat * Z) (g : Graph) : Prop :=
  wired g
  /\ shape_at g (fst carried) [snd carried]
  /\ operators g ++ mlp_operators (snd carried) rest n
     = mlp_operators input_units ws n.

(** ** Construction with a rank check *)

(** What a constructor that checks the rank of the input shape returns:
    a generator with the fields [built] for a shape of rank 2, 3 or 4, and
    the failure [InvalidInputRank] for every other shape. *)
Definition checked_rank {G : Type} (init : result G) (shape : Shape)
    (built : G -> Prop) : Prop :=
  if (2 <=? len shape) && (len shape <=? 4)
  then exists self, init = Ok self /\ built self
  else init = Err InvalidInputRank.

(** ** Generators to run on *)

(** The generators that the constructors build for the input shape
    (32, 32, 3), or (8,) for the MLP, and 10 outputs. *)
Definition sample_cnn : CnnGenerator.t :=
  CnnGenerator.mk 10 [32; 32; 3] 2 Dim2d Dim2d Dim2d Dim2d Dim2d.

Definition sample_mlp : MlpGenerator.t := MlpGenerator.mk 10 [8].

Definition sample_resnet : ResNetGenerator.t :=
  ResNetGenerator.mk 10 [32; 32; 3] 64 1 2 Dim2d Dim2d Dim2d Dim2d Dim2d.

(** ** The running counters of the DenseNet and MobileNetV2 generators *)

(** What one round of the loop of [DenseNetGenerator.generate] makes of
    [num_features]: the features of the block are added, and the sum is
    halved when a transition follows the block. *)
Definition densenet_round (self : DenseNetGenerator.t) (num_features : Z)
    (block : Z * Z) : Z :=
  let '(i, num_layers) := block in
  let num_features := num_features + num_layers * DenseNetGenerator.growth_rate self in
  if negb (i =? len (DenseNetGenerator.block_config self) - 1)
  then num_features / 2
  else num_features.

(** [num_features] after the loop of [DenseNetGenerator.generate]. *)
Definition densenet_final_features (self : DenseNetGenerator.t) : Z :=
  fold_left (densenet_round self) (enumerate (DenseNetGenerator.block_config self))
            (DenseNetGenerator.num_init_features self).

(** [self.in_planes] after the loops of [MobileNetV2Generator._make_layer]
    over the stages [cfg]: the [out_planes] of the last stage. *)
Definition mobilenet_planes_after (cfg : list (Z * Z * Z * Z)) (in_planes : Z) : Z :=
  fold_left (fun _ stage => let '(_, out_planes, _, _) := stage in out_planes)
            cfg in_planes.

(** * Proofs *)

Lemma item_last_snoc (l : Shape) (c : Z) : item_last (l ++ [c]) = Ok c.
Proof.
  induction l as [|x l IH]; [reflexivity|].
  simpl. destruct (l ++ [c]) eqn:E; [destruct l; discriminate|exact IH].
Qed.

Lemma item_last_ok (s : Shape) : s <> [] -> exists c, item_last s = Ok c.
Proof.
  intros H. destruct (exists_last H) as [l [c ->]].
  exists c. apply item_last_snoc.
Qed.

Lemma item_first_ok (s : Shape) : s <> [] -> exists c, item_first s = Ok c.
Proof. destruct s; [congruence|]. intros _. eexists. reflexivity. Qed.

Lemma snoc_not_nil {A : Type} (l : list A) (x : A) : l ++ [x] <> [].
Proof. destruct l; discriminate. Qed.

Lemma extends_refl g : extends g g.
Proof. exists [], []. now rewrite !app_nil_r. Qed.

Lemma extends_trans g1 g2 g3 : extends g1 g2 -> extends g2 g3 -> extends g1 g3.
Proof.
  intros (n1 & l1 & Hn1 & Hl1) (n2 & l2 & Hn2 & Hl2).
  exists (n1 ++ n2), (l1 ++ l2).
  rewrite Hn2, Hn1, Hl2, Hl1, !app_assoc. auto.
Qed.

Lemma extends_size g g' : extends g g' -> (size g <= size g')%nat.
Proof.
  intros (ns & ls & Hn & _). unfold size. rewrite Hn, length_app. lia.
Qed.

Lemma extends_shape_at g g' i s : extends g g' -> shape_at g i s -> shape_at g' i s.
Proof.
  intros (ns & ls & Hn & _) H. unfold shape_at in *. rewrite Hn.
  rewrite nth_error_app1; [exact H|].
  apply nth_error_Some. congruence.
Qed.

Lemma extends_push g layer ids s : extends g (push g layer ids s).
Proof. exists [s], [(layer, ids, size g)]. auto. Qed.

Lemma size_push g layer ids s : size (push g layer ids s) = S (size g).
Proof. unfold size, push. simpl. rewrite length_app. simpl. lia. Qed.

Lemma shape_at_push g layer ids s : shape_at (push g layer ids s) (size g) s.
Proof.
  unfold shape_at, push, size. simpl.
  rewrite nth_error_app2, Nat.sub_diag; [reflexivity|lia].
Qed.

Lemma final_node_shape_push g layer ids s :
  final_node_shape (push g layer ids s) = s.
Proof. unfold final_node_shape, push. simpl. apply last_last. Qed.

Lemma good_push g layer ids s : good g -> s <> [] -> good (push g layer ids s).
Proof.
  intros Hg Hs. unfold good, push. simpl.
  apply Forall_app. split; [exact Hg|]. constructor; auto.
Qed.

Lemma good_new_graph input_shape weighted :
  input_shape <> [] -> good (new_graph input_shape weighted).
Proof. intros H. constructor; auto. Qed.

Lemma good_shape_at g i s : good g -> shape_at g i s -> s <> [].
Proof.
  unfold good, shape_at. intros Hg H.
  rewrite Forall_forall in Hg. apply Hg. eapply nth_error_In. exact H.
Qed.

Lemma shape_at_exists g i : (i < size g)%nat -> exists s, shape_at g i s.
Proof.
  intros H. unfold shape_at.
  destruct (nth_error (node_list g) i) eqn:E; [eauto|].
  apply nth_error_None in E. unfold size in H. lia.
Qed.

Lemma shape_at_size g i s : shape_at g i s -> (i < size g)%nat.
Proof. intros H. apply nth_error_Some. unfold shape_at in H. congruence. Qed.

Section Runs.
Context {rules : ShapeRules}.

Lemma sum_channels_ok (ss : list Shape) :
  Forall (fun s : Shape => s <> []) ss -> exists c, sum_channels ss = Ok c.
Proof.
  induction 1 as [|s ss Hs _ [r IH]]; [eexists; reflexivity|].
  destruct (item_last_ok s Hs) as [c Hc].
  exists (c + r). simpl. rewrite Hc. simpl. rewrite IH. reflexivity.
Qed.

(** A layer applied to as many shapes as it accepts, each of them with a
    channel dimension, has an output shape, which has a channel dimension. *)
Lemma output_shape_ok (layer : Layer) (ids : list nat) (ss : list Shape) :
  arity_ok layer ids = true ->
  length ss = length ids ->
  Forall (fun s : Shape => s <> []) ss ->
  exists s, output_shape layer ss = Ok s /\ s <> [].
Proof.
  intros Ha Hl Hs.
  destruct layer; simpl in Ha;
    destruct ids as [|i [|j [|k ids]]]; try discriminate;
    destruct ss as [|s1 [|s2 [|s3 ss]]]; try discriminate;
    try (inversion Hs as [|? ? Hs1 Hs']; subst;
         destruct (item_last_ok s1 Hs1) as [c Hc]);
    try (simpl; eexists; split; [reflexivity|];
         first [apply snoc_not_nil | discriminate | assumption]);
    try (simpl; rewrite Hc; simpl; eexists; split; [reflexivity|];
         first [apply snoc_not_nil | discriminate]).
  all: destruct (sum_channels_ok _ Hs) as [t Ht];
    unfold output_shape; rewrite Ht; simpl;
    eexists; (split; [reflexivity|apply snoc_not_nil]).
Qed.

Lemma node_shapes_spec (ids : list nat) (g : Graph) :
  Forall (fun i => (i < size g)%nat) ids ->
  exists ss, node_shapes ids g = Ok (ss, g) /\ Forall2 (shape_at g) ids ss.
Proof.
  induction 1 as [|i ids Hi _ [ss [IH1 IH2]]].
  - exists []. split; [reflexivity|constructor].
  - destruct (shape_at_exists g i Hi) as [s Hs].
    exists (s :: ss). split; [|constructor; auto].
    simpl. unfold bind, node_shape. unfold shape_at in Hs. rewrite Hs.
    rewrite IH1. reflexivity.
Qed.

Lemma runs_ret {A : Type} (a : A) (g : Graph) (Q : A -> Graph -> Prop) :
  good g -> Q a g -> runs (ret a) g Q.
Proof. intros Hg HQ. exists a, g. auto using extends_refl. Qed.

Lemma runs_bind {A B : Type} (m : M A) (k : A -> M B) (g : Graph)
    (Q : B -> Graph -> Prop) :
  runs m g (fun a g1 => runs (k a) g1 Q) -> runs (bind m k) g Q.
Proof.
  intros (a & g1 & Hm & _ & E1 & (b & g2 & Hk & Hg2 & E2 & HQ)).
  exists b, g2. unfold bind. rewrite Hm.
  eauto using extends_trans.
Qed.

Lemma runs_weaken {A : Type} (m : M A) (g : Graph) (Q Q' : A -> Graph -> Prop) :
  runs m g Q -> (forall a g', good g' -> extends g g' -> Q a g' -> Q' a g') ->
  runs m g Q'.
Proof. intros (a & g' & Hm & Hg & E & HQ) H. exists a, g'. auto. Qed.

Lemma runs_lift {A : Type} (r : result A) (a : A) (g : Graph)
    (Q : A -> Graph -> Prop) :
  r = Ok a -> good g -> Q a g -> runs (lift r) g Q.
Proof.
  intros -> Hg HQ. exists a, g. auto using extends_refl.
Qed.

Lemma runs_node_shape (i : nat) (g : Graph) (Q : Shape -> Graph -> Prop) :
  good g -> (i < size g)%nat ->
  (forall s, shape_at g i s -> s <> [] -> Q s g) ->
  runs (node_shape i) g Q.
Proof.
  intros Hg Hi HQ. destruct (shape_at_exists g i Hi) as [s Hs].
  exists s, g. unfold node_shape. unfold shape_at in Hs. rewrite Hs.
  repeat split; auto using extends_refl.
  apply HQ; [exact Hs|]. eapply good_shape_at; eauto.
Qed.

(** [add_layer] on existing predecessors returns the next id and pushes a
    node whose shape is the output shape of the layer. *)
Lemma runs_add_layer (layer : Layer) (ids : list nat) (g : Graph)
    (Q : nat -> Graph -> Prop) :
  good g ->
  Forall (fun i => (i < size g)%nat) ids ->
  arity_ok layer ids = true ->
  (forall ss s,
      Forall2 (shape_at g) ids ss -> output_shape layer ss = Ok s ->
      good (push g layer ids s) -> Q (size g) (push g layer ids s)) ->
  runs (add_layer layer ids) g Q.
Proof.
  intros Hg Hids Ha HQ.
  destruct (node_shapes_spec ids g Hids) as [ss [Hss Hat]].
  assert (Hne : Forall (fun s : Shape => s <> []) ss).
  { clear - Hg Hat. induction Hat; constructor; eauto using good_shape_at. }
  destruct (output_shape_ok layer ids ss Ha) as [s [Hs Hsne]]; auto.
  { symmetry. eapply Forall2_length. exact Hat. }
  exists (size g), (push g layer ids s).
  unfold add_layer, bind, lift. rewrite Hss, Hs.
  repeat split; auto using good_push, extends_push.
  eapply HQ; eauto using good_push.
Qed.

(** A loop runs when its body maintains an invariant, which may depend on
    the iterations still to come. *)
Lemma runs_for_each {A S : Type} (body : A -> S -> M S)
    (Inv : list A -> S -> Graph -> Prop) :
  (forall x rest s g, good g -> Inv (x :: rest) s g ->
                      runs (body x s) g (Inv rest)) ->
  forall xs s g, good g -> Inv xs s g -> runs (for_each xs s body) g (Inv []).
Proof.
  intros Hbody xs. induction xs as [|x xs IH]; intros s g Hg HI.
  - apply runs_ret; auto.
  - simpl. apply runs_bind.
    eapply runs_weaken; [apply Hbody; eauto|].
    intros s' g' Hg' _ HI'. apply IH; auto.
Qed.

End Runs.

Section RunsSteps.
Context {rules : ShapeRules}.

(** [runs_add_layer] with the new graph abstracted to what is known
    about it. *)
Lemma runs_add_layer_facts (layer : Layer) (ids : list nat) (g : Graph)
    (Q : nat -> Graph -> Prop) :
  good g ->
  Forall (fun i => (i < size g)%nat) ids ->
  arity_ok layer ids = true ->
  (forall g1 ss s,
      Forall2 (shape_at g) ids ss -> output_shape layer ss = Ok s ->
      good g1 -> extends g g1 -> size g1 = S (size g) ->
      shape_at g1 (size g) s ->
      final_node_shape g1 = s ->
      layer_list g1 = layer_list g ++ [(layer, ids, size g)] ->
      Q (size g) g1) ->
  runs (add_layer layer ids) g Q.
Proof.
  intros Hg Hids Ha HQ. apply runs_add_layer; auto.
  intros ss s Hat Hs Hg1.
  eapply HQ; eauto using extends_push, size_push, shape_at_push,
    final_node_shape_push.
Qed.

Lemma output_shape_dense (P : nat -> Shape -> Prop) (i : nat) (ss : list Shape)
    (input_units units : Z) (s : Shape) :
  Forall2 P [i] ss -> output_shape (StubDense input_units units) ss = Ok s ->
  s = [units].
Proof.
  intros H. inversion H as [|? x ? l' _ H']; subst. inversion H'; subst.
  simpl. congruence.
Qed.

Lemma operators_snoc (g g1 : Graph) (e : Edge) :
  layer_list g1 = layer_list g ++ [e] ->
  last (operators g1) StubReLU = fst (fst e).
Proof.
  intros H. unfold operators. rewrite H, map_app. simpl. apply last_last.
Qed.

Lemma runs_final_dense (input_units units : Z) (node_id : nat) (g : Graph)
    (Q : nat -> Graph -> Prop) :
  good g -> (node_id < size g)%nat ->
  (forall g1, good g1 -> ends_with_dense input_units units g1 -> Q (size g) g1) ->
  runs (add_layer (StubDense input_units units) [node_id]) g Q.
Proof.
  intros Hg Hid HQ. apply runs_add_layer_facts; auto.
  intros g1 ss s Hat Hs Hg1 _ _ _ Hf Hl. apply HQ; auto. split.
  - rewrite Hf. exact (output_shape_dense _ _ _ _ _ _ Hat Hs).
  - exact (operators_snoc _ _ _ Hl).
Qed.

(** A finished generation returns what its statements leave behind. *)
Lemma build_runs {A : Type} (input_shape : Shape) (m : M A)
    (Q : A -> Graph -> Prop) :
  runs m (new_graph input_shape false) Q ->
  exists a g, build input_shape m = Ok (a, g) /\ Q a g.
Proof.
  intros (a & g & Hm & _ & _ & HQ). exists a, g. auto.
Qed.

Lemma build_graph_runs {A : Type} (input_shape : Shape) (m : M A)
    (Q : Graph -> Prop) :
  runs m (new_graph input_shape false) (fun _ g => Q g) ->
  exists g, build_graph input_shape m = Ok g /\ Q g.
Proof.
  intros (a & g & Hm & _ & _ & HQ). exists g.
  unfold build_graph, build. rewrite Hm. auto.
Qed.

End RunsSteps.

(** One statement of a generator: the premises of the rule are closed with
    the facts at hand, and the facts about the new graph are introduced. *)
Ltac close_ids := repeat constructor; lia.

Ltac step_add :=
  apply runs_bind; apply runs_add_layer_facts;
  [ assumption | close_ids | reflexivity
  | let g1 := fresh "g" in
    let ss := fresh "ss" in
    let s := fresh "s" in
    let Hat := fresh "Hat" in
    let Hs := fresh "Hs" in
    let Hg := fresh "Hg" in
    let He := fresh "He" in
    let Hn := fresh "Hn" in
    let Hl := fresh "Hl" in
    intros g1 ss s Hat Hs Hg He Hn _ _ _; clear Hat Hs ].

(** [shape <- node_shape id ;; channels <- lift (item_last shape)] *)
Ltac step_channels :=
  apply runs_bind; apply runs_node_shape;
  [ assumption | lia
  | let s := fresh "s" in
    let Hne := fresh "Hne" in
    let c := fresh "c" in
    let Hc := fresh "Hc" in
    intros s _ Hne;
    destruct (item_last_ok s Hne) as [c Hc];
    apply runs_bind; apply (runs_lift _ c); [exact Hc | assumption | ];
    clear Hc Hne ].

Ltac step_first :=
  apply runs_bind; apply runs_node_shape;
  [ assumption | lia
  | let s := fresh "s" in
    let Hne := fresh "Hne" in
    let c := fresh "c" in
    let Hc := fresh "Hc" in
    intros s _ Hne;
    destruct (item_first_ok s Hne) as [c Hc];
    apply runs_bind; apply (runs_lift _ c); [exact Hc | assumption | ];
    clear Hc Hne ].

(** The last statement of every generator: the final dense layer. *)
Ltac step_final_dense :=
  apply runs_bind; apply runs_final_dense;
  [ assumption | lia
  | let g1 := fresh "g" in
    let Hg := fresh "Hg" in
    let Hd := fresh "Hd" in
    intros g1 Hg Hd; apply runs_ret; [assumption|] ].

Section CnnRuns.
Context {rules : ShapeRules}.
Import CnnGenerator.

Lemma cnn_generate_step_runs (self : t) (model_len model_width pooling_len stride i : Z)
    (carried : nat * Z) (g : Graph) :
  good g -> (fst carried < size g)%nat ->
  runs (generate_step self model_len model_width pooling_len stride i carried) g
       (fun r g' => (fst r < size g')%nat).
Proof.
  destruct carried as [out c]. simpl. intros Hg Hout.
  step_add. step_channels. step_add. step_add.
  destruct (_ || _).
  - step_add. apply runs_ret; [assumption|simpl; lia].
  - apply runs_ret; [assumption|simpl; lia].
Qed.

Lemma cnn_generate_runs (self : t) (model_len model_width : option Z) :
  input_shape self <> [] ->
  exists g, generate self model_len model_width = Ok g
            /\ ends_with_dense (or_default model_width Constant.MODEL_WIDTH)
                               (n_output_node self) g.
Proof.
  intros Hne. unfold generate. apply build_graph_runs.
  pose proof (good_new_graph _ false Hne) as Hg.
  destruct (item_last_ok _ Hne) as [c Hc].
  apply runs_bind. apply (runs_lift _ c); [exact Hc|assumption|].
  apply runs_bind.
  eapply runs_weaken.
  - apply (runs_for_each _ (fun _ r g' => (fst r < size g')%nat)).
    + intros x rest s g Hg' Hs. apply cnn_generate_step_runs; assumption.
    + assumption.
    + simpl. unfold size. simpl. lia.
  - intros [out c'] g Hg' _ Hout. simpl in Hout.
    step_add. step_add. step_first. step_add. step_add. step_final_dense.
    assumption.
Qed.

End CnnRuns.

Section MlpRuns.
Context {rules : ShapeRules}.
Import MlpGenerator.

Lemma mlp_generate_step_runs (width : Z) (carried : nat * Z) (g : Graph) :
  good g -> (fst carried < size g)%nat ->
  runs (generate_step width carried) g (fun r g' => (fst r < size g')%nat).
Proof.
  destruct carried as [out c]. simpl. intros Hg Hout.
  step_add. step_add. step_add.
  apply runs_ret; [assumption|simpl; lia].
Qed.

Lemma mlp_generate_widths_err (self : t) (model_len : option Z)
    (model_width : option Width) (e : error) :
  widths model_len model_width = Err e ->
  generate self model_len model_width = Err e.
Proof.
  unfold widths, generate.
  destruct model_width as [[w|ws]|]; try discriminate.
  destruct (len ws =? _); simpl; congruence.
Qed.

Lemma mlp_generate_runs (self : t) (model_len : option Z)
    (model_width : option Width) (ws : list Z) :
  input_shape self <> [] ->
  widths model_len model_width = Ok ws ->
  exists g, generate self model_len model_width = Ok g
            /\ exists input_units, ends_with_dense input_units (n_output_node self) g.
Proof.
  intros Hne Hw. unfold generate.
  assert (E : (match
                 match model_width with
                 | Some w => w
                 | None => WidthInt Constant.MODEL_WIDTH
                 end
               with
               | WidthInt w =>
                   Ok (repeat w (Z.to_nat (or_default model_len Constant.MODEL_LEN)))
               | WidthList ws0 =>
                   if negb (len ws0 =? or_default model_len Constant.MODEL_LEN)
                   then Err WidthLengthMismatch
                   else Ok ws0
               end) = Ok ws).
  { unfold widths in Hw. destruct model_width as [[w|ws0]|]; auto.
    destruct (len ws0 =? _); simpl; congruence. }
  rewrite E. simpl.
  pose proof (good_new_graph _ false Hne) as Hg.
  destruct (item_first_ok _ Hne) as [c Hc].
  cut (exists g, build_graph (input_shape self)
         (n_nodes_prev_layer <- lift (item_first (input_shape self)) ;;
          ' (output_node_id, n_nodes_prev_layer0) <-
            for_each ws (0%nat, n_nodes_prev_layer) generate_step ;;
          _ <- add_layer (StubDense n_nodes_prev_layer0 (n_output_node self))
                         [output_node_id] ;;
          ret tt) = Ok g
        /\ exists input_units, ends_with_dense input_units (n_output_node self) g).
  { auto. }
  apply build_graph_runs.
  apply runs_bind. apply (runs_lift _ c); [exact Hc|assumption|].
  apply runs_bind.
  eapply runs_weaken.
  - apply (runs_for_each _ (fun _ r g' => (fst r < size g')%nat)).
    + intros x rest s g Hg' Hs. apply mlp_generate_step_runs; assumption.
    + assumption.
    + simpl. unfold size. simpl. lia.
  - intros [out c'] g Hg' _ Hout. simpl in Hout.
    step_final_dense. eauto.
Qed.

End MlpRuns.

Section ResNetRuns.
Context {rules : ShapeRules}.
Import ResNetGenerator.

Lemma resnet_make_block_runs (self : t) (in_planes planes : Z) (node_id : nat)
    (stride : Z) (g : Graph) :
  good g -> (node_id < size g)%nat ->
  runs (_make_block self in_planes planes node_id stride) g
       (fun out g' => (out < size g')%nat).
Proof.
  intros Hg Hid. unfold _make_block.
  step_add. step_add. cbv zeta.
  step_add. step_add. step_add. step_add. step_add. step_add. step_add.
  apply runs_ret; [assumption|lia].
Qed.

Lemma resnet_make_layer_step_runs (planes current_stride : Z) (out : nat)
    (self : t) (g : Graph) :
  good g -> (out < size g)%nat ->
  runs (_make_layer_step planes current_stride (out, self)) g
       (fun r g' => (fst r < size g')%nat
                    /\ snd r = set_in_planes self (planes * block_expansion self)).
Proof.
  intros Hg Hout. unfold _make_layer_step.
  apply runs_bind. eapply runs_weaken; [apply resnet_make_block_runs; assumption|].
  intros out' g' Hg' _ Hout'. apply runs_ret; auto.
Qed.

(** A stage leaves the generator with [in_planes] set to the planes of the
    stage, whatever it was before. *)
Lemma resnet_make_layer_runs (self : t) (planes blocks : Z) (node_id : nat)
    (stride : Z) (g : Graph) :
  good g -> (node_id < size g)%nat ->
  runs (_make_layer self planes blocks node_id stride) g
       (fun r g' => (fst r < size g')%nat
                    /\ snd r = set_in_planes self (planes * block_expansion self)).
Proof.
  intros Hg Hid. unfold _make_layer. simpl.
  apply runs_bind.
  eapply runs_weaken; [apply resnet_make_layer_step_runs; assumption|].
  intros [out self1] g1 Hg1 _ [Hout Hself]. simpl in Hout, Hself. subst self1.
  apply (runs_for_each _
           (fun _ r g' =>
              (fst r < size g')%nat
              /\ snd r = set_in_planes self (planes * block_expansion self)));
    [|assumption|simpl; auto].
  intros x rest [out' self'] g' Hg' [Hout' Hself']. simpl in Hout', Hself'.
  subst self'.
  eapply runs_weaken; [apply resnet_make_layer_step_runs; assumption|].
  intros r g'' _ _ [H1 H2]. split; [exact H1|]. rewrite H2. reflexivity.
Qed.

(** After a generation the generator holds eight times the width as its
    [in_planes], and the graph ends with the dense layer that maps eight
    times the width to the outputs. *)
Lemma resnet_generate_runs (self : t) (model_len model_width : option Z) :
  input_shape self <> [] ->
  let width := or_default model_width Constant.MODEL_WIDTH in
  exists g self',
    generate self model_len model_width = Ok (g, self')
    /\ ends_with_dense (width * 2 * 2 * 2 * block_expansion self)
                       (n_output_node self) g
    /\ self' = set_in_planes self (width * 2 * 2 * 2 * block_expansion self).
Proof.
  intros Hne width. unfold generate. fold width.
  pose proof (good_new_graph _ false Hne) as Hg.
  destruct (item_last_ok _ Hne) as [c Hc].
  match goal with
  | |- context [build ?s ?m] =>
      destruct (build_runs s m
                  (fun self' g =>
                     ends_with_dense (width * 2 * 2 * 2 * block_expansion self)
                                     (n_output_node self) g
                     /\ self' = set_in_planes self
                                  (width * 2 * 2 * 2 * block_expansion self)))
        as (self' & g & Hb & HQ)
  end.
  2:{ exists g, self'. rewrite Hb. simpl. destruct HQ. auto. }
  apply runs_bind. apply (runs_lift _ c); [exact Hc|assumption|].
  cbv zeta. step_add. step_add.
  apply runs_bind.
  eapply runs_weaken; [apply resnet_make_layer_runs; [assumption|lia]|].
  intros [out1 self1] g3 Hg3 _ [Hout1 Hself1]. simpl in Hout1, Hself1.
  apply runs_bind.
  eapply runs_weaken; [apply resnet_make_layer_runs; [assumption|lia]|].
  intros [out2 self2] g4 Hg4 _ [Hout2 Hself2]. simpl in Hout2, Hself2.
  apply runs_bind.
  eapply runs_weaken; [apply resnet_make_layer_runs; [assumption|lia]|].
  intros [out3 self3] g5 Hg5 _ [Hout3 Hself3]. simpl in Hout3, Hself3.
  apply runs_bind.
  eapply runs_weaken; [apply resnet_make_layer_runs; [assumption|lia]|].
  intros [out4 self4] g6 Hg6 _ [Hout4 Hself4]. simpl in Hout4, Hself4.
  subst self1 self2 self3 self4. simpl.
  step_add. step_final_dense. split; [assumption|reflexivity].
Qed.

End ResNetRuns.

Section DenseNetRuns.
Context {rules : ShapeRules}.
Import DenseNetGenerator.

Lemma densenet_dense_layer_runs (self : t)
    (num_input_features growth_rate bn_size drop_rate : Z) (input_node_id : nat)
    (g : Graph) :
  good g -> (input_node_id < size g)%nat ->
  runs (_dense_layer self num_input_features growth_rate bn_size drop_rate
                     input_node_id) g
       (fun out g' => (out < size g')%nat).
Proof.
  intros Hg Hid. unfold _dense_layer.
  step_add. step_add. step_add. step_add. step_add. step_add. step_add. step_add.
  apply runs_ret; [assumption|lia].
Qed.

Lemma densenet_dense_block_runs (self : t)
    (num_layers num_input_features bn_size growth_rate drop_rate : Z)
    (input_node_id : nat) (g : Graph) :
  good g -> (input_node_id < size g)%nat ->
  runs (_dense_block self num_layers num_input_features bn_size growth_rate
                     drop_rate input_node_id) g
       (fun out g' => (out < size g')%nat).
Proof.
  intros Hg Hid. unfold _dense_block.
  apply (runs_for_each _ (fun _ out g' => (out < size g')%nat)); auto.
  intros i rest out g' Hg' Hout.
  apply densenet_dense_layer_runs; assumption.
Qed.

Lemma densenet_transition_runs (self : t)
    (num_input_features num_output_features : Z) (input_node_id : nat)
    (g : Graph) :
  good g -> (input_node_id < size g)%nat ->
  runs (_transition self num_input_features num_output_features input_node_id) g
       (fun out g' => (out < size g')%nat).
Proof.
  intros Hg Hid. unfold _transition.
  step_add. step_add. step_add. step_add.
  apply runs_ret; [assumption|lia].
Qed.

Lemma densenet_generate_step_runs (self : t) (block : Z * Z) (carried : nat * Z)
    (g : Graph) :
  good g -> (fst carried < size g)%nat ->
  runs (generate_step self block carried) g (fun r g' => (fst r < size g')%nat).
Proof.
  destruct block as [i num_layers], carried as [id num_features]. simpl.
  intros Hg Hid.
  apply runs_bind.
  eapply runs_weaken; [apply densenet_dense_block_runs; assumption|].
  intros out g1 Hg1 _ Hout. cbv beta zeta.
  destruct (negb _).
  - apply runs_bind.
    eapply runs_weaken; [apply densenet_transition_runs; assumption|].
    intros out' g2 Hg2 _ Hout'. apply runs_ret; auto.
  - apply runs_ret; auto.
Qed.

(** A generation runs, starts with the convolution of kernel 7 and the
    normalization over [num_init_features], and ends with the dense layer
    to the outputs. *)
Lemma densenet_generate_runs (self : t) (model_len model_width : option Z) :
  input_shape self <> [] ->
  exists g,
    generate self model_len model_width = Ok g
    /\ (exists input_units, ends_with_dense input_units (n_output_node self) g)
    /\ exists c rest,
         item_last (input_shape self) = Ok c
         /\ operators g
            = StubConv (conv self) c (or_default model_width Constant.MODEL_WIDTH)
                       7 None None None
                :: StubBatchNormalization (batch_norm self) (num_init_features self)
                :: rest.
Proof.
  intros Hne. unfold generate.
  pose proof (good_new_graph _ false Hne) as Hg.
  destruct (item_last_ok _ Hne) as [c Hc].
  match goal with
  | |- context [build_graph ?s ?m] =>
      destruct (build_graph_runs s m
        (fun g =>
           (exists input_units, ends_with_dense input_units (n_output_node self) g)
           /\ exists rest,
                operators g
                = StubConv (conv self) c
                           (or_default model_width Constant.MODEL_WIDTH)
                           7 None None None
                    :: StubBatchNormalization (batch_norm self)
                                              (num_init_features self)
                    :: rest)) as (g & Hb & Hd & rest & Hops)
  end.
  2:{ exists g. split; [exact Hb|]. split; [exact Hd|]. eauto. }
  apply runs_bind. apply (runs_lift _ c); [exact Hc|assumption|].
  cbv zeta.
  apply runs_bind. apply runs_add_layer_facts;
    [assumption|close_ids|reflexivity|].
  intros g1 ss1 s1 _ _ Hg1 _ Hn1 _ _ Hl1.
  apply runs_bind. apply runs_add_layer_facts;
    [assumption|close_ids|reflexivity|].
  intros g2 ss2 s2 _ _ Hg2 _ Hn2 _ _ Hl2.
  rewrite Hl1 in Hl2. simpl in Hl2.
  apply (runs_weaken _ _
           (fun _ g' =>
              exists input_units, ends_with_dense input_units (n_output_node self) g')).
  - step_add. step_add.
    apply runs_bind.
    eapply runs_weaken.
    + apply (runs_for_each _ (fun _ r g' => (fst r < size g')%nat)).
      * intros x rest r g' Hg' Hr. apply densenet_generate_step_runs; assumption.
      * assumption.
      * simpl. lia.
    + intros [out nf] g' Hg' _ Hout. simpl in Hout.
      step_add. step_add. step_add. step_final_dense. eauto.
  - intros _ g' _ (ns & ls & _ & Hls) Hd. split; [exact Hd|].
    exists (map (fun e : Edge => fst (fst e)) ls).
    unfold operators. rewrite Hls, Hl2. reflexivity.
Qed.

End DenseNetRuns.

Section MobileNetRuns.
Context {rules : ShapeRules}.
Import MobileNetV2Generator.

Lemma runs_add_batch_norm (self : t) (node_id : nat) (g : Graph)
    (Q : nat -> Graph -> Prop) :
  good g -> (node_id < size g)%nat ->
  (forall g1, good g1 -> extends g g1 -> size g1 = S (size g) -> Q (size g) g1) ->
  runs (add_batch_norm self node_id) g Q.
Proof.
  intros Hg Hid HQ. unfold add_batch_norm.
  step_channels.
  apply runs_add_layer_facts; [assumption|close_ids|reflexivity|].
  intros g1 ss s' _ _ Hg1 He Hn _ _ _. auto.
Qed.

End MobileNetRuns.

Ltac step_bn :=
  apply runs_bind; apply runs_add_batch_norm;
  [ assumption | lia
  | let g1 := fresh "g" in
    let Hg := fresh "Hg" in
    let Hn := fresh "Hn" in
    intros g1 Hg _ Hn ].

Section MobileNetGenerateRuns.
Context {rules : ShapeRules}.
Import MobileNetV2Generator.

Lemma mobilenet_make_block_runs (self : t) (in_planes out_planes expansion : Z)
    (node_id : nat) (stride : Z) (g : Graph) :
  good g -> (node_id < size g)%nat ->
  runs (_make_block self in_planes out_planes expansion node_id stride) g
       (fun out g' => (out < size g')%nat).
Proof.
  intros Hg Hid. unfold _make_block. cbv zeta.
  step_add. step_bn. step_add. step_add. step_bn. step_add. step_add. step_bn.
  destruct (_ && _).
  - step_add. step_bn. step_add. apply runs_ret; [assumption|lia].
  - apply runs_ret; [assumption|lia].
Qed.

Lemma mobilenet_make_layer_block_runs (self : t) (out_planes expansion stride : Z)
    (carried : nat * t) (g : Graph) :
  good g -> layer_inv self carried g ->
  runs (_make_layer_block out_planes expansion stride carried) g (layer_inv self).
Proof.
  destruct carried as [out self']. intros Hg [Hout [v Hv]]. simpl in Hout, Hv.
  unfold _make_layer_block.
  apply runs_bind.
  eapply runs_weaken; [apply mobilenet_make_block_runs; assumption|].
  intros out' g' Hg' _ Hout'. apply runs_ret; [assumption|].
  split; [exact Hout'|]. exists out_planes. subst self'. reflexivity.
Qed.

Lemma mobilenet_make_layer_stage_runs (self : t) (stage : Z * Z * Z * Z)
    (carried : nat * t) (g : Graph) :
  good g -> layer_inv self carried g ->
  runs (_make_layer_stage stage carried) g (layer_inv self).
Proof.
  destruct stage as [[[expansion out_planes] num_blocks] stride].
  intros Hg Hinv. unfold _make_layer_stage.
  apply (runs_for_each _ (fun _ => layer_inv self)); auto.
  intros x rest r g' Hg' Hr. apply mobilenet_make_layer_block_runs; assumption.
Qed.

Lemma mobilenet_make_layer_runs (self : t) (node_id : nat) (g : Graph) :
  good g -> (node_id < size g)%nat ->
  runs (_make_layer self node_id) g (layer_inv self).
Proof.
  intros Hg Hid. unfold _make_layer.
  apply (runs_for_each _ (fun _ => layer_inv self)); auto.
  - intros x rest r g' Hg' Hr. apply mobilenet_make_layer_stage_runs; assumption.
  - split; [exact Hid|]. exists (in_planes self). destruct self. reflexivity.
Qed.

Lemma mobilenet_generate_runs (self : t) (model_len model_width : option Z) :
  input_shape self <> [] ->
  exists g self',
    generate self model_len model_width = Ok (g, self')
    /\ ends_with_dense (24 * 4) (n_output_node self) g.
Proof.
  intros Hne. unfold generate.
  pose proof (good_new_graph _ false Hne) as Hg.
  destruct (item_last_ok _ Hne) as [c Hc].
  match goal with
  | |- context [build ?s ?m] =>
      destruct (build_runs s m
                  (fun _ g => ends_with_dense (24 * 4) (n_output_node self) g))
        as (self' & g & Hb & HQ)
  end.
  2:{ exists g, self'. rewrite Hb. simpl. auto. }
  apply runs_bind. apply (runs_lift _ c); [exact Hc|assumption|].
  cbv zeta. step_add. step_bn. step_add.
  apply runs_bind.
  eapply runs_weaken; [apply mobilenet_make_layer_runs; [assumption|lia]|].
  intros [out self1] g4 Hg4 _ [Hout [v Hv]]. simpl in Hout, Hv. subst self1.
  step_add. step_bn. step_add. step_add. step_final_dense. assumption.
Qed.

End MobileNetGenerateRuns.

(** ** Following the shapes through a block *)

Section Exact.
Context {rules : ShapeRules}.

Lemma node_shapes_exact (ids : list nat) (ss : list Shape) (g : Graph) :
  Forall2 (shape_at g) ids ss -> node_shapes ids g = Ok (ss, g).
Proof.
  induction 1 as [|i s ids ss Hi _ IH]; [reflexivity|].
  simpl. unfold bind, node_shape. unfold shape_at in Hi. rewrite Hi, IH.
  reflexivity.
Qed.

(** [add_layer] when the shapes of the predecessors are known. *)
Lemma runs_add_layer_exact (layer : Layer) (ids : list nat) (ss : list Shape)
    (s : Shape) (g : Graph) (Q : nat -> Graph -> Prop) :
  good g ->
  Forall2 (shape_at g) ids ss ->
  output_shape layer ss = Ok s ->
  s <> [] ->
  (forall g1,
      good g1 -> extends g g1 -> size g1 = S (size g) ->
      shape_at g1 (size g) s ->
      layer_list g1 = layer_list g ++ [(layer, ids, size g)] ->
      Q (size g) g1) ->
  runs (add_layer layer ids) g Q.
Proof.
  intros Hg Hat Hs Hne HQ.
  exists (size g), (push g layer ids s).
  unfold add_layer, bind, lift. rewrite (node_shapes_exact _ _ _ Hat), Hs.
  repeat split; auto using good_push, extends_push.
  apply HQ; auto using good_push, extends_push, size_push, shape_at_push.
Qed.

Lemma runs_node_shape_exact (i : nat) (s : Shape) (g : Graph)
    (Q : Shape -> Graph -> Prop) :
  good g -> shape_at g i s -> Q s g -> runs (node_shape i) g Q.
Proof.
  intros Hg Hs HQ. exists s, g. unfold node_shape.
  unfold shape_at in Hs. rewrite Hs. auto using extends_refl.
Qed.

Lemma spatial_shape_snoc (layer : Layer) (sp : list Z) (c channels : Z) :
  spatial_shape layer (sp ++ [c]) channels
  = map (spatial_dim layer) sp ++ [channels].
Proof. unfold spatial_shape. rewrite removelast_last. reflexivity. Qed.

End Exact.

Lemma skipn_app_length {A : Type} (l l' : list A) : skipn (length l) (l ++ l') = l'.
Proof. induction l; simpl; auto. Qed.

(** Moves what is known about the shapes of [g] to the graph that extends
    it. *)
Ltac transport He :=
  match type of He with
  | extends ?g ?g1 =>
      repeat match goal with
             | H : shape_at g _ _ |- _ => apply (extends_shape_at g g1 _ _ He) in H
             end
  end.

Ltac collect_layers Hl :=
  match type of Hl with
  | layer_list _ = layer_list ?g ++ _ =>
      try match goal with
          | HL : layer_list g = _ |- _ => rewrite HL in Hl; clear HL
          end
  end.

Ltac solve_output_shape :=
  cbn [output_shape sum_channels];
  rewrite ?item_last_snoc; cbn [bindR];
  rewrite ?item_last_snoc; cbn [bindR];
  rewrite ?spatial_shape_snoc, ?removelast_last;
  reflexivity.

Ltac step_exact :=
  apply runs_bind; eapply runs_add_layer_exact;
  [ assumption
  | repeat (apply Forall2_cons; [eassumption|]); apply Forall2_nil
  | solve_output_shape
  | first [apply snoc_not_nil | discriminate]
  | let g1 := fresh "g" in
    let Hg := fresh "Hg" in
    let He := fresh "He" in
    let Hn := fresh "Hn" in
    let Hat := fresh "Hat" in
    let Hl := fresh "Hl" in
    intros g1 Hg He Hn Hat Hl; transport He; clear He; collect_layers Hl;
    rewrite ?spatial_shape_snoc, ?removelast_last in Hat ].

Section DenseNetShapes.
Context {rules : ShapeRules}.
Import DenseNetGenerator.

(** A dense layer keeps the spatial extents of its input and adds
    [growth_rate] channels to it. *)
Lemma densenet_dense_layer_shape (self : t)
    (num_input_features growth_rate bn_size drop_rate : Z) (input_node_id : nat)
    (g : Graph) (sp : list Z) (c : Z) :
  good g -> shape_at g input_node_id (sp ++ [c]) ->
  runs (_dense_layer self num_input_features growth_rate bn_size drop_rate
                     input_node_id) g
       (fun out g' => shape_at g' out (sp ++ [c + growth_rate])).
Proof.
  intros Hg Hid. unfold _dense_layer.
  step_exact. step_exact. step_exact. step_exact. step_exact. step_exact.
  step_exact. step_exact.
  apply runs_ret; [assumption|].
  rewrite Z.add_0_r in *. assumption.
Qed.

Lemma len_range (n : Z) : 0 <= n -> len (range n) = n.
Proof.
  intros H. unfold len, range. rewrite length_map, length_seq. lia.
Qed.

Lemma densenet_dense_block_shape (self : t)
    (num_layers num_input_features bn_size growth_rate drop_rate : Z)
    (input_node_id : nat) (g : Graph) (sp : list Z) (c : Z) :
  0 <= num_layers ->
  good g -> shape_at g input_node_id (sp ++ [c]) ->
  runs (_dense_block self num_layers num_input_features bn_size growth_rate
                     drop_rate input_node_id) g
       (fun out g' => shape_at g' out (sp ++ [c + num_layers * growth_rate])).
Proof.
  intros Hn Hg Hid. unfold _dense_block.
  eapply runs_weaken.
  - apply (runs_for_each _
             (fun rest out g' =>
                exists k, k + len rest = num_layers
                          /\ shape_at g' out (sp ++ [c + k * growth_rate]))).
    + intros i rest out g' Hg' (k & Hk & Hout).
      eapply runs_weaken;
        [apply (densenet_dense_layer_shape _ _ _ _ _ _ _ sp (c + k * growth_rate));
         assumption|].
      intros out' g'' _ _ Hout'. exists (k + 1). split.
      * unfold len in *. simpl length in Hk. lia.
      * replace (c + (k + 1) * growth_rate) with (c + k * growth_rate + growth_rate)
          by lia.
        exact Hout'.
    + assumption.
    + exists 0. split; [rewrite len_range; lia|].
      rewrite Z.mul_0_l, Z.add_0_r. exact Hid.
  - intros out g' _ _ (k & Hk & Hout). unfold len in Hk. simpl in Hk.
    replace num_layers with k by lia. exact Hout.
Qed.

Lemma densenet_transition_shape (self : t)
    (num_input_features num_output_features : Z) (input_node_id : nat)
    (g : Graph) (sp : list Z) (c : Z) :
  good g -> shape_at g input_node_id (sp ++ [c]) ->
  runs (_transition self num_input_features num_output_features input_node_id) g
       (fun out g' => exists sp', shape_at g' out (sp' ++ [num_output_features])).
Proof.
  intros Hg Hid. unfold _transition.
  step_exact. step_exact. step_exact. step_exact.
  apply runs_ret; [assumption|]. eauto.
Qed.

(** One round of the loop of [generate]: the dense block, and the
    transition when the block is not the last one. *)
Lemma densenet_generate_step_shape (self : t) (i num_layers num_features : Z)
    (db_input_node_id : nat) (g : Graph) (sp : list Z) (c : Z) :
  0 <= num_layers ->
  good g -> shape_at g db_input_node_id (sp ++ [c]) ->
  runs (generate_step self (i, num_layers) (db_input_node_id, num_features)) g
       (fun r g' =>
          if i =? len (block_config self) - 1
          then snd r = num_features + num_layers * growth_rate self
               /\ shape_at g' (fst r) (sp ++ [c + num_layers * growth_rate self])
          else snd r = (num_features + num_layers * growth_rate self) / 2
               /\ exists sp',
                    shape_at g' (fst r)
                      (sp' ++ [(num_features + num_layers * growth_rate self) / 2])).
Proof.
  intros Hn Hg Hid. unfold generate_step.
  apply runs_bind.
  eapply runs_weaken; [eapply densenet_dense_block_shape; eassumption|].
  intros out g1 Hg1 _ Hout. cbv beta in Hout. cbv beta zeta.
  destruct (i =? len (block_config self) - 1); simpl negb; cbv iota.
  - apply runs_ret; auto.
  - apply runs_bind.
    eapply runs_weaken; [eapply densenet_transition_shape; eassumption|].
    intros out' g2 Hg2 _ Hout'. apply runs_ret; auto.
Qed.

End DenseNetShapes.

Section MobileNetShapes.
Context {rules : ShapeRules}.
Import MobileNetV2Generator.

Lemma runs_add_batch_norm_exact (self : t) (node_id : nat) (sp : list Z) (c : Z)
    (g : Graph) (Q : nat -> Graph -> Prop) :
  good g -> shape_at g node_id (sp ++ [c]) ->
  (forall g1,
      good g1 -> extends g g1 -> size g1 = S (size g) ->
      shape_at g1 (size g) (sp ++ [c]) ->
      layer_list g1
      = layer_list g
          ++ [(StubBatchNormalization (batch_norm self) c, [node_id], size g)] ->
      Q (size g) g1) ->
  runs (add_batch_norm self node_id) g Q.
Proof.
  intros Hg Hid HQ. unfold add_batch_norm.
  apply runs_bind. apply (runs_node_shape_exact _ (sp ++ [c])); auto.
  apply runs_bind. apply (runs_lift _ c); auto using item_last_snoc.
  eapply runs_add_layer_exact; eauto.
  - reflexivity.
  - apply snoc_not_nil.
Qed.

End MobileNetShapes.

Ltac step_bn_exact :=
  apply runs_bind; eapply runs_add_batch_norm_exact;
  [ assumption | eassumption
  | let g1 := fresh "g" in
    let Hg := fresh "Hg" in
    let He := fresh "He" in
    let Hn := fresh "Hn" in
    let Hat := fresh "Hat" in
    let Hl := fresh "Hl" in
    intros g1 Hg He Hn Hat Hl; transport He; clear He; collect_layers Hl ].

Section MobileNetBlock.
Context {rules : ShapeRules}.
Import MobileNetV2Generator.

(** The residual addition of a block of stride 1: none when the channel
    count stays, one when it changes, and then of the end of the main
    branch and the end of the projection of the input of the block. *)
Lemma mobilenet_make_block_adds (self : t) (in_planes out_planes expansion : Z)
    (node_id : nat) (g : Graph) (sp : list Z) (c : Z) :
  good g -> shape_at g node_id (sp ++ [c]) ->
  let planes := expansion * in_planes in
  let expand := StubConv (conv self) in_planes planes 1 (Some 1) (Some 0) None in
  let depthwise :=
    StubConv (conv self) planes planes 3 (Some 1) (Some 1) (Some planes) in
  let project := StubConv (conv self) planes out_planes 1 (Some 1) (Some 0) None in
  let shortcut_conv :=
    StubConv (conv self) in_planes out_planes 1 (Some 1) (Some 0) None in
  runs (_make_block self in_planes out_planes expansion node_id 1) g
       (fun out g' =>
          if in_planes =? out_planes
          then add_edges g g' = []
          else exists compressed main projected shortcut,
              add_edges g g' = [(StubAdd, [main; shortcut], out)]
              /\ In (StubBatchNormalization (batch_norm self) out_planes,
                     [compressed], main) (new_edges g g')
              /\ In (shortcut_conv, [node_id], projected) (new_edges g g')
              /\ In (StubBatchNormalization (batch_norm self) out_planes,
                     [projected], shortcut) (new_edges g g')
              /\ shape_at g' main
                   (map (spatial_dim project)
                        (map (spatial_dim depthwise)
                             (map (spatial_dim expand) sp)) ++ [out_planes])
              /\ shape_at g' shortcut
                   (map (spatial_dim shortcut_conv) sp ++ [out_planes])).
Proof.
  intros Hg Hid planes expand depthwise project shortcut_conv.
  unfold _make_block. cbv zeta.
  fold planes. fold expand. fold depthwise. fold project. fold shortcut_conv.
  step_exact. step_bn_exact. step_exact. step_exact. step_bn_exact. step_exact.
  step_exact. step_bn_exact.
  change (1 =? 1) with true. cbn [andb].
  destruct (in_planes =? out_planes); cbn [negb].
  - apply runs_ret; [assumption|].
    unfold add_edges, new_edges.
    match goal with H : layer_list _ = _ |- _ => rewrite H end.
    rewrite <- !app_assoc, skipn_app_length. reflexivity.
  - step_exact. step_bn_exact. step_exact.
    apply runs_ret; [assumption|].
    assert (Hnew : new_edges g g10
                   = [(expand, [node_id], size g);
                      (StubBatchNormalization (batch_norm self) planes,
                       [size g], size g0);
                      (StubReLU, [size g0], size g1);
                      (depthwise, [size g1], size g2);
                      (StubBatchNormalization (batch_norm self) planes,
                       [size g2], size g3);
                      (StubReLU, [size g3], size g4);
                      (project, [size g4], size g5);
                      (StubBatchNormalization (batch_norm self) out_planes,
                       [size g5], size g6);
                      (shortcut_conv, [node_id], size g7);
                      (StubBatchNormalization (batch_norm self) out_planes,
                       [size g7], size g8);
                      (StubAdd, [size g6; size g8], size g9)]).
    { unfold new_edges.
      match goal with H : layer_list _ = _ |- _ => rewrite H end.
      rewrite <- !app_assoc, skipn_app_length. reflexivity. }
    exists (size g5), (size g6), (size g7), (size g8).
    unfold add_edges. rewrite Hnew.
    split; [reflexivity|].
    split; [simpl; tauto|].
    split; [simpl; tauto|].
    split; [simpl; tauto|].
    split; assumption.
Qed.

End MobileNetBlock.

(** ** Construction *)

Lemma rank_not_nil (shape : Shape) : 1 <= len shape -> shape <> [].
Proof. destruct shape; [unfold len; simpl; lia|discriminate]. Qed.

Ltac by_rank shape :=
  destruct shape as [|? [|? [|? [|? [|? ?]]]]];
  unfold len in *; simpl length in *; try lia.

Lemma cnn_init_ok (n : Z) (shape : Shape) :
  2 <= len shape <= 4 ->
  exists self, CnnGenerator.__init__ n shape = Ok self
               /\ CnnGenerator.input_shape self = shape
               /\ CnnGenerator.n_output_node self = n.
Proof. intros H. by_rank shape; eexists; repeat split; reflexivity. Qed.

Lemma mlp_init_ok (n : Z) (shape : Shape) :
  len shape = 1 ->
  exists self, MlpGenerator.__init__ n shape = Ok self
               /\ MlpGenerator.input_shape self = shape
               /\ MlpGenerator.n_output_node self = n.
Proof. intros H. by_rank shape; eexists; repeat split; reflexivity. Qed.

Lemma resnet_init_ok (n : Z) (shape : Shape) :
  2 <= len shape <= 4 ->
  exists self, ResNetGenerator.__init__ n shape = Ok self
               /\ ResNetGenerator.input_shape self = shape
               /\ ResNetGenerator.n_output_node self = n
               /\ ResNetGenerator.in_planes self = 64
               /\ ResNetGenerator.block_expansion self = 1.
Proof. intros H. by_rank shape; eexists; repeat split; reflexivity. Qed.

Lemma densenet_init_ok (n : Z) (shape : Shape) :
  2 <= len shape <= 4 ->
  exists self, DenseNetGenerator.__init__ n shape = Ok self
               /\ DenseNetGenerator.input_shape self = shape
               /\ DenseNetGenerator.n_output_node self = n
               /\ DenseNetGenerator.num_init_features self = 64.
Proof. intros H. by_rank shape; eexists; repeat split; reflexivity. Qed.

Lemma mobilenet_init_ok (n : Z) (shape : Shape) :
  2 <= len shape <= 4 ->
  exists self, MobileNetV2Generator.__init__ n shape = Ok self
               /\ MobileNetV2Generator.input_shape self = shape
               /\ MobileNetV2Generator.n_output_node self = n
               /\ MobileNetV2Generator.in_planes self = 32
               /\ MobileNetV2Generator.cfg self = [(1, 16, 1, 1); (6, 24, 2, 1)].
Proof. intros H. by_rank shape; eexists; repeat split; reflexivity. Qed.

(** The constructors with a rank check refuse a shape outside their
    range. *)
Lemma rank_checks (n : Z) (shape : Shape) :
  (len shape < 2 \/ 4 < len shape ->
   CnnGenerator.__init__ n shape = Err InvalidInputRank
   /\ ResNetGenerator.__init__ n shape = Err InvalidInputRank
   /\ MobileNetV2Generator.__init__ n shape = Err InvalidInputRank)
  /\ (1 < len shape -> MlpGenerator.__init__ n shape = Err InvalidInputRank).
Proof.
  split; intros H.
  - unfold CnnGenerator.__init__, ResNetGenerator.__init__,
      MobileNetV2Generator.__init__.
    destruct (len shape >? 4) eqn:E1; [auto|].
    destruct (len shape <? 2) eqn:E2; [auto|]. lia.
  - unfold MlpGenerator.__init__.
    destruct (len shape >? 1) eqn:E1; [auto|]. lia.
Qed.

Lemma sample_mobilenet_constructed :
  MobileNetV2Generator.__init__ 10 [32; 32; 3] = Ok sample_mobilenet.
Proof. reflexivity. Qed.

Lemma sample_densenet_constructed :
  DenseNetGenerator.__init__ 10 [32; 32; 3] = Ok sample_densenet.
Proof. reflexivity. Qed.

Lemma ends_with_dense_output (input_units units : Z) (g : Graph) :
  ends_with_dense input_units units g ->
  (exists input_units', last (operators g) StubReLU = StubDense input_units' units)
  /\ item_last (final_node_shape g) = Ok units.
Proof. intros [H1 H2]. rewrite H1. split; [eauto|reflexivity]. Qed.

Lemma width_fits_widths (model_len : option Z) (model_width : option Width) :
  width_fits model_len model_width ->
  exists ws, widths model_len model_width = Ok ws.
Proof.
  unfold width_fits, widths. destruct model_width as [[w|ws]|]; eauto.
  intros ->. rewrite Z.eqb_refl. eauto.
Qed.

Lemma map_fixed {A : Type} (f : A -> A) (l : list A) :
  (forall x, f x = x) -> map f l = l.
Proof. intros H. induction l; simpl; congruence. Qed.

Lemma conv_arithmetic_keeps_extent : same_padding_keeps_extent conv_arithmetic.
Proof.
  split; intros d input_channel filters groups x; simpl;
    rewrite !Z.quot_1_r; lia.
Qed.

(** ** The properties of the specification *)

(** C1: for every template and every supported input rank (2, 3 or 4 for
    the CNN, ResNet, DenseNet and MobileNetV2 generators, 1 for the MLP
    generator) and every depth and width (for the MLP generator, a list of
    widths has to have the length of the depth), constructing the generator
    and calling [generate] succeeds, and the last dimension of the shape of
    the last node of the graph is the output cardinality. *)
Theorem generate_reaches_output_cardinality
    (rules : ShapeRules) (n_output_node : Z) (input_shape flat_shape : Shape)
    (model_len model_width : option Z) (mlp_width : option Width) :
  2 <= len input_shape <= 4 ->
  len flat_shape = 1 ->
  width_fits model_len mlp_width ->
  generates (CnnGenerator.__init__ n_output_node input_shape)
            (fun self => CnnGenerator.generate self model_len model_width)
            n_output_node
  /\ generates (MlpGenerator.__init__ n_output_node flat_shape)
               (fun self => MlpGenerator.generate self model_len mlp_width)
               n_output_node
  /\ generates (ResNetGenerator.__init__ n_output_node input_shape)
               (fun self =>
                  graph_of (ResNetGenerator.generate self model_len model_width))
               n_output_node
  /\ generates (DenseNetGenerator.__init__ n_output_node input_shape)
               (fun self => DenseNetGenerator.generate self model_len model_width)
               n_output_node
  /\ generates (MobileNetV2Generator.__init__ n_output_node input_shape)
               (fun self =>
                  graph_of (MobileNetV2Generator.generate self model_len model_width))
               n_output_node.
Proof.
  intros Hrank Hflat Hw.
  assert (Hne : input_shape <> []) by (apply rank_not_nil; lia).
  assert (Hfne : flat_shape <> []) by (apply rank_not_nil; lia).
  repeat split.
  - destruct (cnn_init_ok n_output_node input_shape Hrank) as (self & Hi & Hs & Hn).
    rewrite <- Hs in Hne.
    destruct (cnn_generate_runs self model_len model_width Hne) as (g & Hg & Hd).
    exists self, g. rewrite Hn in Hd.
    split; [exact Hi|]. split; [exact Hg|]. eapply ends_with_dense_output; eauto.
  - destruct (mlp_init_ok n_output_node flat_shape Hflat) as (self & Hi & Hs & Hn).
    rewrite <- Hs in Hfne.
    destruct (width_fits_widths _ _ Hw) as [ws Hws].
    destruct (mlp_generate_runs self model_len mlp_width ws Hfne Hws)
      as (g & Hg & iu & Hd).
    exists self, g. rewrite Hn in Hd.
    split; [exact Hi|]. split; [exact Hg|]. eapply ends_with_dense_output; eauto.
  - destruct (resnet_init_ok n_output_node input_shape Hrank)
      as (self & Hi & Hs & Hn & _).
    rewrite <- Hs in Hne.
    destruct (resnet_generate_runs self model_len model_width Hne)
      as (g & self' & Hg & Hd & _).
    exists self, g. rewrite Hg, Hn in *.
    split; [exact Hi|]. split; [reflexivity|].
    eapply ends_with_dense_output; eauto.
  - destruct (densenet_init_ok n_output_node input_shape Hrank)
      as (self & Hi & Hs & Hn & _).
    rewrite <- Hs in Hne.
    destruct (densenet_generate_runs self model_len model_width Hne)
      as (g & Hg & (iu & Hd) & _).
    exists self, g. rewrite Hn in Hd.
    split; [exact Hi|]. split; [exact Hg|]. eapply ends_with_dense_output; eauto.
  - destruct (mobilenet_init_ok n_output_node input_shape Hrank)
      as (self & Hi & Hs & Hn & _).
    rewrite <- Hs in Hne.
    destruct (mobilenet_generate_runs self model_len model_width Hne)
      as (g & self' & Hg & Hd).
    exists self, g. rewrite Hg, Hn in *.
    split; [exact Hi|]. split; [reflexivity|].
    eapply ends_with_dense_output; eauto.
Qed.

(** The same for 10 outputs on the shapes (32, 32, 3) and (4,), depth 3,
    width 16 and the widths [8, 16, 32], under the usual arithmetic. *)
Lemma generate_reaches_output_cardinality_at_sample :
  (2 <= len [32; 32; 3] <= 4
   /\ len [4] = 1
   /\ width_fits (Some 3) (Some (WidthList [8; 16; 32])))
  /\ generates (CnnGenerator.__init__ 10 [32; 32; 3])
       (fun self =>
          CnnGenerator.generate (rules := conv_arithmetic) self (Some 3) (Some 16))
       10
  /\ generates (MlpGenerator.__init__ 10 [4])
       (fun self =>
          MlpGenerator.generate (rules := conv_arithmetic) self (Some 3)
                                (Some (WidthList [8; 16; 32])))
       10.
Proof.
  assert (H1 : 2 <= len [32; 32; 3] <= 4) by (unfold len; simpl; lia).
  assert (H2 : len [4] = 1) by reflexivity.
  assert (H3 : width_fits (Some 3) (Some (WidthList [8; 16; 32]))) by reflexivity.
  split; [auto|].
  destruct (generate_reaches_output_cardinality conv_arithmetic 10 [32; 32; 3] [4]
              (Some 3) (Some 16) (Some (WidthList [8; 16; 32])) H1 H2 H3)
    as (Hc & Hm & _).
  split; assumption.
Defined.

(** C2: the rank checks at construction.  The DenseNet constructor has
    none: it never ends in [InvalidInputRank], and a shape of rank 0 or 5
    only reaches the resolver.  The MLP constructor checks the upper bound
    only and accepts the shape of rank 0. *)
Theorem densenet_and_mlp_miss_rank_check :
  (forall n shape, DenseNetGenerator.__init__ n shape <> Err InvalidInputRank)
  /\ DenseNetGenerator.__init__ 10 [] = Err UnsupportedRank
  /\ DenseNetGenerator.__init__ 10 [1; 2; 3; 4; 5] = Err UnsupportedRank
  /\ MlpGenerator.__init__ 10 [] = Ok (MlpGenerator.mk 10 []).
Proof.
  repeat split.
  intros n shape. unfold DenseNetGenerator.__init__.
  unfold get_conv_class, get_dropout_class, get_global_avg_pooling_class,
    get_pooling_class, get_avg_pooling_class, get_batch_norm_class, resolve.
  destruct (len shape - 1 =? 1); [discriminate|].
  destruct (len shape - 1 =? 2); [discriminate|].
  destruct (len shape - 1 =? 3); discriminate.
Qed.

(** C3: calling [generate] twice on one freshly constructed generator.
    The ResNet generator leaves [in_planes] at 512 after the first call, so
    the first block of the second graph is declared over 512 channels where
    the first graph has 64; the MobileNetV2 generator leaves it at 24, so
    the second graph starts with 24 filters where the first has 32. *)
Theorem second_generate_differs (rules : ShapeRules) :
  (exists self g1 self1 g2 self2,
      ResNetGenerator.__init__ 10 [32; 32; 3] = Ok self
      /\ ResNetGenerator.generate self None None = Ok (g1, self1)
      /\ ResNetGenerator.generate self1 None None = Ok (g2, self2)
      /\ ResNetGenerator.in_planes self = 64
      /\ ResNetGenerator.in_planes self1 = 512
      /\ nth_error (operators g1) 2 = Some (StubBatchNormalization Dim2d 64)
      /\ nth_error (operators g2) 2 = Some (StubBatchNormalization Dim2d 512))
  /\ (exists self g1 self1 g2 self2,
         MobileNetV2Generator.__init__ 10 [32; 32; 3] = Ok self
         /\ MobileNetV2Generator.generate self None None = Ok (g1, self1)
         /\ MobileNetV2Generator.generate self1 None None = Ok (g2, self2)
         /\ MobileNetV2Generator.in_planes self = 32
         /\ MobileNetV2Generator.in_planes self1 = 24
         /\ nth_error (operators g1) 0
            = Some (StubConv Dim2d 3 32 3 (Some 1) (Some 1) None)
         /\ nth_error (operators g2) 0
            = Some (StubConv Dim2d 3 24 3 (Some 1) (Some 1) None)).
Proof.
  split; eexists _, _, _, _, _;
    (split; [reflexivity|]);
    (split; [vm_compute; reflexivity|]);
    (split; [vm_compute; reflexivity|]);
    repeat split; vm_compute; reflexivity.
Qed.

(** C4: an inverted-residual block of stride 1 appends no elementwise add
    when [in_planes] equals [out_planes], and exactly one when they differ;
    that add sums the end of the main branch (its last normalization) and
    the normalized 1x1 projection of the input of the block, and the two
    have the same shape, given that the convolutions of the block keep the
    spatial extents. *)
Theorem mobilenet_block_residual_add
    (rules : ShapeRules) (self : MobileNetV2Generator.t)
    (in_planes out_planes expansion : Z) (node_id : nat) (g : Graph) (s : Shape) :
  same_padding_keeps_extent rules ->
  good g -> shape_at g node_id s ->
  exists out g',
    MobileNetV2Generator._make_block self in_planes out_planes expansion node_id 1 g
    = Ok (out, g')
    /\ (in_planes = out_planes -> add_edges g g' = [])
    /\ (in_planes <> out_planes ->
        exists compressed main projected shortcut s',
          add_edges g g' = [(StubAdd, [main; shortcut], out)]
          /\ In (StubBatchNormalization (MobileNetV2Generator.batch_norm self)
                                        out_planes, [compressed], main)
                (new_edges g g')
          /\ In (StubConv (MobileNetV2Generator.conv self) in_planes out_planes 1
                          (Some 1) (Some 0) None, [node_id], projected)
                (new_edges g g')
          /\ In (StubBatchNormalization (MobileNetV2Generator.batch_norm self)
                                        out_planes, [projected], shortcut)
                (new_edges g g')
          /\ shape_at g' main s' /\ shape_at g' shortcut s').
Proof.
  intros [Hk1 Hk3] Hg Hs.
  destruct (exists_last (good_shape_at _ _ _ Hg Hs)) as [sp [c ->]].
  destruct (mobilenet_make_block_adds self in_planes out_planes expansion node_id
              g sp c Hg Hs) as (out & g' & Hrun & _ & _ & HQ).
  exists out, g'. split; [exact Hrun|].
  destruct (in_planes =? out_planes) eqn:E.
  - split; [auto|]. intros Hne. apply Z.eqb_eq in E. contradiction.
  - split; [intros Heq; apply Z.eqb_neq in E; contradiction|].
    intros _.
    destruct HQ as (compressed & main & projected & shortcut
                    & Ha & H0 & H1 & H2 & Hm & Hsc).
    exists compressed, main, projected, shortcut, (sp ++ [out_planes]).
    repeat split; auto.
    + rewrite !map_fixed in Hm by (intros x; first [apply Hk1 | apply Hk3]).
      exact Hm.
    + rewrite map_fixed in Hsc by (intros x; apply Hk1). exact Hsc.
Qed.

(** The same for the block from 16 to 24 channels with expansion 6 on a
    node of shape (32, 32, 16), under the usual arithmetic. *)
Lemma mobilenet_block_residual_add_at_sample :
  (same_padding_keeps_extent conv_arithmetic
   /\ good (new_graph [32; 32; 16] false)
   /\ shape_at (new_graph [32; 32; 16] false) 0 [32; 32; 16])
  /\ exists out g',
      MobileNetV2Generator._make_block (rules := conv_arithmetic) sample_mobilenet
        16 24 6 0%nat 1 (new_graph [32; 32; 16] false) = Ok (out, g')
      /\ exists main shortcut s',
          add_edges (new_graph [32; 32; 16] false) g'
          = [(StubAdd, [main; shortcut], out)]
          /\ shape_at g' main s' /\ shape_at g' shortcut s'.
Proof.
  assert (H1 : good (new_graph [32; 32; 16] false))
    by (apply good_new_graph; discriminate).
  assert (H2 : shape_at (new_graph [32; 32; 16] false) 0 [32; 32; 16])
    by reflexivity.
  split; [auto using conv_arithmetic_keeps_extent|].
  destruct (mobilenet_block_residual_add conv_arithmetic sample_mobilenet 16 24 6
              0%nat (new_graph [32; 32; 16] false) [32; 32; 16]
              conv_arithmetic_keeps_extent H1 H2)
    as (out & g' & Hrun & _ & Hadd).
  exists out, g'. split; [exact Hrun|].
  destruct Hadd as (_ & main & _ & shortcut & s' & Ha & _ & _ & _ & Hm & Hsc);
    [lia|].
  exists main, shortcut, s'. auto.
Defined.

(** C5: a dense block of [num_layers] dense layers on a node of
    [num_input_features] channels ends on a node of
    [num_input_features + num_layers * growth_rate] channels with the
    spatial extents of its input, each dense layer concatenating
    [growth_rate] channels to its own input; and in [generate] the running
    [num_features] after a block is the channel count of the node the round
    ends on: that sum after the last block, and after any other block, which
    a transition follows, half of it rounded down. *)
Theorem densenet_block_channels
    (rules : ShapeRules) (self : DenseNetGenerator.t)
    (num_layers num_input_features bn_size growth_rate drop_rate : Z)
    (input_node_id : nat) (g : Graph) (sp : list Z) :
  0 <= num_layers ->
  good g -> shape_at g input_node_id (sp ++ [num_input_features]) ->
  (exists out g',
      DenseNetGenerator._dense_block self num_layers num_input_features bn_size
        growth_rate drop_rate input_node_id g = Ok (out, g')
      /\ shape_at g' out (sp ++ [num_input_features + num_layers * growth_rate]))
  /\ (forall i,
      let total :=
        num_input_features + num_layers * DenseNetGenerator.growth_rate self in
      exists out num_features g' sp',
        DenseNetGenerator.generate_step self (i, num_layers)
          (input_node_id, num_input_features) g = Ok ((out, num_features), g')
        /\ shape_at g' out (sp' ++ [num_features])
        /\ (i = len (DenseNetGenerator.block_config self) - 1 ->
            num_features = total)
        /\ (i <> len (DenseNetGenerator.block_config self) - 1 ->
            num_features = total / 2
            /\ 2 * num_features <= total < 2 * num_features + 2)).
Proof.
  intros Hn Hg Hs. split.
  - destruct (densenet_dense_block_shape self num_layers num_input_features bn_size
                growth_rate drop_rate input_node_id g sp num_input_features
                Hn Hg Hs) as (out & g' & Hrun & _ & _ & HQ).
    eauto.
  - intros i total.
    destruct (densenet_generate_step_shape self i num_layers num_input_features
                input_node_id g sp num_input_features Hn Hg Hs)
      as ([out nf] & g' & Hrun & _ & _ & HQ).
    fold total in HQ.
    destruct (i =? len (DenseNetGenerator.block_config self) - 1) eqn:E;
      simpl in HQ.
    + destruct HQ as (-> & Hout). apply Z.eqb_eq in E.
      exists out, total, g', sp. repeat split; auto; intros; contradiction.
    + destruct HQ as (-> & sp' & Hout). apply Z.eqb_neq in E.
      exists out, (total / 2), g', sp'. repeat split; auto.
      * intros; contradiction.
      * apply Z.mul_div_le. lia.
      * pose proof (Z.mod_pos_bound total 2).
        pose proof (Z.div_mod total 2). lia.
Qed.

(** The same for the first block of the generator, 6 layers on 64
    channels, on a node of shape (8, 8, 64): 256 channels after the block,
    128 after the transition. *)
Lemma densenet_block_channels_at_sample :
  (0 <= 6
   /\ good (new_graph [8; 8; 64] false)
   /\ shape_at (new_graph [8; 8; 64] false) 0 ([8; 8] ++ [64]))
  /\ (exists out g',
         DenseNetGenerator._dense_block (rules := conv_arithmetic) sample_densenet
           6 64 4 32 0 0%nat (new_graph [8; 8; 64] false) = Ok (out, g')
         /\ shape_at g' out ([8; 8] ++ [64 + 6 * 32]))
  /\ (exists out g' sp',
         DenseNetGenerator.generate_step (rules := conv_arithmetic) sample_densenet
           (0, 6) (0%nat, 64) (new_graph [8; 8; 64] false)
         = Ok ((out, (64 + 6 * 32) / 2), g')
         /\ shape_at g' out (sp' ++ [(64 + 6 * 32) / 2])).
Proof.
  assert (H1 : 0 <= 6) by lia.
  assert (H2 : good (new_graph [8; 8; 64] false))
    by (apply good_new_graph; discriminate).
  assert (H3 : shape_at (new_graph [8; 8; 64] false) 0 ([8; 8] ++ [64]))
    by reflexivity.
  split; [auto|].
  destruct (densenet_block_channels conv_arithmetic sample_densenet 6 64 4 32 0
              0%nat (new_graph [8; 8; 64] false) [8; 8] H1 H2 H3)
    as (Hblock & Hstep).
  split; [exact Hblock|].
  destruct (Hstep 0) as (out & nf & g' & sp' & Hrun & Hout & _ & Hhalf).
  destruct Hhalf as [-> _]; [unfold len; simpl; lia|].
  exists out, g', sp'. auto.
Defined.

(** C6: after one generation at the default width 64 the ResNet generator
    holds [in_planes] = 64 * 2 * 2 * 2 = 512, and the final dense layer is
    declared with the input size 512. *)
Theorem resnet_in_planes_after_generate
    (rules : ShapeRules) (n_output_node : Z) (input_shape : Shape)
    (model_len model_width : option Z) :
  2 <= len input_shape <= 4 ->
  or_default model_width Constant.MODEL_WIDTH = 64 ->
  exists self g self',
    ResNetGenerator.__init__ n_output_node input_shape = Ok self
    /\ ResNetGenerator.generate self model_len model_width = Ok (g, self')
    /\ ResNetGenerator.in_planes self' = 64 * 2 * 2 * 2
    /\ ResNetGenerator.in_planes self' = 512
    /\ last (operators g) StubReLU = StubDense 512 n_output_node.
Proof.
  intros Hrank Hw.
  assert (Hne : input_shape <> []) by (apply rank_not_nil; lia).
  destruct (resnet_init_ok n_output_node input_shape Hrank)
    as (self & Hi & Hs & Hn & Hp & He).
  rewrite <- Hs in Hne.
  destruct (resnet_generate_runs self model_len model_width Hne)
    as (g & self' & Hg & [_ Hd] & Hself).
  rewrite Hw, He, Hn in *.
  exists self, g, self'. subst self'. repeat split; auto.
Qed.

(** The same for 10 outputs on the shape (32, 32, 3) with the width left
    out. *)
Lemma resnet_in_planes_after_generate_at_sample :
  (2 <= len [32; 32; 3] <= 4 /\ or_default None Constant.MODEL_WIDTH = 64)
  /\ exists self g self',
      ResNetGenerator.__init__ 10 [32; 32; 3] = Ok self
      /\ ResNetGenerator.generate (rules := conv_arithmetic) self None None
         = Ok (g, self')
      /\ ResNetGenerator.in_planes self' = 64 * 2 * 2 * 2
      /\ ResNetGenerator.in_planes self' = 512
      /\ last (operators g) StubReLU = StubDense 512 10.
Proof.
  assert (H1 : 2 <= len [32; 32; 3] <= 4) by (unfold len; simpl; lia).
  assert (H2 : or_default None Constant.MODEL_WIDTH = 64) by reflexivity.
  split; [auto|].
  exact (resnet_in_planes_after_generate conv_arithmetic 10 [32; 32; 3] None None
           H1 H2).
Defined.

(** C7, as the code has it: the plain CNN of depth 8 and width 16 on the
    input shape (32, 32, 3) with 10 outputs has a pooling operator after the
    iterations 2, 4 and 6 and none after iteration 8, and it ends with
    the dense layer to 16 units, an activation, and the dense layer from 16
    units to the 10 outputs. *)
Theorem cnn_depth8_operators (rules : ShapeRules) :
  let iteration c :=
    [StubReLU; StubBatchNormalization Dim2d c;
     StubConv Dim2d c 16 3 (Some 1) None None] in
  let pooling := [StubPooling Dim2d None None None] in
  exists self g,
    CnnGenerator.__init__ 10 [32; 32; 3] = Ok self
    /\ CnnGenerator.generate self (Some 8) (Some 16) = Ok g
    /\ operators g
       = iteration 3 ++ iteration 16 ++ pooling
         ++ iteration 16 ++ iteration 16 ++ pooling
         ++ iteration 16 ++ iteration 16 ++ pooling
         ++ iteration 16 ++ iteration 16
         ++ [StubGlobalPooling Dim2d; StubDropout Dim2d CONV_DROPOUT_RATE;
             StubDense 16 16; StubReLU; StubDense 16 10].
Proof.
  intros iteration pooling. eexists _, _.
  split; [reflexivity|]. split; vm_compute; reflexivity.
Qed.

(** C7, read to the letter: the last two operators of that graph are not
    the two dense layers, an activation stands between them. *)
Lemma cnn_depth8_dense_layers_not_adjacent :
  ~ (exists self g input_units front,
        CnnGenerator.__init__ 10 [32; 32; 3] = Ok self
        /\ CnnGenerator.generate (rules := conv_arithmetic) self (Some 8) (Some 16)
           = Ok g
        /\ operators g = front ++ [StubDense input_units 16; StubDense 16 10]).
Proof.
  intros (self & g & input_units & front & Hi & Hg & Hops).
  vm_compute in Hi. injection Hi as <-.
  vm_compute in Hg. injection Hg as <-.
  apply (f_equal (@rev Layer)) in Hops.
  rewrite rev_app_distr in Hops. vm_compute in Hops.
  discriminate Hops.
Qed.

(** C8: the MLP generator refuses a list of widths whose length differs
    from the depth with [WidthLengthMismatch] and accepts one whose length
    is the depth; an integer width stands for the list that repeats it
    once per layer and never ends in that failure. *)
Theorem mlp_width_length
    (rules : ShapeRules) (self : MlpGenerator.t) (model_len : option Z) :
  let depth := or_default model_len Constant.MODEL_LEN in
  (forall ws, len ws <> depth ->
     MlpGenerator.generate self model_len (Some (WidthList ws))
     = Err WidthLengthMismatch)
  /\ (forall ws, len ws = depth -> len (MlpGenerator.input_shape self) = 1 ->
        exists g, MlpGenerator.generate self model_len (Some (WidthList ws)) = Ok g)
  /\ (forall w,
        MlpGenerator.generate self model_len (Some (WidthInt w))
        <> Err WidthLengthMismatch)
  /\ (forall w, 0 <= depth ->
        MlpGenerator.generate self model_len (Some (WidthInt w))
        = MlpGenerator.generate self model_len
            (Some (WidthList (repeat w (Z.to_nat depth)))))
  /\ (forall w, len (MlpGenerator.input_shape self) = 1 ->
        exists g, MlpGenerator.generate self model_len (Some (WidthInt w)) = Ok g).
Proof.
  intros depth. repeat split.
  - intros ws Hlen. apply mlp_generate_widths_err. unfold widths. fold depth.
    destruct (len ws =? depth) eqn:E; [lia|reflexivity].
  - intros ws Hlen Hrank.
    destruct (mlp_generate_runs self model_len (Some (WidthList ws)) ws)
      as (g & Hg & _); eauto.
    + apply rank_not_nil. lia.
    + unfold widths. fold depth. rewrite Hlen, Z.eqb_refl. reflexivity.
  - intros w H.
    destruct (MlpGenerator.input_shape self) as [|d rest] eqn:Hs.
    + unfold MlpGenerator.generate, build_graph, build in H.
      rewrite Hs in H. discriminate H.
    + destruct (mlp_generate_runs self model_len (Some (WidthInt w))
                  (repeat w (Z.to_nat depth))) as (g & Hg & _);
        [rewrite Hs; discriminate|reflexivity|congruence].
  - intros w Hd. unfold MlpGenerator.generate. fold depth.
    assert (E : (len (repeat w (Z.to_nat depth)) =? depth) = true).
    { apply Z.eqb_eq. unfold len. rewrite repeat_length. lia. }
    rewrite E. reflexivity.
  - intros w Hrank.
    destruct (mlp_generate_runs self model_len (Some (WidthInt w))
                (repeat w (Z.to_nat depth))) as (g & Hg & _); eauto.
    apply rank_not_nil. lia.
Qed.

(** The same on the shape (4,) at depth 3: the widths [8, 16] are refused,
    the widths [8, 16, 32] and the width 64 are accepted. *)
Lemma mlp_width_length_at_sample :
  MlpGenerator.generate (rules := conv_arithmetic) (MlpGenerator.mk 10 [4])
                        (Some 3) (Some (WidthList [8; 16]))
  = Err WidthLengthMismatch
  /\ (exists g,
         MlpGenerator.generate (rules := conv_arithmetic) (MlpGenerator.mk 10 [4])
                               (Some 3) (Some (WidthList [8; 16; 32])) = Ok g)
  /\ (exists g,
         MlpGenerator.generate (rules := conv_arithmetic) (MlpGenerator.mk 10 [4])
                               (Some 3) (Some (WidthInt 64)) = Ok g).
Proof.
  destruct (mlp_width_length conv_arithmetic (MlpGenerator.mk 10 [4]) (Some 3))
    as (Hbad & Hgood & _ & _ & Hint).
  split; [|split].
  - apply Hbad. unfold len. simpl. lia.
  - apply Hgood; reflexivity.
  - apply Hint. reflexivity.
Defined.

(** C9: whatever the width, the normalization that follows the first
    convolution of the DenseNet generator is declared over the constant 64,
    while the convolution has the width as its output channels; the two
    agree exactly when the width is 64, given or by default. *)
Theorem densenet_first_normalization
    (rules : ShapeRules) (n_output_node : Z) (input_shape : Shape)
    (model_len model_width : option Z) :
  2 <= len input_shape <= 4 ->
  let width := or_default model_width Constant.MODEL_WIDTH in
  exists self g c rest,
    DenseNetGenerator.__init__ n_output_node input_shape = Ok self
    /\ DenseNetGenerator.generate self model_len model_width = Ok g
    /\ item_last input_shape = Ok c
    /\ operators g
       = StubConv (DenseNetGenerator.conv self) c width 7 None None None
           :: StubBatchNormalization (DenseNetGenerator.batch_norm self) 64
           :: rest
    /\ (64 = width <-> model_width = None \/ model_width = Some 64).
Proof.
  intros Hrank width.
  assert (Hne : input_shape <> []) by (apply rank_not_nil; lia).
  destruct (densenet_init_ok n_output_node input_shape Hrank)
    as (self & Hi & Hs & Hn & Hf).
  rewrite <- Hs in Hne.
  destruct (densenet_generate_runs self model_len model_width Hne)
    as (g & Hg & _ & c & rest & Hc & Hops).
  rewrite Hf in Hops. rewrite Hs in Hc.
  exists self, g, c, rest. repeat split; auto.
  - subst width. destruct model_width as [w|]; simpl; intros H; [right|left];
      congruence.
  - subst width. intros [->| ->]; reflexivity.
Qed.

(** The same for 10 outputs on the shape (32, 32, 3) at width 16: the
    convolution has 16 filters, the normalization is declared over 64. *)
Lemma densenet_first_normalization_at_sample :
  2 <= len [32; 32; 3] <= 4
  /\ exists self g c rest,
      DenseNetGenerator.__init__ 10 [32; 32; 3] = Ok self
      /\ DenseNetGenerator.generate (rules := conv_arithmetic) self None (Some 16)
         = Ok g
      /\ item_last [32; 32; 3] = Ok c
      /\ operators g
         = StubConv (DenseNetGenerator.conv self) c 16 7 None None None
             :: StubBatchNormalization (DenseNetGenerator.batch_norm self) 64
             :: rest
      /\ (64 = 16 <-> Some 16 = None \/ Some 16 = Some 64).
Proof.
  assert (H1 : 2 <= len [32; 32; 3] <= 4) by (unfold len; simpl; lia).
  split; [exact H1|].
  exact (densenet_first_normalization conv_arithmetic 10 [32; 32; 3] None (Some 16)
           H1).
Defined.

(** C10: [generate] of the MobileNetV2 generator does not look at its two
    arguments: a freshly constructed generator builds one and the same
    graph for all of them, from the fixed stage table, the initial channel
    count 32 and the final channel count 24. *)
Theorem mobilenet_generate_ignores_arguments
    (rules : ShapeRules) (n_output_node : Z) (input_shape : Shape) :
  2 <= len input_shape <= 4 ->
  exists self g self',
    MobileNetV2Generator.__init__ n_output_node input_shape = Ok self
    /\ MobileNetV2Generator.cfg self = [(1, 16, 1, 1); (6, 24, 2, 1)]
    /\ MobileNetV2Generator.in_planes self = 32
    /\ (forall model_len model_width,
          MobileNetV2Generator.generate self model_len model_width = Ok (g, self'))
    /\ last (operators g) StubReLU = StubDense (24 * 4) n_output_node.
Proof.
  intros Hrank.
  assert (Hne : input_shape <> []) by (apply rank_not_nil; lia).
  destruct (mobilenet_init_ok n_output_node input_shape Hrank)
    as (self & Hi & Hs & Hn & Hp & Hc).
  rewrite <- Hs in Hne.
  destruct (mobilenet_generate_runs self None None Hne) as (g & self' & Hg & [_ Hd]).
  rewrite Hn in Hd.
  exists self, g, self'. repeat split; auto.
Qed.

(** The same for 10 outputs on the shape (32, 32, 3): depth 8 and width 16
    give the graph that no arguments give. *)
Lemma mobilenet_generate_ignores_arguments_at_sample :
  2 <= len [32; 32; 3] <= 4
  /\ exists self g self',
      MobileNetV2Generator.__init__ 10 [32; 32; 3] = Ok self
      /\ MobileNetV2Generator.generate (rules := conv_arithmetic) self
                                       (Some 8) (Some 16) = Ok (g, self')
      /\ MobileNetV2Generator.generate (rules := conv_arithmetic) self None None
         = Ok (g, self').
Proof.
  assert (H1 : 2 <= len [32; 32; 3] <= 4) by (unfold len; simpl; lia).
  split; [exact H1|].
  destruct (mobilenet_generate_ignores_arguments conv_arithmetic 10 [32; 32; 3] H1)
    as (self & g & self' & Hi & _ & _ & Hg & _).
  exists self, g, self'. auto.
Defined.

(** * Further properties of the generators *)

(** ** Keeping the declared channels right *)

Lemma edge_wired_extends (g g' : Graph) (e : Edge) :
  extends g g' -> edge_wired g e -> edge_wired g' e.
Proof.
  intros He. destruct e as [[layer ids] out].
  destruct layer; simpl; auto.
  - intros (i & sp & Hi & Hs). eauto using extends_shape_at.
  - intros (i & sp & Hi & Hs). eauto using extends_shape_at.
  - intros (i & Hi & Hs). eauto using extends_shape_at.
Qed.

Lemma wired_new_graph (input_shape : Shape) (weighted : bool) :
  wired (new_graph input_shape weighted).
Proof. constructor. Qed.

Lemma operators_push (g : Graph) (layer : Layer) (ids : list nat) (s : Shape) :
  operators (push g layer ids s) = operators g ++ [layer].
Proof. unfold operators, push. simpl. rewrite map_app. reflexivity. Qed.

Section Wired.
Context {rules : ShapeRules}.

(** [add_layer] of an operator that stands on the channels it declares
    keeps the graph wired. *)
Lemma runs_add_layer_wired (layer : Layer) (ids : list nat) (ss : list Shape)
    (s : Shape) (g : Graph) (Q : nat -> Graph -> Prop) :
  good g -> wired g ->
  Forall2 (shape_at g) ids ss ->
  output_shape layer ss = Ok s ->
  s <> [] ->
  edge_wired g (layer, ids, size g) ->
  (forall g1,
      good g1 -> wired g1 -> extends g g1 -> size g1 = S (size g) ->
      shape_at g1 (size g) s ->
      layer_list g1 = layer_list g ++ [(layer, ids, size g)] ->
      operators g1 = operators g ++ [layer] ->
      Q (size g) g1) ->
  runs (add_layer layer ids) g Q.
Proof.
  intros Hg Hw Hat Hs Hne He HQ.
  exists (size g), (push g layer ids s).
  unfold add_layer, bind, lift. rewrite (node_shapes_exact _ _ _ Hat), Hs.
  repeat split; auto using good_push, extends_push.
  apply HQ;
    auto using good_push, extends_push, size_push, shape_at_push, operators_push.
  unfold wired. simpl. apply Forall_app. split.
  - eapply Forall_impl; [|exact Hw].
    intros e. apply edge_wired_extends, extends_push.
  - constructor; [|constructor].
    eapply edge_wired_extends; [apply extends_push|exact He].
Qed.

End Wired.

Ltac collect_operators Ho :=
  match type of Ho with
  | operators _ = operators ?g ++ _ =>
      try match goal with
          | HO : operators g = _ |- _ => rewrite HO in Ho; clear HO
          end
  end.

Ltac solve_edge_wired :=
  cbn [edge_wired];
  first [ exact I
        | eexists _, _; split; [reflexivity|eassumption]
        | eexists; split; [reflexivity|eassumption] ].

Ltac forget_graph He :=
  match type of He with
  | extends ?g _ =>
      repeat match goal with
             | H : good g |- _ => clear H
             | H : wired g |- _ => clear H
             end
  end.

(** One statement of a generator, with the shapes, the operators and the
    wiring followed. *)
Ltac step_wired :=
  apply runs_bind; eapply runs_add_layer_wired;
  [ assumption
  | assumption
  | repeat (apply Forall2_cons; [eassumption|]); apply Forall2_nil
  | solve_output_shape
  | first [apply snoc_not_nil | discriminate]
  | solve_edge_wired
  | let g1 := fresh "g" in
    let Hg := fresh "Hg" in
    let Hw := fresh "Hw" in
    let He := fresh "He" in
    let Hn := fresh "Hn" in
    let Hat := fresh "Hat" in
    let Hl := fresh "Hl" in
    let Ho := fresh "Ho" in
    intros g1 Hg Hw He Hn Hat Hl Ho; transport He; forget_graph He; clear He;
    collect_layers Hl; collect_operators Ho;
    rewrite ?spatial_shape_snoc, ?removelast_last in Hat ].

(** [shape <- node_shape id ;; c <- lift (item_last shape)] on a node of
    known shape. *)
Ltac step_channels_exact :=
  apply runs_bind; eapply runs_node_shape_exact; [assumption|eassumption|];
  apply runs_bind; eapply runs_lift; [apply item_last_snoc|assumption|].

(** ** The plain CNN *)

Lemma range_nth (n : Z) (front rest : list Z) (x : Z) :
  range n = front ++ x :: rest -> x = len front /\ 0 <= x < n.
Proof.
  intros H. unfold range in H.
  assert (Hn : nth_error (map Z.of_nat (seq 0 (Z.to_nat n))) (length front)
               = Some x).
  { rewrite H, nth_error_app2, Nat.sub_diag; [reflexivity|lia]. }
  assert (Hlt : (length front < Z.to_nat n)%nat).
  { apply (f_equal (@length Z)) in H.
    rewrite length_map, length_seq, length_app in H. simpl in H. lia. }
  rewrite nth_error_map, nth_error_seq in Hn.
  destruct (length front <? Z.to_nat n)%nat eqn:E.
  - simpl in Hn. injection Hn as <-. unfold len. lia.
  - apply Nat.ltb_ge in E. lia.
Qed.

Lemma flat_map_snoc {A B : Type} (f : A -> list B) (l : list A) (x : A) :
  flat_map f (l ++ [x]) = flat_map f l ++ f x.
Proof. rewrite flat_map_app. simpl. rewrite app_nil_r. reflexivity. Qed.

(** The test of the loop of [CnnGenerator.generate] for a pooling, read
    for an iteration of the loop. *)
Lemma cnn_pooling_test (model_len i : Z) :
  0 <= i < model_len ->
  (Z.quot model_len 4 =? 0)
  || (((i + 1) mod Z.quot model_len 4 =? 0) && negb (i =? model_len - 1))
  = (model_len <? 4)
    || (((i + 1) mod (model_len / 4) =? 0) && (i + 1 <? model_len)).
Proof.
  intros H. rewrite Z.quot_div_nonneg by lia.
  assert (E1 : (model_len / 4 =? 0) = (model_len <? 4)).
  { destruct (model_len <? 4) eqn:E.
    - apply Z.eqb_eq, Z.div_small. lia.
    - apply Z.eqb_neq. intros E0. apply Z.div_small_iff in E0; lia. }
  assert (E2 : negb (i =? model_len - 1) = (i + 1 <? model_len)).
  { destruct (i =? model_len - 1) eqn:E; simpl; symmetry.
    - apply Z.ltb_ge. lia.
    - apply Z.ltb_lt. lia. }
  rewrite E1, E2. reflexivity.
Qed.

Section CnnWired.
Context {rules : ShapeRules}.
Import CnnGenerator.

Lemma cnn_generate_step_wired (self : t) (input_channel model_len model_width : Z)
    (i : Z) (rest : list Z) (carried : nat * Z) (g : Graph) :
  good g ->
  cnn_loop_inv self input_channel model_len model_width (i :: rest) carried g ->
  runs (generate_step self model_len model_width (Z.quot model_len 4) 1 i carried) g
       (cnn_loop_inv self input_channel model_len model_width rest).
Proof.
  destruct carried as [out c].
  intros Hg (Hw & [sp Hout] & front & Hr & Hc & Hops). simpl in Hout, Hc.
  destruct (range_nth _ _ _ _ Hr) as [Hi Hb].
  assert (Hr' : range model_len = (front ++ [i]) ++ rest)
    by (rewrite <- app_assoc; exact Hr).
  assert (Hlen : (len (front ++ [i]) =? 0) = false).
  { apply Z.eqb_neq. unfold len. rewrite length_app. simpl. lia. }
  unfold generate_step.
  step_wired. step_channels_exact. step_wired. step_wired.
  cbv zeta. rewrite (cnn_pooling_test model_len i Hb).
  assert (Hflat : forall tail,
             (if (model_len <? 4)
                 || (((i + 1) mod (model_len / 4) =? 0) && (i + 1 <? model_len))
              then [StubPooling (pooling self) None None None]
              else []) = tail ->
             flat_map (cnn_iteration self input_channel model_len model_width)
                      (front ++ [i])
             = flat_map (cnn_iteration self input_channel model_len model_width)
                        front
               ++ [StubReLU; StubBatchNormalization (batch_norm self) c;
                   StubConv (conv self) c model_width 3 (Some 1) None None]
               ++ tail).
  { intros tail <-. rewrite flat_map_snoc. unfold cnn_iteration at 2. cbv zeta.
    rewrite <- Hi in Hc. rewrite <- Hc. reflexivity. }
  destruct ((model_len <? 4)
            || (((i + 1) mod (model_len / 4) =? 0) && (i + 1 <? model_len))).
  - step_wired. apply runs_ret; [assumption|].
    split; [assumption|]. split; [simpl; eauto|].
    exists (front ++ [i]). split; [exact Hr'|]. split; [simpl; rewrite Hlen; auto|].
    rewrite (Hflat _ eq_refl).
    match goal with H : operators _ = _ |- _ => rewrite H end.
    rewrite <- !app_assoc. reflexivity.
  - apply runs_ret; [assumption|].
    split; [assumption|]. split; [simpl; eauto|].
    exists (front ++ [i]). split; [exact Hr'|]. split; [simpl; rewrite Hlen; auto|].
    rewrite (Hflat _ eq_refl).
    match goal with H : operators _ = _ |- _ => rewrite H end.
    rewrite <- !app_assoc. reflexivity.
Qed.

End CnnWired.

Lemma len_range_zero (n : Z) : (len (range n) =? 0) = (n <=? 0).
Proof.
  unfold len, range. rewrite length_map, length_seq.
  destruct (n <=? 0) eqn:E.
  - apply Z.eqb_eq. lia.
  - apply Z.eqb_neq. lia.
Qed.

Section CnnGenerateWired.
Context {rules : ShapeRules}.
Import CnnGenerator.

(** A generation runs on every input with a channel dimension; the graph
    is wired and its operators are those of the iterations, then those that
    follow the loop. *)
Lemma cnn_generate_wired (self : t) (model_len model_width : option Z)
    (sp : list Z) (input_channel : Z) :
  input_shape self = sp ++ [input_channel] ->
  let depth := or_default model_len Constant.MODEL_LEN in
  let width := or_default model_width Constant.MODEL_WIDTH in
  exists g,
    generate self model_len model_width = Ok g
    /\ wired g
    /\ operators g
       = flat_map (cnn_iteration self input_channel depth width) (range depth)
         ++ cnn_head self input_channel depth width.
Proof.
  intros Hs depth width. unfold generate. fold depth. fold width.
  apply build_graph_runs. rewrite Hs.
  assert (Hg : good (new_graph (sp ++ [input_channel]) false))
    by (apply good_new_graph, snoc_not_nil).
  apply runs_bind. apply (runs_lift _ input_channel);
    [apply item_last_snoc|assumption|].
  cbv zeta. apply runs_bind.
  eapply runs_weaken.
  - apply (runs_for_each _ (cnn_loop_inv self input_channel depth width)).
    + intros i rest carried g Hg' Hinv.
      apply cnn_generate_step_wired; assumption.
    + assumption.
    + split; [apply wired_new_graph|]. split; [exists sp; reflexivity|].
      exists []. auto.
  - intros [out c] g Hg' _ (Hw & [sp' Hout] & front & Hr & Hc & Hops).
    simpl in Hout, Hc. rewrite app_nil_r in Hr. subst front.
    rewrite len_range_zero in Hc.
    step_wired. step_wired.
    apply runs_bind. eapply runs_node_shape_exact; [assumption|eassumption|].
    apply runs_bind. eapply runs_lift; [reflexivity|assumption|].
    step_wired. step_wired. step_wired.
    apply runs_ret; [assumption|].
    split; [assumption|].
    match goal with H : operators _ = _ |- _ => rewrite H end.
    unfold cnn_head. cbv zeta. rewrite <- Hc, <- !app_assoc. reflexivity.
Qed.

End CnnGenerateWired.

(** ** The MLP *)

Section MlpWired.
Context {rules : ShapeRules}.
Import MlpGenerator.

Lemma mlp_generate_step_wired (input_units : Z) (ws : list Z) (n : Z)
    (width : Z) (rest : list Z) (carried : nat * Z) (g : Graph) :
  good g ->
  mlp_loop_inv input_units ws n (width :: rest) carried g ->
  runs (generate_step width carried) g (mlp_loop_inv input_units ws n rest).
Proof.
  destruct carried as [out prev]. intros Hg (Hw & Hout & Hops).
  simpl in Hout, Hops. unfold generate_step.
  step_wired. step_wired. step_wired.
  apply runs_ret; [assumption|].
  split; [assumption|]. split; [assumption|]. simpl.
  match goal with H : operators _ = _ |- _ => rewrite H end.
  rewrite <- Hops, <- !app_assoc. reflexivity.
Qed.

(** A generation on a flat input with widths it accepts: the graph is
    wired and its operators are the chain of dense layers. *)
Lemma mlp_generate_wired (self : t) (model_len : option Z)
    (model_width : option Width) (ws : list Z) (input_units : Z) :
  input_shape self = [input_units] ->
  widths model_len model_width = Ok ws ->
  exists g,
    generate self model_len model_width = Ok g
    /\ wired g
    /\ operators g = mlp_operators input_units ws (n_output_node self).
Proof.
  intros Hs Hws.
  assert (Hne : input_shape self <> []) by (rewrite Hs; discriminate).
  destruct (mlp_generate_runs self model_len model_width ws Hne Hws)
    as (g & Hrun & _).
  exists g. split; [exact Hrun|].
  revert Hrun. unfold generate.
  assert (E : (match
                 match model_width with
                 | Some w => w
                 | None => WidthInt Constant.MODEL_WIDTH
                 end
               with
               | WidthInt w =>
                   Ok (repeat w (Z.to_nat (or_default model_len Constant.MODEL_LEN)))
               | WidthList ws0 =>
                   if negb (len ws0 =? or_default model_len Constant.MODEL_LEN)
                   then Err WidthLengthMismatch
                   else Ok ws0
               end) = Ok ws).
  { unfold widths in Hws. destruct model_width as [[w|ws0]|]; auto.
    destruct (len ws0 =? _); simpl; congruence. }
  rewrite E. simpl bindR. rewrite Hs.
  match goal with
  | |- build_graph ?shape ?m = _ -> _ =>
      destruct (build_graph_runs shape m
                  (fun g' =>
                     wired g'
                     /\ operators g'
                        = mlp_operators input_units ws (n_output_node self)))
        as (g' & Hrun' & HQ)
  end.
  2:{ intros Hrun. rewrite Hrun' in Hrun. injection Hrun as <-. exact HQ. }
  assert (Hg : good (new_graph [input_units] false))
    by (apply good_new_graph; discriminate).
  cbv zeta.
  apply runs_bind. eapply runs_lift; [reflexivity|assumption|].
  apply runs_bind.
  eapply runs_weaken.
  - apply (runs_for_each _ (mlp_loop_inv input_units ws (n_output_node self))).
    + intros w rest carried g0 Hg0 Hinv.
      apply mlp_generate_step_wired; assumption.
    + assumption.
    + split; [apply wired_new_graph|]. split; reflexivity.
  - intros [out prev] g0 Hg0 _ (Hw & Hout & Hops). simpl in Hout, Hops.
    step_wired. apply runs_ret; [assumption|].
    split; [assumption|].
    match goal with H : operators _ = _ |- _ => rewrite H end.
    exact Hops.
Qed.

End MlpWired.

(** ** The ResNet *)

Section ResNetWired.
Context {rules : ShapeRules}.
Import ResNetGenerator.

(** A basic block on a node of [in_planes] channels: the graph stays
    wired, the block ends in its one add, of the end of the main branch and
    the end of the projection, and the node it returns has [planes]
    channels. *)
Lemma resnet_make_block_wired (self : t) (in_planes planes : Z) (node_id : nat)
    (stride : Z) (g : Graph) (sp : list Z) :
  good g -> wired g -> shape_at g node_id (sp ++ [in_planes]) ->
  let strided := StubConv (conv self) in_planes planes 3 (Some stride) None None in
  let plain := StubConv (conv self) planes planes 3 None None None in
  let projection :=
    StubConv (conv self) in_planes (planes * block_expansion self) 1
             (Some stride) None None in
  runs (_make_block self in_planes planes node_id stride) g
       (fun out g' =>
          wired g'
          /\ shape_at g' out
               (map (spatial_dim plain) (map (spatial_dim strided) sp) ++ [planes])
          /\ (exists main shortcut,
                 add_edges g g' = [(StubAdd, [main; shortcut], out)]
                 /\ shape_at g' main
                      (map (spatial_dim plain) (map (spatial_dim strided) sp)
                         ++ [planes])
                 /\ shape_at g' shortcut
                      (map (spatial_dim projection) sp
                         ++ [planes * block_expansion self]))
          /\ operators g'
             = operators g
                 ++ [StubBatchNormalization (batch_norm self) in_planes; StubReLU;
                     strided; StubBatchNormalization (batch_norm self) planes;
                     StubReLU; plain; StubReLU; projection; StubAdd]).
Proof.
  intros Hg Hw Hid. cbv zeta. unfold _make_block.
  step_wired. step_wired. cbv zeta.
  step_wired. step_wired. step_wired. step_wired. step_wired. step_wired.
  step_wired.
  apply runs_ret; [assumption|].
  split; [assumption|]. split; [assumption|]. split.
  - eexists _, _. split; [|split].
    + unfold add_edges, new_edges.
      match goal with H : layer_list _ = _ |- _ => rewrite H end.
      rewrite <- !app_assoc, skipn_app_length. reflexivity.
    + assumption.
    + assumption.
  - match goal with H : operators _ = _ |- _ => rewrite H end.
    rewrite <- !app_assoc. reflexivity.
Qed.

End ResNetWired.

Section ResNetLayerWired.
Context {rules : ShapeRules}.
Import ResNetGenerator.

Lemma resnet_make_layer_step_wired (planes current_stride : Z) (out : nat)
    (self : t) (g : Graph) (sp : list Z) :
  good g -> wired g -> shape_at g out (sp ++ [in_planes self]) ->
  runs (_make_layer_step planes current_stride (out, self)) g
       (fun r g' =>
          wired g'
          /\ (exists sp', shape_at g' (fst r) (sp' ++ [planes]))
          /\ snd r = set_in_planes self (planes * block_expansion self)).
Proof.
  intros Hg Hw Hout. unfold _make_layer_step.
  apply runs_bind.
  eapply runs_weaken; [apply resnet_make_block_wired; eassumption|].
  intros out' g' Hg' _ (Hw' & Hout' & _). apply runs_ret; [assumption|].
  simpl. eauto.
Qed.

(** A stage of a generator with [block_expansion] 1, started on a node of
    [in_planes] channels, keeps the graph wired and ends on a node of
    [planes] channels. *)
Lemma resnet_make_layer_wired (self : t) (planes blocks : Z) (node_id : nat)
    (stride : Z) (g : Graph) (sp : list Z) :
  block_expansion self = 1 ->
  good g -> wired g -> shape_at g node_id (sp ++ [in_planes self]) ->
  runs (_make_layer self planes blocks node_id stride) g
       (fun r g' =>
          wired g'
          /\ (exists sp', shape_at g' (fst r) (sp' ++ [planes]))
          /\ snd r = set_in_planes self (planes * block_expansion self)).
Proof.
  intros Hexp Hg Hw Hid. unfold _make_layer. simpl app. cbn [for_each].
  apply runs_bind.
  eapply runs_weaken; [eapply resnet_make_layer_step_wired; eassumption|].
  intros [out self1] g1 Hg1 _ (Hw1 & Hout & Hself). simpl in Hout, Hself.
  subst self1.
  apply (runs_for_each _
           (fun _ r g' =>
              wired g'
              /\ (exists sp', shape_at g' (fst r) (sp' ++ [planes]))
              /\ snd r = set_in_planes self (planes * block_expansion self)));
    [|assumption|simpl; auto].
  intros x rest [out' self'] g' Hg' (Hw' & [sp' Hout'] & Hself').
  simpl in Hout', Hself'. subst self'.
  eapply runs_weaken.
  - eapply resnet_make_layer_step_wired; [assumption|assumption|].
    simpl. rewrite Hexp, Z.mul_1_r. exact Hout'.
  - intros r g'' _ _ (H1 & H2 & H3). split; [exact H1|]. split; [exact H2|].
    rewrite H3. reflexivity.
Qed.

(** A generation of a generator with [block_expansion] 1 that holds the
    width as its [in_planes] builds a wired graph. *)
Lemma resnet_generate_wired (self : t) (model_len model_width : option Z)
    (sp : list Z) (c : Z) :
  input_shape self = sp ++ [c] ->
  block_expansion self = 1 ->
  in_planes self = or_default model_width Constant.MODEL_WIDTH ->
  exists g self', generate self model_len model_width = Ok (g, self') /\ wired g.
Proof.
  intros Hs Hexp Hin. unfold generate.
  set (width := or_default model_width Constant.MODEL_WIDTH) in *.
  match goal with
  | |- context [build ?s ?m] =>
      destruct (build_runs s m (fun _ g => wired g)) as (self' & g & Hb & HQ)
  end.
  2:{ exists g, self'. rewrite Hb. auto. }
  rewrite Hs.
  assert (Hg : good (new_graph (sp ++ [c]) false))
    by (apply good_new_graph, snoc_not_nil).
  assert (Hw : wired (new_graph (sp ++ [c]) false)) by apply wired_new_graph.
  assert (H0 : shape_at (new_graph (sp ++ [c]) false) 0 (sp ++ [c])) by reflexivity.
  apply runs_bind. apply (runs_lift _ c); [apply item_last_snoc|assumption|].
  cbv zeta. step_wired. step_wired.
  apply runs_bind.
  eapply runs_weaken.
  { eapply resnet_make_layer_wired; [assumption|assumption|assumption|].
    rewrite Hin. eassumption. }
  intros [out1 self1] g3 Hg3 _ (Hw3 & [sp1 Hout1] & Hself1).
  simpl in Hout1, Hself1. subst self1.
  apply runs_bind.
  eapply runs_weaken.
  { eapply resnet_make_layer_wired; [assumption|assumption|assumption|].
    simpl. rewrite Hexp, Z.mul_1_r. eassumption. }
  intros [out2 self2] g4 Hg4 _ (Hw4 & [sp2 Hout2] & Hself2).
  simpl in Hout2, Hself2. subst self2.
  apply runs_bind.
  eapply runs_weaken.
  { eapply resnet_make_layer_wired; [assumption|assumption|assumption|].
    simpl. rewrite Hexp, Z.mul_1_r. eassumption. }
  intros [out3 self3] g5 Hg5 _ (Hw5 & [sp3 Hout3] & Hself3).
  simpl in Hout3, Hself3. subst self3.
  apply runs_bind.
  eapply runs_weaken.
  { eapply resnet_make_layer_wired; [assumption|assumption|assumption|].
    simpl. rewrite Hexp, Z.mul_1_r. eassumption. }
  intros [out4 self4] g6 Hg6 _ (Hw6 & [sp4 Hout4] & Hself4).
  simpl in Hout4, Hself4. subst self4. simpl.
  rewrite Hexp, Z.mul_1_r.
  step_wired. step_wired.
  apply runs_ret; assumption.
Qed.

End ResNetLayerWired.

(** ** Operators that contradict the node they stand on *)

Lemma extends_in_layers (g g' : Graph) (e : Edge) :
  extends g g' -> In e (layer_list g) -> In e (layer_list g').
Proof.
  intros (ns & ls & _ & Hl) H. rewrite Hl. apply in_or_app. auto.
Qed.

Lemma shape_at_channels (g : Graph) (i : nat) (sp sp' : list Z) (c c' : Z) :
  shape_at g i (sp ++ [c]) -> shape_at g i (sp' ++ [c']) -> c = c'.
Proof.
  unfold shape_at. intros H H'. rewrite H in H'. injection H' as H'.
  apply app_inj_tail in H'. tauto.
Qed.

(** In a wired graph a normalization declares the channels of its
    predecessor. *)
Lemma wired_batch_norm (g : Graph) (d : Dim) (num_features : Z) (i out : nat)
    (sp : list Z) (c : Z) :
  wired g ->
  In (StubBatchNormalization d num_features, [i], out) (layer_list g) ->
  shape_at g i (sp ++ [c]) ->
  num_features = c.
Proof.
  intros Hw Hin Hs. unfold wired in Hw. rewrite Forall_forall in Hw.
  destruct (Hw _ Hin) as (i' & sp' & Hi & Hs'). injection Hi as <-.
  eapply shape_at_channels; eassumption.
Qed.

Ltac transport_in He :=
  match type of He with
  | extends ?g ?g1 =>
      repeat match goal with
             | H : In _ (layer_list g) |- _ =>
                 apply (extends_in_layers g g1 _ He) in H
             end
  end.

(** One statement of a generator, with what is known about earlier nodes
    and operators kept. *)
Ltac step_keep :=
  apply runs_bind; apply runs_add_layer_facts;
  [ assumption | close_ids | reflexivity
  | let g1 := fresh "g" in
    let ss := fresh "ss" in
    let s := fresh "s" in
    let Hat := fresh "Hat" in
    let Hs := fresh "Hs" in
    let Hg := fresh "Hg" in
    let He := fresh "He" in
    let Hn := fresh "Hn" in
    intros g1 ss s Hat Hs Hg He Hn _ _ _; clear Hat Hs;
    transport He; transport_in He; clear He ].

Section ResNetMismatch.
Context {rules : ShapeRules}.
Import ResNetGenerator.

(** Every generation puts the normalization over [in_planes], the first
    operator of the first block, on the node of the normalization over the
    width. *)
Lemma resnet_generate_first_block (self : t) (model_len model_width : option Z)
    (sp : list Z) (c : Z) :
  input_shape self = sp ++ [c] ->
  exists g self' i sp' out,
    generate self model_len model_width = Ok (g, self')
    /\ shape_at g i (sp' ++ [or_default model_width Constant.MODEL_WIDTH])
    /\ In (StubBatchNormalization (batch_norm self) (in_planes self), [i], out)
          (layer_list g).
Proof.
  intros Hs. unfold generate.
  set (width := or_default model_width Constant.MODEL_WIDTH) in *.
  match goal with
  | |- context [build ?s ?m] =>
      destruct (build_runs s m
                  (fun _ g =>
                     exists i sp' out,
                       shape_at g i (sp' ++ [width])
                       /\ In (StubBatchNormalization (batch_norm self)
                                                     (in_planes self), [i], out)
                             (layer_list g)))
        as (self' & g & Hb & i & sp' & out & H1 & H2)
  end.
  2:{ exists g, self', i, sp', out. rewrite Hb. auto. }
  rewrite Hs.
  assert (Hg : good (new_graph (sp ++ [c]) false))
    by (apply good_new_graph, snoc_not_nil).
  assert (H0 : shape_at (new_graph (sp ++ [c]) false) 0 (sp ++ [c])) by reflexivity.
  apply runs_bind. apply (runs_lift _ c); [apply item_last_snoc|assumption|].
  cbv zeta. step_exact. step_exact.
  apply runs_bind. unfold _make_layer. cbv zeta.
  change ([1] ++ repeat 1 (Z.to_nat (2 - 1)))
    with (1 :: repeat 1 (Z.to_nat (2 - 1))).
  cbn [for_each].
  apply runs_bind. unfold _make_layer_step at 1. apply runs_bind.
  unfold _make_block at 1.
  step_exact.
  match goal with
  | Hl : layer_list ?g = _ ++ [?e] |- _ =>
      assert (Hin : In e (layer_list g))
        by (rewrite Hl; apply in_or_app; right; left; reflexivity);
      clear Hl
  end.
  step_keep. cbv zeta.
  step_keep. step_keep. step_keep. step_keep. step_keep. step_keep. step_keep.
  apply runs_ret; [assumption|].
  apply runs_ret; [assumption|].
  eapply runs_weaken.
  { apply (runs_for_each _
             (fun _ r g' =>
                (fst r < size g')%nat
                /\ snd r = set_in_planes self (width * block_expansion self))).
    - intros x rest [out' self'] g' Hg' [Hout' Hself']. simpl in Hout', Hself'.
      subst self'.
      eapply runs_weaken; [apply resnet_make_layer_step_runs; assumption|].
      intros r g'' _ _ [E1 E2]. split; [exact E1|]. rewrite E2. reflexivity.
    - assumption.
    - simpl. split; [lia|reflexivity]. }
  intros [out1 self1] ga Hga He [Hout1 Hself1]. simpl in Hout1, Hself1.
  transport He. transport_in He. clear He.
  apply runs_bind.
  eapply runs_weaken; [apply resnet_make_layer_runs; [assumption|lia]|].
  intros [out2 self2] gb Hgb He [Hout2 _]. simpl in Hout2.
  transport He. transport_in He. clear He.
  apply runs_bind.
  eapply runs_weaken; [apply resnet_make_layer_runs; [assumption|lia]|].
  intros [out3 self3] gc Hgc He [Hout3 _]. simpl in Hout3.
  transport He. transport_in He. clear He.
  apply runs_bind.
  eapply runs_weaken; [apply resnet_make_layer_runs; [assumption|lia]|].
  intros [out4 self4] gd Hgd He [Hout4 _]. simpl in Hout4.
  transport He. transport_in He. clear He.
  step_keep. step_keep.
  apply runs_ret; [assumption|].
  eauto.
Qed.

End ResNetMismatch.

(** ** The DenseNet *)

Section DenseNetWired.
Context {rules : ShapeRules}.
Import DenseNetGenerator.

(** A dense layer declared over the channels of its input keeps the graph
    wired. *)
Lemma densenet_dense_layer_wired (self : t)
    (num_input_features growth_rate bn_size drop_rate : Z) (input_node_id : nat)
    (g : Graph) (sp : list Z) :
  good g -> wired g -> shape_at g input_node_id (sp ++ [num_input_features]) ->
  runs (_dense_layer self num_input_features growth_rate bn_size drop_rate
                     input_node_id) g
       (fun out g' =>
          wired g' /\ shape_at g' out (sp ++ [num_input_features + growth_rate])).
Proof.
  intros Hg Hw Hid. unfold _dense_layer.
  step_wired. step_wired. step_wired. step_wired. step_wired. step_wired.
  step_wired. step_wired.
  apply runs_ret; [assumption|].
  rewrite Z.add_0_r in *. split; assumption.
Qed.

(** Layer [i] of a dense block is declared over
    [num_input_features + i * growth_rate] channels, which is what the
    layers before it have made of the input of the block. *)
Lemma densenet_dense_block_wired (self : t)
    (num_layers num_input_features bn_size growth_rate drop_rate : Z)
    (input_node_id : nat) (g : Graph) (sp : list Z) :
  good g -> wired g -> shape_at g input_node_id (sp ++ [num_input_features]) ->
  runs (_dense_block self num_layers num_input_features bn_size growth_rate
                     drop_rate input_node_id) g
       (fun out g' =>
          wired g'
          /\ shape_at g' out
               (sp ++ [num_input_features + len (range num_layers) * growth_rate])).
Proof.
  intros Hg Hw Hid. unfold _dense_block.
  eapply runs_weaken.
  - apply (runs_for_each _
             (fun rest out g' =>
                wired g'
                /\ exists front,
                    range num_layers = front ++ rest
                    /\ shape_at g' out
                         (sp ++ [num_input_features + len front * growth_rate]))).
    + intros i rest out g' Hg' (Hw' & front & Hr & Hout).
      destruct (range_nth _ _ _ _ Hr) as [Hi _]. subst i.
      eapply runs_weaken;
        [eapply densenet_dense_layer_wired; eassumption|].
      intros out' g'' _ _ [Hw'' Hout']. cbv beta in Hout'.
      split; [exact Hw''|]. exists (front ++ [len front]).
      split; [rewrite <- app_assoc; exact Hr|].
      replace (len (front ++ [len front])) with (len front + 1)
        by (unfold len; rewrite length_app; simpl; lia).
      replace (num_input_features + (len front + 1) * growth_rate)
        with (num_input_features + len front * growth_rate + growth_rate) by lia.
      exact Hout'.
    + assumption.
    + split; [assumption|]. exists []. split; [reflexivity|].
      change (len (@nil Z)) with 0. rewrite Z.mul_0_l, Z.add_0_r. exact Hid.
  - intros out g' _ _ (Hw' & front & Hr & Hout).
    rewrite app_nil_r in Hr. subst front. auto.
Qed.

Lemma densenet_transition_wired (self : t)
    (num_input_features num_output_features : Z) (input_node_id : nat)
    (g : Graph) (sp : list Z) :
  good g -> wired g -> shape_at g input_node_id (sp ++ [num_input_features]) ->
  runs (_transition self num_input_features num_output_features input_node_id) g
       (fun out g' =>
          wired g' /\ exists sp', shape_at g' out (sp' ++ [num_output_features])).
Proof.
  intros Hg Hw Hid. unfold _transition.
  step_wired. step_wired. step_wired. step_wired.
  apply runs_ret; [assumption|]. eauto.
Qed.

Lemma densenet_generate_step_wired (self : t) (i num_layers num_features : Z)
    (db_input_node_id : nat) (g : Graph) (sp : list Z) :
  0 <= num_layers ->
  good g -> wired g -> shape_at g db_input_node_id (sp ++ [num_features]) ->
  runs (generate_step self (i, num_layers) (db_input_node_id, num_features)) g
       (fun r g' =>
          wired g'
          /\ snd r = densenet_round self num_features (i, num_layers)
          /\ exists sp', shape_at g' (fst r) (sp' ++ [snd r])).
Proof.
  intros Hn Hg Hw Hid. unfold generate_step, densenet_round.
  apply runs_bind.
  eapply runs_weaken; [eapply densenet_dense_block_wired; eassumption|].
  intros out g1 Hg1 _ [Hw1 Hout]. cbv beta in Hout. cbv beta zeta.
  rewrite len_range in Hout by assumption.
  destruct (negb (i =? len (block_config self) - 1)).
  - apply runs_bind.
    eapply runs_weaken; [eapply densenet_transition_wired; eassumption|].
    intros out' g2 Hg2 _ [Hw2 Hout']. apply runs_ret; auto.
  - apply runs_ret; [assumption|]. simpl. eauto.
Qed.

(** The loop of [generate] carries the features that
    [densenet_round] computes, whatever the nodes are. *)
Lemma densenet_generate_step_features (self : t) (block : Z * Z)
    (carried : nat * Z) (g : Graph) :
  good g -> (fst carried < size g)%nat ->
  runs (generate_step self block carried) g
       (fun r g' => (fst r < size g')%nat
                    /\ snd r = densenet_round self (snd carried) block).
Proof.
  destruct block as [i num_layers], carried as [id num_features]. simpl.
  intros Hg Hid.
  apply runs_bind.
  eapply runs_weaken; [apply densenet_dense_block_runs; assumption|].
  intros out g1 Hg1 _ Hout. cbv beta zeta.
  destruct (negb _).
  - apply runs_bind.
    eapply runs_weaken; [apply densenet_transition_runs; assumption|].
    intros out' g2 Hg2 _ Hout'. apply runs_ret; auto.
  - apply runs_ret; auto.
Qed.

End DenseNetWired.

Lemma enumerate_snd_Forall {A : Type} (P : A -> Prop) (l : list A) :
  Forall P l -> Forall (fun b : Z * A => P (snd b)) (enumerate l).
Proof.
  unfold enumerate. generalize (map Z.of_nat (seq 0 (length l))).
  intros ks H. revert ks.
  induction H as [|x l Hx _ IH]; intros [|k ks]; simpl; constructor; auto.
Qed.

Section DenseNetGenerateWired.
Context {rules : ShapeRules}.
Import DenseNetGenerator.

(** A generation whose width is [num_init_features] builds a wired graph,
    when no block has a negative number of layers. *)
Lemma densenet_generate_wired (self : t) (model_len model_width : option Z)
    (sp : list Z) (c : Z) :
  input_shape self = sp ++ [c] ->
  Forall (fun num_layers => 0 <= num_layers) (block_config self) ->
  or_default model_width Constant.MODEL_WIDTH = num_init_features self ->
  exists g, generate self model_len model_width = Ok g /\ wired g.
Proof.
  intros Hs Hcfg Hwidth. unfold generate. rewrite Hwidth.
  apply build_graph_runs. rewrite Hs.
  assert (Hg : good (new_graph (sp ++ [c]) false))
    by (apply good_new_graph, snoc_not_nil).
  assert (Hw : wired (new_graph (sp ++ [c]) false)) by apply wired_new_graph.
  assert (H0 : shape_at (new_graph (sp ++ [c]) false) 0 (sp ++ [c])) by reflexivity.
  apply runs_bind. apply (runs_lift _ c); [apply item_last_snoc|assumption|].
  cbv zeta. step_wired. step_wired. step_wired. step_wired.
  apply runs_bind.
  eapply runs_weaken.
  - apply (runs_for_each _
             (fun rest r g' =>
                wired g'
                /\ (exists sp', shape_at g' (fst r) (sp' ++ [snd r]))
                /\ Forall (fun b : Z * Z => 0 <= snd b) rest)).
    + intros [i num_layers] rest [id nf] g' Hg' (Hw' & [sp' Hid] & Hrest).
      simpl in Hid. inversion Hrest as [|? ? Hlayers Hrest']; subst.
      simpl in Hlayers.
      eapply runs_weaken;
        [eapply densenet_generate_step_wired; eassumption|].
      intros r g'' _ _ (Hw'' & _ & Hout). auto.
    + assumption.
    + split; [assumption|]. split; [simpl; eauto|].
      apply enumerate_snd_Forall. exact Hcfg.
  - intros [id nf] g' Hg' _ (Hw' & [sp' Hid] & _). simpl in Hid.
    step_wired. step_wired. step_wired. step_wired.
    apply runs_ret; assumption.
Qed.

(** Every generation ends with the dense layer over the features that the
    loop counted, and puts the normalization over [num_init_features] on
    the node of the first convolution, which has the width as its
    channels. *)
Lemma densenet_generate_head (self : t) (model_len model_width : option Z)
    (sp : list Z) (c : Z) :
  input_shape self = sp ++ [c] ->
  exists g i sp' out,
    generate self model_len model_width = Ok g
    /\ ends_with_dense (densenet_final_features self) (n_output_node self) g
    /\ shape_at g i (sp' ++ [or_default model_width Constant.MODEL_WIDTH])
    /\ In (StubBatchNormalization (batch_norm self) (num_init_features self),
           [i], out) (layer_list g).
Proof.
  intros Hs. unfold generate.
  set (width := or_default model_width Constant.MODEL_WIDTH) in *.
  match goal with
  | |- context [build_graph ?s ?m] =>
      destruct (build_graph_runs s m
                  (fun g =>
                     ends_with_dense (densenet_final_features self)
                                     (n_output_node self) g
                     /\ exists i sp' out,
                         shape_at g i (sp' ++ [width])
                         /\ In (StubBatchNormalization (batch_norm self)
                                  (num_init_features self), [i], out)
                               (layer_list g)))
        as (g & Hb & Hd & i & sp' & out & H1 & H2)
  end.
  2:{ exists g, i, sp', out. auto. }
  rewrite Hs.
  assert (Hg : good (new_graph (sp ++ [c]) false))
    by (apply good_new_graph, snoc_not_nil).
  assert (H0 : shape_at (new_graph (sp ++ [c]) false) 0 (sp ++ [c])) by reflexivity.
  apply runs_bind. apply (runs_lift _ c); [apply item_last_snoc|assumption|].
  cbv zeta. step_exact. step_exact.
  match goal with
  | Hl : layer_list ?g = _ ++ [?e] |- _ =>
      assert (Hin : In e (layer_list g))
        by (rewrite Hl; apply in_or_app; right; left; reflexivity);
      clear Hl
  end.
  step_keep. step_keep.
  apply runs_bind.
  eapply runs_weaken.
  { apply (runs_for_each _
             (fun rest r g' =>
                (fst r < size g')%nat
                /\ fold_left (densenet_round self) rest (snd r)
                   = densenet_final_features self)).
    - intros block rest r g' Hg' [Hr Hfold].
      eapply runs_weaken;
        [apply densenet_generate_step_features; assumption|].
      intros r' g'' _ _ [Hr' Hnf]. split; [exact Hr'|].
      rewrite Hnf. exact Hfold.
    - assumption.
    - simpl. split; [lia|reflexivity]. }
  intros [id nf] ga Hga He [Hid Hnf]. simpl in Hid, Hnf. subst nf.
  transport He. transport_in He. clear He.
  step_keep. step_keep. step_keep.
  apply runs_bind. apply runs_add_layer_facts; [assumption|close_ids|reflexivity|].
  intros gb ssb sb Hatb Hsb Hgb He _ _ Hf Hl.
  transport He. transport_in He.
  apply runs_ret; [assumption|].
  split.
  - split.
    + rewrite Hf. exact (output_shape_dense _ _ _ _ _ _ Hatb Hsb).
    + exact (operators_snoc _ _ _ Hl).
  - eauto.
Qed.

End DenseNetGenerateWired.

(** ** The MobileNetV2 *)

Ltac add_wired :=
  eapply runs_add_layer_wired;
  [ assumption
  | assumption
  | repeat (apply Forall2_cons; [eassumption|]); apply Forall2_nil
  | solve_output_shape
  | first [apply snoc_not_nil | discriminate]
  | solve_edge_wired
  | let g1 := fresh "g" in
    let Hg := fresh "Hg" in
    let Hw := fresh "Hw" in
    let He := fresh "He" in
    let Hn := fresh "Hn" in
    let Hat := fresh "Hat" in
    let Hl := fresh "Hl" in
    let Ho := fresh "Ho" in
    intros g1 Hg Hw He Hn Hat Hl Ho; transport He; forget_graph He; clear He;
    collect_layers Hl; collect_operators Ho;
    rewrite ?spatial_shape_snoc, ?removelast_last in Hat ].

(** [add_batch_norm] on a node of known shape. *)
Ltac step_bn_wired :=
  apply runs_bind; unfold MobileNetV2Generator.add_batch_norm at 1;
  step_channels_exact; add_wired.

Section MobileNetWired.
Context {rules : ShapeRules}.
Import MobileNetV2Generator.

(** An inverted-residual block on a node of [in_planes] channels, for any
    stride: the graph stays wired, the normalizations, which read their
    channel count off the graph, are declared over the expanded planes and
    over [out_planes], the projection and the add are appended exactly when
    the stride is 1 and the channel count changes, and the node returned has
    [out_planes] channels. *)
Lemma mobilenet_make_block_wired (self : t) (in_planes out_planes expansion : Z)
    (node_id : nat) (stride : Z) (g : Graph) (sp : list Z) :
  good g -> wired g -> shape_at g node_id (sp ++ [in_planes]) ->
  let planes := expansion * in_planes in
  let expand := StubConv (conv self) in_planes planes 1 (Some 1) (Some 0) None in
  let depthwise :=
    StubConv (conv self) planes planes 3 (Some stride) (Some 1) (Some planes) in
  let project := StubConv (conv self) planes out_planes 1 (Some 1) (Some 0) None in
  let shortcut_conv :=
    StubConv (conv self) in_planes out_planes 1 (Some 1) (Some 0) None in
  runs (_make_block self in_planes out_planes expansion node_id stride) g
       (fun out g' =>
          wired g'
          /\ (exists sp', shape_at g' out (sp' ++ [out_planes]))
          /\ operators g'
             = operators g
                 ++ [expand; StubBatchNormalization (batch_norm self) planes;
                     StubReLU; depthwise;
                     StubBatchNormalization (batch_norm self) planes; StubReLU;
                     project; StubBatchNormalization (batch_norm self) out_planes]
                 ++ (if (stride =? 1) && negb (in_planes =? out_planes)
                     then [shortcut_conv;
                           StubBatchNormalization (batch_norm self) out_planes;
                           StubAdd]
                     else [])).
Proof.
  intros Hg Hw Hid planes expand depthwise project shortcut_conv.
  unfold _make_block. cbv zeta.
  fold planes. fold expand. fold depthwise. fold project. fold shortcut_conv.
  step_wired. step_bn_wired. step_wired. step_wired. step_bn_wired. step_wired.
  step_wired. step_bn_wired.
  destruct ((stride =? 1) && negb (in_planes =? out_planes)).
  - step_wired. step_bn_wired. step_wired.
    apply runs_ret; [assumption|].
    split; [assumption|]. split; [eauto|].
    match goal with H : operators _ = _ |- _ => rewrite H end.
    rewrite <- !app_assoc. reflexivity.
  - apply runs_ret; [assumption|].
    split; [assumption|]. split; [eauto|].
    match goal with H : operators _ = _ |- _ => rewrite H end.
    rewrite <- !app_assoc. reflexivity.
Qed.

End MobileNetWired.

Section MobileNetLayerWired.
Context {rules : ShapeRules}.
Import MobileNetV2Generator.

Lemma mobilenet_make_layer_block_wired (self : t) (out_planes expansion stride : Z)
    (carried : nat * t) (g : Graph) (sp : list Z) :
  good g -> wired g ->
  shape_at g (fst carried) (sp ++ [in_planes (snd carried)]) ->
  (exists v, snd carried = set_in_planes self v) ->
  runs (_make_layer_block out_planes expansion stride carried) g
       (fun r g' =>
          wired g'
          /\ (exists sp', shape_at g' (fst r) (sp' ++ [out_planes]))
          /\ snd r = set_in_planes self out_planes).
Proof.
  destruct carried as [out self']. simpl. intros Hg Hw Hout [v Hv].
  unfold _make_layer_block.
  apply runs_bind.
  eapply runs_weaken; [eapply mobilenet_make_block_wired; eassumption|].
  intros out' g' Hg' _ (Hw' & Hout' & _). apply runs_ret; [assumption|].
  split; [assumption|]. split; [exact Hout'|].
  subst self'. reflexivity.
Qed.

(** A stage on the node of [in_planes] channels keeps the graph wired and
    leaves the generator with the [out_planes] of the stage, which are the
    channels of the node the stage ends on. *)
Lemma mobilenet_make_layer_stage_wired (self : t)
    (expansion out_planes num_blocks stride : Z) (carried : nat * t) (g : Graph)
    (sp : list Z) :
  good g -> wired g ->
  shape_at g (fst carried) (sp ++ [in_planes (snd carried)]) ->
  (exists v, snd carried = set_in_planes self v) ->
  runs (_make_layer_stage (expansion, out_planes, num_blocks, stride) carried) g
       (fun r g' =>
          wired g'
          /\ (exists sp', shape_at g' (fst r) (sp' ++ [out_planes]))
          /\ snd r = set_in_planes self out_planes).
Proof.
  intros Hg Hw Hout Hv. unfold _make_layer_stage.
  change ([stride] ++ repeat 1 (Z.to_nat (num_blocks - 1)))
    with (stride :: repeat 1 (Z.to_nat (num_blocks - 1))).
  cbn [for_each].
  apply runs_bind.
  eapply runs_weaken; [eapply mobilenet_make_layer_block_wired; eassumption|].
  intros r1 g1 Hg1 _ (Hw1 & Hout1 & Hself1).
  apply (runs_for_each _
           (fun _ r g' =>
              wired g'
              /\ (exists sp', shape_at g' (fst r) (sp' ++ [out_planes]))
              /\ snd r = set_in_planes self out_planes));
    [|assumption|auto].
  intros x rest r g' Hg' (Hw' & [sp' Hout'] & Hself').
  eapply mobilenet_make_layer_block_wired; [assumption|assumption| |eauto].
  rewrite Hself'. exact Hout'.
Qed.

(** The stages of [cfg] on the node of [in_planes] channels. *)
Lemma mobilenet_make_layer_wired (self : t) (node_id : nat) (g : Graph)
    (sp : list Z) :
  good g -> wired g -> shape_at g node_id (sp ++ [in_planes self]) ->
  runs (_make_layer self node_id) g
       (fun r g' =>
          wired g'
          /\ (exists sp', shape_at g' (fst r) (sp' ++ [in_planes (snd r)]))
          /\ snd r
             = set_in_planes self (mobilenet_planes_after (cfg self) (in_planes self))).
Proof.
  intros Hg Hw Hid. unfold _make_layer.
  eapply runs_weaken.
  - apply (runs_for_each _
             (fun rest r g' =>
                wired g'
                /\ (exists sp', shape_at g' (fst r) (sp' ++ [in_planes (snd r)]))
                /\ (exists v, snd r = set_in_planes self v)
                /\ mobilenet_planes_after rest (in_planes (snd r))
                   = mobilenet_planes_after (cfg self) (in_planes self))).
    + intros [[[expansion out_planes] num_blocks] stride] rest r g' Hg'
             (Hw' & [sp' Hout'] & Hv & Hafter).
      eapply runs_weaken;
        [eapply mobilenet_make_layer_stage_wired; eassumption|].
      intros r' g'' _ _ (Hw'' & Hout'' & Hself''). cbv beta.
      rewrite Hself''. simpl in Hafter. simpl. eauto.
    + assumption.
    + split; [assumption|]. split; [simpl; eauto|]. split; [|reflexivity].
      exists (in_planes self). destruct self. reflexivity.
  - intros r g' _ _ (Hw' & Hout' & [v Hv] & Hafter). simpl in Hafter.
    split; [assumption|]. split; [assumption|].
    rewrite Hv in Hafter. simpl in Hafter. subst v. exact Hv.
Qed.

(** A generation builds a wired graph, whatever [in_planes] the generator
    holds, when the last stage of [cfg] has the 24 [out_planes] that
    [generate] assumes. *)
Lemma mobilenet_generate_wired (self : t) (model_len model_width : option Z)
    (sp : list Z) (c : Z) :
  input_shape self = sp ++ [c] ->
  mobilenet_planes_after (cfg self) (in_planes self) = 24 ->
  exists g,
    generate self model_len model_width = Ok (g, set_in_planes self 24)
    /\ wired g.
Proof.
  intros Hs Hafter. unfold generate.
  match goal with
  | |- context [build ?s ?m] =>
      destruct (build_runs s m
                  (fun self' g => self' = set_in_planes self 24 /\ wired g))
        as (self' & g & Hb & Hself & Hw)
  end.
  2:{ exists g. rewrite Hb. simpl. subst self'. auto. }
  rewrite Hs.
  assert (Hg : good (new_graph (sp ++ [c]) false))
    by (apply good_new_graph, snoc_not_nil).
  assert (Hw : wired (new_graph (sp ++ [c]) false)) by apply wired_new_graph.
  assert (H0 : shape_at (new_graph (sp ++ [c]) false) 0 (sp ++ [c])) by reflexivity.
  apply runs_bind. apply (runs_lift _ c); [apply item_last_snoc|assumption|].
  cbv zeta. step_wired. step_bn_wired. step_wired.
  apply runs_bind.
  eapply runs_weaken; [eapply mobilenet_make_layer_wired; eassumption|].
  intros [out self1] ga Hga _ (Hwa & [spa Houta] & Hself1).
  simpl in Houta, Hself1. rewrite Hafter in Hself1. subst self1.
  simpl in Houta. simpl.
  step_wired. step_bn_wired. step_wired. step_wired. step_wired.
  apply runs_ret; [assumption|].
  split; [reflexivity|assumption].
Qed.

End MobileNetLayerWired.

(** ** Counting the blocks of a ResNet stage *)

(** One statement of a generator, with the operators appended so far
    kept. *)
Ltac step_layers :=
  apply runs_bind; apply runs_add_layer_facts;
  [ assumption | close_ids | reflexivity
  | let g1 := fresh "g" in
    let ss := fresh "ss" in
    let s := fresh "s" in
    let Hat := fresh "Hat" in
    let Hs := fresh "Hs" in
    let Hg := fresh "Hg" in
    let He := fresh "He" in
    let Hn := fresh "Hn" in
    let Hl := fresh "Hl" in
    intros g1 ss s Hat Hs Hg He Hn _ _ Hl; clear Hat Hs He; collect_layers Hl ].

Section ResNetEdges.
Context {rules : ShapeRules}.
Import ResNetGenerator.

Lemma resnet_make_block_edges (self : t) (in_planes planes : Z) (node_id : nat)
    (stride : Z) (g : Graph) :
  good g -> (node_id < size g)%nat ->
  runs (_make_block self in_planes planes node_id stride) g
       (fun out g' =>
          (out < size g')%nat
          /\ exists l, layer_list g' = layer_list g ++ l
                       /\ length l = 9%nat /\ length (filter is_add l) = 1%nat).
Proof.
  intros Hg Hid. unfold _make_block.
  step_layers. step_layers. cbv zeta.
  step_layers. step_layers. step_layers. step_layers. step_layers. step_layers.
  step_layers.
  apply runs_ret; [assumption|]. split; [lia|].
  match goal with H : layer_list _ = _ |- _ => rewrite <- !app_assoc in H end.
  eexists. split; [eassumption|]. split; reflexivity.
Qed.

(** A stage appends one block for its stride and one for each further
    block asked for: at least one, also when [blocks] is 0 or negative. *)
Lemma resnet_make_layer_edges (self : t) (planes blocks : Z) (node_id : nat)
    (stride : Z) (g : Graph) :
  good g -> (node_id < size g)%nat ->
  runs (_make_layer self planes blocks node_id stride) g
       (fun r g' =>
          exists l, layer_list g' = layer_list g ++ l
                    /\ length l = (9 * Z.to_nat (Z.max 1 blocks))%nat
                    /\ length (filter is_add l) = Z.to_nat (Z.max 1 blocks)).
Proof.
  intros Hg Hid. unfold _make_layer. cbv zeta.
  change ([stride] ++ repeat 1 (Z.to_nat (blocks - 1)))
    with (stride :: repeat 1 (Z.to_nat (blocks - 1))).
  eapply runs_weaken.
  - apply (runs_for_each _
             (fun rest r g' =>
                (fst r < size g')%nat
                /\ exists k l,
                    (k + length rest = S (Z.to_nat (blocks - 1)))%nat
                    /\ layer_list g' = layer_list g ++ l
                    /\ length l = (9 * k)%nat
                    /\ length (filter is_add l) = k)).
    + intros x rest [out self'] g' Hg' (Hout & k & l & Hk & Hl & Hlen & Hadd).
      simpl in Hout. unfold _make_layer_step.
      apply runs_bind.
      eapply runs_weaken; [apply resnet_make_block_edges; assumption|].
      intros out' g'' Hg'' _ (Hout' & l' & Hl' & Hlen' & Hadd').
      apply runs_ret; [assumption|]. split; [exact Hout'|].
      exists (S k), (l ++ l'). simpl length in Hk.
      split; [lia|]. split; [rewrite Hl', Hl, app_assoc; reflexivity|].
      rewrite filter_app, !length_app. lia.
    + assumption.
    + split; [exact Hid|]. exists 0%nat, [].
      simpl. rewrite repeat_length, app_nil_r. auto.
  - intros r g' _ _ (_ & k & l & Hk & Hl & Hlen & Hadd). simpl in Hk.
    exists l. split; [exact Hl|]. split; lia.
Qed.

End ResNetEdges.

(** ** Counting the poolings of a plain CNN *)

Lemma div_succ (q m : Z) :
  0 < q -> 0 <= m ->
  (m + 1) / q = m / q + (if (m + 1) mod q =? 0 then 1 else 0).
Proof.
  intros Hq Hm.
  pose proof (Z.div_mod (m + 1) q) as D1.
  pose proof (Z.mod_pos_bound (m + 1) q Hq) as B1.
  pose proof (Z.div_mod m q) as D2.
  pose proof (Z.mod_pos_bound m q Hq) as B2.
  destruct ((m + 1) mod q =? 0) eqn:E.
  - apply Z.eqb_eq in E. rewrite E in D1. nia.
  - apply Z.eqb_neq in E. nia.
Qed.

Lemma filter_all {A : Type} (f : A -> bool) (l : list A) :
  (forall x, f x = true) -> filter f l = l.
Proof. intros H. induction l; simpl; [|rewrite H]; congruence. Qed.

Lemma cnn_iteration_poolings (self : CnnGenerator.t)
    (input_channel model_len model_width : Z) (l : list Z) :
  length (filter is_pooling
            (flat_map (cnn_iteration self input_channel model_len model_width) l))
  = length (filter (cnn_pooling_due model_len) l).
Proof.
  induction l as [|i l IH]; [reflexivity|].
  cbn [flat_map]. rewrite filter_app, length_app, IH.
  unfold cnn_iteration, cnn_pooling_due. cbn [filter app is_pooling length].
  destruct ((model_len <? 4)
            || (((i + 1) mod (model_len / 4) =? 0) && (i + 1 <? model_len)));
    reflexivity.
Qed.

Lemma cnn_poolings_upto (model_len : Z) (m : nat) :
  4 <= model_len -> Z.of_nat m <= model_len - 1 ->
  Z.of_nat (length (filter (cnn_pooling_due model_len) (map Z.of_nat (seq 0 m))))
  = Z.of_nat m / (model_len / 4).
Proof.
  intros Hlen. induction m as [|m IH]; intros Hm; [reflexivity|].
  assert (Hq : 0 < model_len / 4) by (apply Z.div_str_pos; lia).
  rewrite seq_S, map_app, filter_app, length_app, Nat2Z.inj_add, IH by lia.
  replace (Z.of_nat (S m)) with (Z.of_nat m + 1) by lia.
  rewrite (div_succ _ _ Hq) by lia.
  f_equal. simpl. unfold cnn_pooling_due.
  replace (model_len <? 4) with false by (symmetry; apply Z.ltb_ge; lia).
  replace (Z.of_nat m + 1 <? model_len) with true
    by (symmetry; apply Z.ltb_lt; lia).
  simpl. rewrite andb_true_r.
  destruct ((Z.of_nat m + 1) mod (model_len / 4) =? 0); reflexivity.
Qed.

(** The iterations that end with a pooling: all of them below depth 4,
    and from depth 4 on those before the last whose number is a multiple of
    a quarter of the depth. *)
Lemma cnn_poolings_count (model_len : Z) :
  Z.of_nat (length (filter (cnn_pooling_due model_len) (range model_len)))
  = cnn_poolings model_len.
Proof.
  unfold cnn_poolings, range. destruct (model_len <? 4) eqn:E.
  - rewrite filter_all, length_map, length_seq by
      (intros x; unfold cnn_pooling_due; rewrite E; reflexivity).
    lia.
  - apply Z.ltb_ge in E.
    replace (Z.to_nat model_len) with (S (Z.to_nat (model_len - 1))) by lia.
    rewrite seq_S, map_app, filter_app, length_app, Nat2Z.inj_add.
    rewrite cnn_poolings_upto by lia.
    rewrite Z2Nat.id by lia. simpl. unfold cnn_pooling_due.
    replace (model_len <? 4) with false by (symmetry; apply Z.ltb_ge; lia).
    replace (Z.of_nat (Z.to_nat (model_len - 1)) + 1 <? model_len) with false
      by (symmetry; apply Z.ltb_ge; lia).
    rewrite andb_false_r. simpl. lia.
Qed.

Lemma cnn_poolings_bounds (model_len : Z) :
  4 <= model_len -> 3 <= cnn_poolings model_len <= 6.
Proof.
  intros H. unfold cnn_poolings.
  replace (model_len <? 4) with false by (symmetry; apply Z.ltb_ge; lia).
  assert (Hq : 0 < model_len / 4) by (apply Z.div_str_pos; lia).
  pose proof (Z.div_mod model_len 4) as D.
  pose proof (Z.mod_pos_bound model_len 4) as B.
  split.
  - apply Z.div_le_lower_bound; lia.
  - assert ((model_len - 1) / (model_len / 4) < 7); [|lia].
    apply Z.div_lt_upper_bound; lia.
Qed.

(** ** Construction and the MLP on the empty shape *)

Lemma mlp_generate_empty {rules : ShapeRules} (self : MlpGenerator.t)
    (model_len : option Z) (model_width : option Width) (ws : list Z) :
  MlpGenerator.input_shape self = [] ->
  widths model_len model_width = Ok ws ->
  MlpGenerator.generate self model_len model_width = Err IndexError.
Proof.
  intros Hs Hw. unfold MlpGenerator.generate. unfold widths in Hw.
  destruct model_width as [[w|ws0]|]; simpl.
  - unfold build_graph, build. rewrite Hs. reflexivity.
  - destruct (len ws0 =? _); [simpl|discriminate].
    unfold build_graph, build. rewrite Hs. reflexivity.
  - unfold build_graph, build. rewrite Hs. reflexivity.
Qed.

Lemma widths_err (model_len : option Z) (model_width : option Width) (e : error) :
  widths model_len model_width = Err e -> e = WidthLengthMismatch.
Proof.
  unfold widths. destruct model_width as [[w|ws]|]; try discriminate.
  destruct (len ws =? _); congruence.
Qed.

Lemma len_range_max (n : Z) : len (range n) = Z.max 0 n.
Proof. unfold len, range. rewrite length_map, length_seq. lia. Qed.

Lemma densenet_init_fields (n : Z) (shape : Shape) :
  2 <= len shape <= 4 ->
  exists self,
    DenseNetGenerator.__init__ n shape = Ok self
    /\ DenseNetGenerator.input_shape self = shape
    /\ DenseNetGenerator.n_output_node self = n
    /\ DenseNetGenerator.num_init_features self = 64
    /\ densenet_final_features self = 1024
    /\ Forall (fun num_layers => 0 <= num_layers)
              (DenseNetGenerator.block_config self).
Proof.
  intros H. by_rank shape; eexists; (split; [reflexivity|]);
    repeat split; try reflexivity; simpl; repeat constructor; lia.
Qed.

Lemma conv_arithmetic_residual (d : Dim) (in_planes planes filters stride x : Z) :
  spatial_dim (ShapeRules := conv_arithmetic)
    (StubConv d planes planes 3 None None None)
    (spatial_dim (ShapeRules := conv_arithmetic)
       (StubConv d in_planes planes 3 (Some stride) None None) x)
  = spatial_dim (ShapeRules := conv_arithmetic)
      (StubConv d in_planes filters 1 (Some stride) None None) x.
Proof.
  simpl. change (Z.quot 3 2) with 1. change (Z.quot 1 2) with 0.
  rewrite Z.quot_1_r.
  replace (x + 2 - 3) with (x + 0 - 1) by lia. lia.
Qed.

(** ** What the generators do beyond the properties above *)

(** The constructors of the CNN, ResNet and MobileNetV2 generators build a
    generator exactly for the shapes of rank 2, 3 and 4, with [n_dim] one
    less than the rank and the counters 64 and 32 and the two stages the
    source gives them; every other shape ends in [InvalidInputRank], and in
    no other failure: the lookup of the layer classes cannot fail behind the
    check. *)
Theorem constructors_check_rank (n : Z) (shape : Shape) :
  checked_rank (CnnGenerator.__init__ n shape) shape
    (fun self =>
       CnnGenerator.n_output_node self = n
       /\ CnnGenerator.input_shape self = shape
       /\ CnnGenerator.n_dim self = len shape - 1)
  /\ checked_rank (ResNetGenerator.__init__ n shape) shape
       (fun self =>
          ResNetGenerator.n_output_node self = n
          /\ ResNetGenerator.input_shape self = shape
          /\ ResNetGenerator.n_dim self = len shape - 1
          /\ ResNetGenerator.in_planes self = 64
          /\ ResNetGenerator.block_expansion self = 1)
  /\ checked_rank (MobileNetV2Generator.__init__ n shape) shape
       (fun self =>
          MobileNetV2Generator.n_output_node self = n
          /\ MobileNetV2Generator.input_shape self = shape
          /\ MobileNetV2Generator.n_dim self = len shape - 1
          /\ MobileNetV2Generator.in_planes self = 32
          /\ MobileNetV2Generator.cfg self = [(1, 16, 1, 1); (6, 24, 2, 1)]).
Proof.
  unfold checked_rank.
  destruct ((2 <=? len shape) && (len shape <=? 4)) eqn:E.
  - apply andb_true_iff in E. destruct E as [E1 E2].
    apply Z.leb_le in E1. apply Z.leb_le in E2.
    by_rank shape; repeat split; eexists; repeat split; reflexivity.
  - assert (H : len shape < 2 \/ 4 < len shape).
    { apply andb_false_iff in E. destruct E as [E|E]; apply Z.leb_gt in E; lia. }
    destruct (rank_checks n shape) as [Hr _]. exact (Hr H).
Qed.

(** The MLP generator on the shapes its constructor lets through.  A shape
    of rank 2 or more is refused at construction.  The empty shape is
    accepted, and every generation on it fails: with
    [WidthLengthMismatch] when the list of widths does not fit the depth,
    which is tested first, and with [IndexError] at [input_shape[0]]
    otherwise.  On a shape of rank 1 a generation can only fail with
    [WidthLengthMismatch]. *)
Theorem mlp_failures (rules : ShapeRules) (n : Z) (shape : Shape)
    (model_len : option Z) (model_width : option Width) :
  match shape with
  | [] =>
      exists self,
        MlpGenerator.__init__ n shape = Ok self
        /\ MlpGenerator.generate self model_len model_width
           = match widths model_len model_width with
             | Ok _ => Err IndexError
             | Err _ => Err WidthLengthMismatch
             end
  | [_] =>
      exists self,
        MlpGenerator.__init__ n shape = Ok self
        /\ match widths model_len model_width with
           | Ok _ => exists g, MlpGenerator.generate self model_len model_width = Ok g
           | Err _ =>
               MlpGenerator.generate self model_len model_width
               = Err WidthLengthMismatch
           end
  | _ => MlpGenerator.__init__ n shape = Err InvalidInputRank
  end.
Proof.
  destruct shape as [|d [|d' shape]].
  - eexists. split; [reflexivity|].
    destruct (widths model_len model_width) as [ws|e] eqn:E.
    + eapply mlp_generate_empty; [reflexivity|exact E].
    + rewrite (mlp_generate_widths_err _ _ _ _ E).
      rewrite (widths_err _ _ _ E). reflexivity.
  - eexists. split; [reflexivity|].
    destruct (widths model_len model_width) as [ws|e] eqn:E.
    + destruct (mlp_generate_runs (MlpGenerator.mk n [d]) model_len model_width ws)
        as (g & Hg & _); [discriminate|exact E|eauto].
    + rewrite (mlp_generate_widths_err _ _ _ _ E).
      rewrite (widths_err _ _ _ E). reflexivity.
  - destruct (rank_checks n (d :: d' :: shape)) as [_ Hr]. apply Hr.
    unfold len. simpl length. lia.
Qed.

(** The operators of a plain CNN, for every depth and width, on every
    input with a channel dimension: per iteration of the loop an
    activation, a normalization and a convolution of kernel 3 and stride 1
    over the channels of the input (first iteration) or the width (later
    ones), then a pooling when the depth is below 4 or the number of the
    iteration is a multiple of a quarter of the depth and not the depth;
    after the loop the global pooling, the dropout, the dense layer to the
    width, an activation and the dense layer to the outputs. *)
Theorem cnn_operator_sequence (rules : ShapeRules) (self : CnnGenerator.t)
    (model_len model_width : option Z) (sp : list Z) (input_channel : Z) :
  CnnGenerator.input_shape self = sp ++ [input_channel] ->
  let depth := or_default model_len Constant.MODEL_LEN in
  let width := or_default model_width Constant.MODEL_WIDTH in
  exists g,
    CnnGenerator.generate self model_len model_width = Ok g
    /\ operators g
       = flat_map (cnn_iteration self input_channel depth width) (range depth)
         ++ cnn_head self input_channel depth width.
Proof.
  intros Hs depth width.
  destruct (cnn_generate_wired self model_len model_width sp input_channel Hs)
    as (g & Hg & _ & Hops).
  exists g. auto.
Qed.

(** The same for depth 5 and width 32 on the shape (32, 32, 3), under the
    usual arithmetic. *)
Lemma cnn_operator_sequence_at_sample :
  CnnGenerator.input_shape sample_cnn = [32; 32] ++ [3]
  /\ exists g,
      CnnGenerator.generate (rules := conv_arithmetic) sample_cnn (Some 5) (Some 32)
      = Ok g
      /\ operators g
         = flat_map (cnn_iteration sample_cnn 3 5 32) (range 5)
           ++ cnn_head sample_cnn 3 5 32.
Proof.
  assert (H : CnnGenerator.input_shape sample_cnn = [32; 32] ++ [3])
    by reflexivity.
  split; [exact H|].
  exact (cnn_operator_sequence conv_arithmetic sample_cnn (Some 5) (Some 32)
           [32; 32] 3 H).
Defined.

(** In the graph of a plain CNN every normalization, convolution and dense
    layer is declared over the channels of the node it is applied to, for
    every depth and width, depth 0 and negative depths included (the first
    dense layer is then declared over the channels of the input). *)
Theorem cnn_channels_consistent (rules : ShapeRules) (self : CnnGenerator.t)
    (model_len model_width : option Z) (sp : list Z) (input_channel : Z) :
  CnnGenerator.input_shape self = sp ++ [input_channel] ->
  exists g, CnnGenerator.generate self model_len model_width = Ok g /\ wired g.
Proof.
  intros Hs.
  destruct (cnn_generate_wired self model_len model_width sp input_channel Hs)
    as (g & Hg & Hw & _).
  exists g. auto.
Qed.

(** The same for depth 0 and width 32 on the shape (32, 32, 3). *)
Lemma cnn_channels_consistent_at_sample :
  CnnGenerator.input_shape sample_cnn = [32; 32] ++ [3]
  /\ exists g,
      CnnGenerator.generate (rules := conv_arithmetic) sample_cnn (Some 0) (Some 32)
      = Ok g
      /\ wired g.
Proof.
  assert (H : CnnGenerator.input_shape sample_cnn = [32; 32] ++ [3])
    by reflexivity.
  split; [exact H|].
  exact (cnn_channels_consistent conv_arithmetic sample_cnn (Some 0) (Some 32)
           [32; 32] 3 H).
Defined.

(** The number of pooling operators of a plain CNN: one per iteration
    below depth 4, the last iteration included; from depth 4 on the
    multiples of a quarter of the depth (rounded down) below the depth,
    which are at least 3 and at most 6. *)
Theorem cnn_pooling_count (rules : ShapeRules) (self : CnnGenerator.t)
    (model_len model_width : option Z) (sp : list Z) (input_channel : Z) :
  CnnGenerator.input_shape self = sp ++ [input_channel] ->
  let depth := or_default model_len Constant.MODEL_LEN in
  exists g,
    CnnGenerator.generate self model_len model_width = Ok g
    /\ Z.of_nat (length (filter is_pooling (operators g))) = cnn_poolings depth
    /\ (depth < 4 -> cnn_poolings depth = Z.max 0 depth)
    /\ (4 <= depth ->
        cnn_poolings depth = (depth - 1) / (depth / 4)
        /\ 3 <= cnn_poolings depth <= 6).
Proof.
  intros Hs depth.
  destruct (cnn_generate_wired self model_len model_width sp input_channel Hs)
    as (g & Hg & _ & Hops).
  exists g. split; [exact Hg|]. split.
  - fold depth in Hops. rewrite Hops, filter_app, length_app.
    rewrite cnn_iteration_poolings.
    change (length (filter is_pooling (cnn_head _ _ _ _))) with 0%nat.
    rewrite Nat.add_0_r. apply cnn_poolings_count.
  - split.
    + intros H. unfold cnn_poolings.
      replace (depth <? 4) with true by (symmetry; apply Z.ltb_lt; lia).
      reflexivity.
    + intros H. split; [|apply cnn_poolings_bounds; exact H].
      unfold cnn_poolings.
      replace (depth <? 4) with false by (symmetry; apply Z.ltb_ge; lia).
      reflexivity.
Qed.

(** The same for depth 11 on the shape (32, 32, 3): 5 poolings. *)
Lemma cnn_pooling_count_at_sample :
  CnnGenerator.input_shape sample_cnn = [32; 32] ++ [3]
  /\ exists g,
      CnnGenerator.generate (rules := conv_arithmetic) sample_cnn (Some 11) None
      = Ok g
      /\ Z.of_nat (length (filter is_pooling (operators g))) = cnn_poolings 11
      /\ cnn_poolings 11 = 5.
Proof.
  assert (H : CnnGenerator.input_shape sample_cnn = [32; 32] ++ [3])
    by reflexivity.
  split; [exact H|].
  destruct (cnn_pooling_count conv_arithmetic sample_cnn (Some 11) None
              [32; 32] 3 H) as (g & Hg & Hn & _).
  exists g. split; [exact Hg|]. split; [exact Hn|reflexivity].
Defined.

(** The graph of an MLP on a flat input of [input_units] values is the
    chain of dense layers through the widths to the outputs, each hidden
    layer followed by a dropout and an activation, and each dense layer is
    declared over the size of the node it is applied to. *)
Theorem mlp_dense_chain (rules : ShapeRules) (self : MlpGenerator.t)
    (model_len : option Z) (model_width : option Width) (ws : list Z)
    (input_units : Z) :
  MlpGenerator.input_shape self = [input_units] ->
  widths model_len model_width = Ok ws ->
  exists g,
    MlpGenerator.generate self model_len model_width = Ok g
    /\ wired g
    /\ operators g = mlp_operators input_units ws (MlpGenerator.n_output_node self).
Proof.
  intros Hs Hw. exact (mlp_generate_wired self model_len model_width ws _ Hs Hw).
Qed.

(** The same for the widths [16, 4] on the shape (8,). *)
Lemma mlp_dense_chain_at_sample :
  (MlpGenerator.input_shape sample_mlp = [8]
   /\ widths (Some 2) (Some (WidthList [16; 4])) = Ok [16; 4])
  /\ exists g,
      MlpGenerator.generate (rules := conv_arithmetic) sample_mlp (Some 2)
        (Some (WidthList [16; 4])) = Ok g
      /\ wired g
      /\ operators g = mlp_operators 8 [16; 4] 10.
Proof.
  assert (H1 : MlpGenerator.input_shape sample_mlp = [8]) by reflexivity.
  assert (H2 : widths (Some 2) (Some (WidthList [16; 4])) = Ok [16; 4])
    by reflexivity.
  split; [auto|].
  exact (mlp_dense_chain conv_arithmetic sample_mlp (Some 2)
           (Some (WidthList [16; 4])) [16; 4] 8 H1 H2).
Defined.

(** A basic block of the ResNet generator on a node of [in_planes]
    channels, for any stride: it appends nine operators that stand on the
    channels they declare, the last of them the one elementwise add of the
    block; the add sums the end of the main branch, which has [planes]
    channels, and the projection of kernel 1 of the activated input, which
    has [planes * block_expansion] channels; and the block returns a node of
    [planes] channels.  When [block_expansion] is 1, as the constructor sets
    it, and the two convolutions of kernel 3 of the main branch map a
    spatial extent as the projection does, both summands have one
    shape. *)
Theorem resnet_block_residual_add
    (rules : ShapeRules) (self : ResNetGenerator.t) (in_planes planes : Z)
    (node_id : nat) (stride : Z) (g : Graph) (sp : list Z) :
  good g -> wired g -> shape_at g node_id (sp ++ [in_planes]) ->
  let strided :=
    StubConv (ResNetGenerator.conv self) in_planes planes 3 (Some stride) None None in
  let plain := StubConv (ResNetGenerator.conv self) planes planes 3 None None None in
  let projection :=
    StubConv (ResNetGenerator.conv self) in_planes
             (planes * ResNetGenerator.block_expansion self) 1 (Some stride)
             None None in
  exists out g' main shortcut sp_main sp_shortcut,
    ResNetGenerator._make_block self in_planes planes node_id stride g
    = Ok (out, g')
    /\ wired g'
    /\ length (new_edges g g') = 9%nat
    /\ add_edges g g' = [(StubAdd, [main; shortcut], out)]
    /\ shape_at g' main (sp_main ++ [planes])
    /\ shape_at g' shortcut
         (sp_shortcut ++ [planes * ResNetGenerator.block_expansion self])
    /\ shape_at g' out (sp_main ++ [planes])
    /\ (ResNetGenerator.block_expansion self = 1 ->
        (forall x, spatial_dim plain (spatial_dim strided x)
                   = spatial_dim projection x) ->
        sp_main ++ [planes]
        = sp_shortcut ++ [planes * ResNetGenerator.block_expansion self]).
Proof.
  intros Hg Hw Hid strided plain projection.
  destruct (resnet_make_block_wired self in_planes planes node_id stride g sp
              Hg Hw Hid)
    as (out & g' & Hrun & _ & He & Hw' & Hout & (main & shortcut & Ha & Hm & Hs)
        & Hops).
  fold strided in Hout, Hm. fold plain in Hout, Hm. fold projection in Hs.
  exists out, g', main, shortcut,
    (map (spatial_dim plain) (map (spatial_dim strided) sp)),
    (map (spatial_dim projection) sp).
  split; [exact Hrun|]. split; [exact Hw'|]. split.
  - apply (f_equal (@length Layer)) in Hops.
    unfold operators in Hops. rewrite length_app, !length_map in Hops.
    destruct He as (ns & ls & _ & Hl). unfold new_edges.
    rewrite Hl, skipn_app_length. rewrite Hl, length_app in Hops.
    simpl in Hops. lia.
  - split; [exact Ha|]. split; [exact Hm|]. split; [exact Hs|].
    split; [exact Hout|].
    intros Hexp Hsame. rewrite Hexp, Z.mul_1_r, map_map. f_equal.
    apply map_ext. intros x. apply Hsame.
Qed.

(** The same for the block from 64 to 128 channels with stride 2 on a
    node of shape (32, 32, 64), under the usual arithmetic, which maps a
    spatial extent through the main branch as through the projection. *)
Lemma resnet_block_residual_add_at_sample :
  (good (new_graph [32; 32; 64] false)
   /\ wired (new_graph [32; 32; 64] false)
   /\ shape_at (new_graph [32; 32; 64] false) 0 ([32; 32] ++ [64]))
  /\ exists out g' main shortcut s',
      ResNetGenerator._make_block (rules := conv_arithmetic) sample_resnet 64 128
        0%nat 2 (new_graph [32; 32; 64] false) = Ok (out, g')
      /\ add_edges (new_graph [32; 32; 64] false) g'
         = [(StubAdd, [main; shortcut], out)]
      /\ shape_at g' main s'
      /\ shape_at g' shortcut s'.
Proof.
  assert (H1 : good (new_graph [32; 32; 64] false))
    by (apply good_new_graph; discriminate).
  assert (H2 : wired (new_graph [32; 32; 64] false)) by apply wired_new_graph.
  assert (H3 : shape_at (new_graph [32; 32; 64] false) 0 ([32; 32] ++ [64]))
    by reflexivity.
  split; [auto|].
  destruct (resnet_block_residual_add conv_arithmetic sample_resnet 64 128 0%nat 2
              (new_graph [32; 32; 64] false) [32; 32] H1 H2 H3)
    as (out & g' & main & shortcut & sp_main & sp_shortcut
        & Hrun & _ & _ & Ha & Hm & Hs & _ & Heq).
  exists out, g', main, shortcut, (sp_main ++ [128]).
  split; [exact Hrun|]. split; [exact Ha|]. split; [exact Hm|].
  rewrite (Heq eq_refl (conv_arithmetic_residual _ _ _ _ _)). exact Hs.
Defined.

(** Whatever [in_planes] a ResNet generator holds, a generation at the
    width [w] leaves it with [in_planes = w * 8 * block_expansion] and ends
    the graph with the dense layer declared over as many inputs; a further
    generation at the same width leaves the generator as it is. *)
Theorem resnet_state_after_generate
    (rules : ShapeRules) (self : ResNetGenerator.t)
    (model_len model_width : option Z) :
  ResNetGenerator.input_shape self <> [] ->
  let width := or_default model_width Constant.MODEL_WIDTH in
  exists g self',
    ResNetGenerator.generate self model_len model_width = Ok (g, self')
    /\ ResNetGenerator.in_planes self'
       = width * 8 * ResNetGenerator.block_expansion self
    /\ self'
       = ResNetGenerator.set_in_planes self
           (width * 8 * ResNetGenerator.block_expansion self)
    /\ last (operators g) StubReLU
       = StubDense (width * 8 * ResNetGenerator.block_expansion self)
                   (ResNetGenerator.n_output_node self)
    /\ forall model_len',
        exists g',
          ResNetGenerator.generate self' model_len' model_width = Ok (g', self').
Proof.
  intros Hne width.
  destruct (resnet_generate_runs self model_len model_width Hne)
    as (g & self' & Hg & [_ Hd] & Hself).
  fold width in Hd, Hself.
  replace (width * 2 * 2 * 2 * ResNetGenerator.block_expansion self)
    with (width * 8 * ResNetGenerator.block_expansion self) in * by lia.
  exists g, self'. split; [exact Hg|]. split; [subst self'; reflexivity|].
  split; [exact Hself|]. split; [exact Hd|].
  intros model_len'.
  assert (Hne' : ResNetGenerator.input_shape self' <> [])
    by (subst self'; exact Hne).
  destruct (resnet_generate_runs self' model_len' model_width Hne')
    as (g' & self'' & Hg' & _ & Hself'').
  exists g'. rewrite Hg'. f_equal. f_equal. rewrite Hself''.
  fold width. subst self'. unfold ResNetGenerator.set_in_planes. simpl.
  f_equal. lia.
Qed.

(** The same for the constructed generator at width 16: 128 afterwards. *)
Lemma resnet_state_after_generate_at_sample :
  ResNetGenerator.input_shape sample_resnet <> []
  /\ exists g self',
      ResNetGenerator.generate (rules := conv_arithmetic) sample_resnet None
        (Some 16) = Ok (g, self')
      /\ ResNetGenerator.in_planes self' = 128.
Proof.
  assert (H : ResNetGenerator.input_shape sample_resnet <> []) by discriminate.
  split; [exact H|].
  destruct (resnet_state_after_generate conv_arithmetic sample_resnet None
              (Some 16) H) as (g & self' & Hg & Hin & _).
  exists g, self'. split; [exact Hg|exact Hin].
Defined.

(** The graph of a ResNet generator with [block_expansion] 1 has every
    normalization, convolution and dense layer declared over the channels of
    its node exactly when the generator holds the width as its [in_planes]
    (a constructed generator holds 64): the first block is declared over
    [in_planes] and stands on the node of the first normalization, which
    has the width as its channels. *)
Theorem resnet_channels_consistent_iff
    (rules : ShapeRules) (self : ResNetGenerator.t)
    (model_len model_width : option Z) (sp : list Z) (c : Z) :
  ResNetGenerator.input_shape self = sp ++ [c] ->
  ResNetGenerator.block_expansion self = 1 ->
  exists g self',
    ResNetGenerator.generate self model_len model_width = Ok (g, self')
    /\ (wired g
        <-> ResNetGenerator.in_planes self
            = or_default model_width Constant.MODEL_WIDTH).
Proof.
  intros Hs Hexp.
  destruct (resnet_generate_first_block self model_len model_width sp c Hs)
    as (g & self' & i & sp' & out & Hg & Hat & Hin).
  exists g, self'. split; [exact Hg|]. split.
  - intros Hw. exact (wired_batch_norm _ _ _ _ _ _ _ Hw Hin Hat).
  - intros Hp.
    destruct (resnet_generate_wired self model_len model_width sp c Hs Hexp Hp)
      as (g2 & self2 & Hg2 & Hw2).
    rewrite Hg in Hg2. injection Hg2 as <- _. exact Hw2.
Qed.

(** The same for the constructed generator at the default width 64. *)
Lemma resnet_channels_consistent_iff_at_sample :
  (ResNetGenerator.input_shape sample_resnet = [32; 32] ++ [3]
   /\ ResNetGenerator.block_expansion sample_resnet = 1)
  /\ exists g self',
      ResNetGenerator.generate (rules := conv_arithmetic) sample_resnet None None
      = Ok (g, self')
      /\ wired g.
Proof.
  assert (H1 : ResNetGenerator.input_shape sample_resnet = [32; 32] ++ [3])
    by reflexivity.
  assert (H2 : ResNetGenerator.block_expansion sample_resnet = 1) by reflexivity.
  split; [auto|].
  destruct (resnet_channels_consistent_iff conv_arithmetic sample_resnet None None
              [32; 32] 3 H1 H2) as (g & self' & Hg & Hiff).
  exists g, self'. split; [exact Hg|]. apply Hiff. reflexivity.
Defined.

(** A stage of the ResNet generator appends [blocks] basic blocks, and one
    block when [blocks] is 1, 0 or negative: nine operators and one add per
    block.  On a node of [in_planes] channels, with [block_expansion] 1, the
    operators stand on the channels they declare, the stage ends on a node
    of [planes] channels, and it leaves [in_planes = planes]. *)
Theorem resnet_stage_blocks
    (rules : ShapeRules) (self : ResNetGenerator.t) (planes blocks : Z)
    (node_id : nat) (stride : Z) (g : Graph) (sp : list Z) :
  ResNetGenerator.block_expansion self = 1 ->
  good g -> wired g ->
  shape_at g node_id (sp ++ [ResNetGenerator.in_planes self]) ->
  exists out self' g' sp',
    ResNetGenerator._make_layer self planes blocks node_id stride g
    = Ok ((out, self'), g')
    /\ wired g'
    /\ shape_at g' out (sp' ++ [planes])
    /\ ResNetGenerator.in_planes self' = planes
    /\ length (new_edges g g') = (9 * Z.to_nat (Z.max 1 blocks))%nat
    /\ length (add_edges g g') = Z.to_nat (Z.max 1 blocks).
Proof.
  intros Hexp Hg Hw Hid.
  destruct (resnet_make_layer_wired self planes blocks node_id stride g sp
              Hexp Hg Hw Hid)
    as ([out self'] & g' & Hrun & _ & _ & Hw' & [sp' Hout] & Hself).
  simpl in Hout, Hself.
  destruct (resnet_make_layer_edges self planes blocks node_id stride g Hg
              (shape_at_size _ _ _ Hid))
    as (r2 & g2 & Hrun2 & _ & _ & l & Hl & Hlen & Hadd).
  rewrite Hrun in Hrun2. injection Hrun2 as <- <-.
  exists out, self', g', sp'.
  split; [exact Hrun|]. split; [exact Hw'|]. split; [exact Hout|].
  split; [subst self'; simpl; rewrite Hexp; lia|].
  unfold add_edges, new_edges. rewrite Hl, skipn_app_length. auto.
Qed.

(** The same for a stage of 0 blocks to 64 channels on a node of shape
    (32, 32, 64): one block. *)
Lemma resnet_stage_blocks_at_sample :
  (ResNetGenerator.block_expansion sample_resnet = 1
   /\ good (new_graph [32; 32; 64] false)
   /\ wired (new_graph [32; 32; 64] false)
   /\ shape_at (new_graph [32; 32; 64] false) 0
        ([32; 32] ++ [ResNetGenerator.in_planes sample_resnet]))
  /\ exists out self' g',
      ResNetGenerator._make_layer (rules := conv_arithmetic) sample_resnet 64 0
        0%nat 1 (new_graph [32; 32; 64] false) = Ok ((out, self'), g')
      /\ length (new_edges (new_graph [32; 32; 64] false) g') = 9%nat
      /\ length (add_edges (new_graph [32; 32; 64] false) g') = 1%nat.
Proof.
  assert (H0 : ResNetGenerator.block_expansion sample_resnet = 1) by reflexivity.
  assert (H1 : good (new_graph [32; 32; 64] false))
    by (apply good_new_graph; discriminate).
  assert (H2 : wired (new_graph [32; 32; 64] false)) by apply wired_new_graph.
  assert (H3 : shape_at (new_graph [32; 32; 64] false) 0
                 ([32; 32] ++ [ResNetGenerator.in_planes sample_resnet]))
    by reflexivity.
  split; [auto|].
  destruct (resnet_stage_blocks conv_arithmetic sample_resnet 64 0 0%nat 1
              (new_graph [32; 32; 64] false) [32; 32] H0 H1 H2 H3)
    as (out & self' & g' & sp' & Hrun & _ & _ & _ & Hn & Ha).
  exists out, self', g'. auto.
Defined.

(** A dense block on a node of [num_input_features] channels: each of its
    layers is declared over the channels that the layers before it have
    made of the input, so the graph stays wired, and the block ends on a
    node of [num_input_features + num_layers * growth_rate] channels; a
    block of a negative number of layers appends nothing and leaves the
    channels as they are. *)
Theorem densenet_block_channels_consistent
    (rules : ShapeRules) (self : DenseNetGenerator.t)
    (num_layers num_input_features bn_size growth_rate drop_rate : Z)
    (input_node_id : nat) (g : Graph) (sp : list Z) :
  good g -> wired g -> shape_at g input_node_id (sp ++ [num_input_features]) ->
  exists out g',
    DenseNetGenerator._dense_block self num_layers num_input_features bn_size
      growth_rate drop_rate input_node_id g = Ok (out, g')
    /\ wired g'
    /\ shape_at g' out
         (sp ++ [num_input_features + Z.max 0 num_layers * growth_rate])
    /\ (num_layers <= 0 -> g' = g /\ out = input_node_id).
Proof.
  intros Hg Hw Hid.
  destruct (densenet_dense_block_wired self num_layers num_input_features bn_size
              growth_rate drop_rate input_node_id g sp Hg Hw Hid)
    as (out & g' & Hrun & _ & _ & Hw' & Hout).
  rewrite len_range_max in Hout.
  exists out, g'. split; [exact Hrun|]. split; [exact Hw'|]. split; [exact Hout|].
  intros Hn. unfold DenseNetGenerator._dense_block, range in Hrun.
  replace (Z.to_nat num_layers) with 0%nat in Hrun by lia.
  simpl in Hrun. unfold ret in Hrun. injection Hrun as <- <-. auto.
Qed.

(** The same for the second block of the generator, 12 layers on 128
    channels, on a node of shape (8, 8, 128): 512 channels. *)
Lemma densenet_block_channels_consistent_at_sample :
  (good (new_graph [8; 8; 128] false)
   /\ wired (new_graph [8; 8; 128] false)
   /\ shape_at (new_graph [8; 8; 128] false) 0 ([8; 8] ++ [128]))
  /\ exists out g',
      DenseNetGenerator._dense_block (rules := conv_arithmetic) sample_densenet
        12 128 4 32 0 0%nat (new_graph [8; 8; 128] false) = Ok (out, g')
      /\ wired g'
      /\ shape_at g' out ([8; 8] ++ [128 + Z.max 0 12 * 32]).
Proof.
  assert (H1 : good (new_graph [8; 8; 128] false))
    by (apply good_new_graph; discriminate).
  assert (H2 : wired (new_graph [8; 8; 128] false)) by apply wired_new_graph.
  assert (H3 : shape_at (new_graph [8; 8; 128] false) 0 ([8; 8] ++ [128]))
    by reflexivity.
  split; [auto|].
  destruct (densenet_block_channels_consistent conv_arithmetic sample_densenet
              12 128 4 32 0 0%nat (new_graph [8; 8; 128] false) [8; 8] H1 H2 H3)
    as (out & g' & Hrun & Hw & Hout & _).
  exists out, g'. auto.
Defined.

(** The graph of a constructed DenseNet generator ends with the dense
    layer over 1024 features at every depth and width, and its
    normalizations, convolutions and dense layer are all declared over the
    channels of their nodes exactly when the width is 64, given or by
    default: the loop over the blocks counts from the 64
    [num_init_features], and the first normalization is declared over them,
    while the first convolution produces the width. *)
Theorem densenet_final_dense_and_channels
    (rules : ShapeRules) (n_output_node : Z) (input_shape : Shape)
    (model_len model_width : option Z) :
  2 <= len input_shape <= 4 ->
  exists self g,
    DenseNetGenerator.__init__ n_output_node input_shape = Ok self
    /\ DenseNetGenerator.generate self model_len model_width = Ok g
    /\ last (operators g) StubReLU = StubDense 1024 n_output_node
    /\ (wired g <-> or_default model_width Constant.MODEL_WIDTH = 64).
Proof.
  intros Hrank.
  destruct (densenet_init_fields n_output_node input_shape Hrank)
    as (self & Hi & Hs & Hn & Hf & Hfinal & Hcfg).
  assert (Hne : input_shape <> []) by (apply rank_not_nil; lia).
  destruct (exists_last Hne) as [sp [c Hshape]].
  rewrite Hshape in Hs.
  destruct (densenet_generate_head self model_len model_width sp c Hs)
    as (g & i & sp' & out & Hg & [_ Hd] & Hat & Hin).
  exists self, g. split; [exact Hi|]. split; [exact Hg|].
  split; [rewrite Hd, Hfinal, Hn; reflexivity|]. split.
  - intros Hw. rewrite Hf in Hin.
    symmetry. exact (wired_batch_norm _ _ _ _ _ _ _ Hw Hin Hat).
  - intros Hwidth. rewrite <- Hf in Hwidth.
    destruct (densenet_generate_wired self model_len model_width sp c Hs Hcfg
                Hwidth) as (g2 & Hg2 & Hw2).
    rewrite Hg in Hg2. injection Hg2 as <-. exact Hw2.
Qed.

(** The same for 10 outputs on the shape (32, 32, 3) at the width 32: the
    graph is not wired. *)
Lemma densenet_final_dense_and_channels_at_sample :
  2 <= len [32; 32; 3] <= 4
  /\ exists self g,
      DenseNetGenerator.__init__ 10 [32; 32; 3] = Ok self
      /\ DenseNetGenerator.generate (rules := conv_arithmetic) self None (Some 32)
         = Ok g
      /\ last (operators g) StubReLU = StubDense 1024 10
      /\ ~ wired g.
Proof.
  assert (H : 2 <= len [32; 32; 3] <= 4) by (unfold len; simpl; lia).
  split; [exact H|].
  destruct (densenet_final_dense_and_channels conv_arithmetic 10 [32; 32; 3] None
              (Some 32) H) as (self & g & Hi & Hg & Hd & Hiff).
  exists self, g. split; [exact Hi|]. split; [exact Hg|]. split; [exact Hd|].
  intros Hw. apply Hiff in Hw. discriminate Hw.
Defined.

(** An inverted-residual block of the MobileNetV2 generator on a node of
    [in_planes] channels, for any stride: the eight operators of the main
    branch, and after them the projection, its normalization and the add
    exactly when the stride is 1 and [in_planes] differs from [out_planes];
    with another stride there is no residual, also when the channel count
    changes.  The normalizations, which take their channel count from the
    graph, are declared over the expanded planes and over [out_planes]; all
    operators stand on the channels they declare, and the block returns a
    node of [out_planes] channels. *)
Theorem mobilenet_block_operators
    (rules : ShapeRules) (self : MobileNetV2Generator.t)
    (in_planes out_planes expansion : Z) (node_id : nat) (stride : Z) (g : Graph)
    (sp : list Z) :
  good g -> wired g -> shape_at g node_id (sp ++ [in_planes]) ->
  let planes := expansion * in_planes in
  let conv := StubConv (MobileNetV2Generator.conv self) in
  let norm := StubBatchNormalization (MobileNetV2Generator.batch_norm self) in
  exists out g' sp',
    MobileNetV2Generator._make_block self in_planes out_planes expansion node_id
      stride g = Ok (out, g')
    /\ wired g'
    /\ shape_at g' out (sp' ++ [out_planes])
    /\ operators g'
       = operators g
           ++ [conv in_planes planes 1 (Some 1) (Some 0) None; norm planes; StubReLU;
               conv planes planes 3 (Some stride) (Some 1) (Some planes);
               norm planes; StubReLU;
               conv planes out_planes 1 (Some 1) (Some 0) None; norm out_planes]
           ++ (if (stride =? 1) && negb (in_planes =? out_planes)
               then [conv in_planes out_planes 1 (Some 1) (Some 0) None;
                     norm out_planes; StubAdd]
               else []).
Proof.
  intros Hg Hw Hid planes conv norm.
  destruct (mobilenet_make_block_wired self in_planes out_planes expansion node_id
              stride g sp Hg Hw Hid)
    as (out & g' & Hrun & _ & _ & Hw' & [sp' Hout] & Hops).
  exists out, g', sp'. auto.
Qed.

(** The same for the block from 16 to 24 channels with expansion 6 and
    stride 2 on a node of shape (32, 32, 16): eight operators, no add. *)
Lemma mobilenet_block_operators_at_sample :
  (good (new_graph [32; 32; 16] false)
   /\ wired (new_graph [32; 32; 16] false)
   /\ shape_at (new_graph [32; 32; 16] false) 0 ([32; 32] ++ [16]))
  /\ exists out g' sp',
      MobileNetV2Generator._make_block (rules := conv_arithmetic) sample_mobilenet
        16 24 6 0%nat 2 (new_graph [32; 32; 16] false) = Ok (out, g')
      /\ wired g'
      /\ shape_at g' out (sp' ++ [24])
      /\ operators g'
         = [StubConv Dim2d 16 96 1 (Some 1) (Some 0) None;
            StubBatchNormalization Dim2d 96; StubReLU;
            StubConv Dim2d 96 96 3 (Some 2) (Some 1) (Some 96);
            StubBatchNormalization Dim2d 96; StubReLU;
            StubConv Dim2d 96 24 1 (Some 1) (Some 0) None;
            StubBatchNormalization Dim2d 24].
Proof.
  assert (H1 : good (new_graph [32; 32; 16] false))
    by (apply good_new_graph; discriminate).
  assert (H2 : wired (new_graph [32; 32; 16] false)) by apply wired_new_graph.
  assert (H3 : shape_at (new_graph [32; 32; 16] false) 0 ([32; 32] ++ [16]))
    by reflexivity.
  split; [auto|].
  destruct (mobilenet_block_operators conv_arithmetic sample_mobilenet 16 24 6
              0%nat 2 (new_graph [32; 32; 16] false) [32; 32] H1 H2 H3)
    as (out & g' & sp' & Hrun & Hw & Hout & Hops).
  exists out, g', sp'. auto.
Defined.

(** Whatever [in_planes] a constructed MobileNetV2 generator holds, a
    generation succeeds for every depth and width, leaves [in_planes] at
    24, the [out_planes] of the last stage, builds a graph in which all
    normalizations, convolutions and the dense layer are declared over the
    channels of their nodes, and ends with the dense layer from 96 features
    to the outputs. *)
Theorem mobilenet_generate_from_any_state
    (rules : ShapeRules) (n_output_node : Z) (input_shape : Shape) (in_planes : Z)
    (model_len model_width : option Z) :
  2 <= len input_shape <= 4 ->
  exists self g,
    MobileNetV2Generator.__init__ n_output_node input_shape = Ok self
    /\ MobileNetV2Generator.generate
         (MobileNetV2Generator.set_in_planes self in_planes) model_len model_width
       = Ok (g, MobileNetV2Generator.set_in_planes self 24)
    /\ wired g
    /\ last (operators g) StubReLU = StubDense 96 n_output_node.
Proof.
  intros Hrank.
  destruct (mobilenet_init_ok n_output_node input_shape Hrank)
    as (self & Hi & Hs & Hn & _ & Hcfg).
  assert (Hne : input_shape <> []) by (apply rank_not_nil; lia).
  destruct (exists_last Hne) as [sp [c Hshape]].
  set (self0 := MobileNetV2Generator.set_in_planes self in_planes).
  assert (Hs0 : MobileNetV2Generator.input_shape self0 = sp ++ [c])
    by (unfold self0; simpl; congruence).
  assert (Hafter : mobilenet_planes_after (MobileNetV2Generator.cfg self0)
                     (MobileNetV2Generator.in_planes self0) = 24)
    by (unfold self0; simpl; rewrite Hcfg; reflexivity).
  destruct (mobilenet_generate_wired self0 model_len model_width sp c Hs0 Hafter)
    as (g & Hg & Hw).
  assert (Hne0 : MobileNetV2Generator.input_shape self0 <> [])
    by (rewrite Hs0; apply snoc_not_nil).
  destruct (mobilenet_generate_runs self0 model_len model_width Hne0)
    as (g2 & self2 & Hg2 & _ & Hd).
  rewrite Hg in Hg2. injection Hg2 as <- _.
  exists self, g. split; [exact Hi|]. split; [exact Hg|]. split; [exact Hw|].
  rewrite Hd. unfold self0. simpl. rewrite Hn. reflexivity.
Qed.

(** The same for 10 outputs on the shape (32, 32, 3), started from the 24
    that a generation leaves. *)
Lemma mobilenet_generate_from_any_state_at_sample :
  2 <= len [32; 32; 3] <= 4
  /\ exists self g,
      MobileNetV2Generator.__init__ 10 [32; 32; 3] = Ok self
      /\ MobileNetV2Generator.generate (rules := conv_arithmetic)
           (MobileNetV2Generator.set_in_planes self 24) None None
         = Ok (g, MobileNetV2Generator.set_in_planes self 24)
      /\ wired g
      /\ last (operators g) StubReLU = StubDense 96 10.
Proof.
  assert (H : 2 <= len [32; 32; 3] <= 4) by (unfold len; simpl; lia).
  split; [exact H|].
  exact (mobilenet_generate_from_any_state conv_arithmetic 10 [32; 32; 3] 24
           None None H).
Defined.
